(** * better-call-dally: SSH fleet monitor

    A shallow embedding of the session pool ([app/infra/ssh_pool.py]), the
    stats collector ([app/infra/ssh.py]), the realtime hub
    ([app/realtime/hub.py]), the data model ([app/stats/models.py],
    [app/servers/models.py]) and the server registry
    ([app/servers/repository.py]), with the properties of the specification
    stated and settled against them.

    Conventions.
    - A Python [str] is a list of code points ([text]); [py "..."] turns an
      ASCII literal into one.
    - A Python [float] is the rational it denotes, or one of the three
      special values; rounding to the nearest double is left out, which
      comparisons against exactly representable constants do not see.
    - A function that can raise returns [Result A]: [Raise e] or [Return a].
    - Library behaviour the repository only calls (string to number
      conversion, the JSON decoder, number formatting, pydantic's field
      validators) is gathered in the record [PyLib] and taken as given. *)

From Stdlib Require Import ZArith NArith QArith Qround String Ascii List Lia Bool DecimalString.
From stdpp Require Import gmap.
Import ListNotations.

Set Warnings "-register-all".

Set Default Proof Using "Type".

(** ** Python text *)

Module Py.

Definition char : Type := N.
Definition text : Type := list char.

(** An ASCII literal as a [text]. *)
Definition py (s : string) : text := List.map N_of_ascii (list_ascii_of_string s).

Definition LF : char := 10%N.
Definition CR : char := 13%N.

Definition text_eqb (a b : text) : bool := bool_decide (a = b).

(** [str.splitlines] line boundaries: \n \v \f \r \x1c \x1d \x1e \x85
    U+2028 U+2029 (and \r\n, handled in [splitlines]). *)
Definition is_linebreak (c : char) : bool :=
  existsb (N.eqb c) [10; 11; 12; 13; 28; 29; 30; 133; 8232; 8233]%N.

(** [str.isspace] for one code point. *)
Definition is_space (c : char) : bool :=
  ((9 <=? c) && (c <=? 13) || (28 <=? c) && (c <=? 32)
   || (c =? 133) || (c =? 160) || (c =? 5760)
   || (8192 <=? c) && (c <=? 8202) || (c =? 8232) || (c =? 8233)
   || (c =? 8239) || (c =? 8287) || (c =? 12288))%N.

(** [s.splitlines()]: the lines without their terminators; a final
    terminator opens no further line. *)
Fixpoint splitlines (s : text) : list text :=
  match s with
  | [] => []
  | c :: rest =>
      if is_linebreak c then
        [] :: match rest with
              | c' :: rest' =>
                  if ((c =? CR) && (c' =? LF))%N then splitlines rest'
                  else splitlines rest
              | [] => splitlines rest
              end
      else match splitlines rest with
           | [] => [[c]]
           | l :: ls => (c :: l) :: ls
           end
  end.

Fixpoint lstrip (s : text) : text :=
  match s with
  | c :: rest => if is_space c then lstrip rest else s
  | [] => []
  end.

Definition rstrip (s : text) : text := rev (lstrip (rev s)).

(** [s.strip()] *)
Definition strip (s : text) : text := rstrip (lstrip s).

(** [s.startswith(p)] *)
Fixpoint startswith (p s : text) : bool :=
  match p, s with
  | [], _ => true
  | a :: p', b :: s' => (a =? b)%N && startswith p' s'
  | _ :: _, [] => false
  end.

(** [s.endswith(p)] *)
Definition endswith (p s : text) : bool := startswith (rev p) (rev s).

(** [p in s] *)
Fixpoint contains (p s : text) : bool :=
  startswith p s ||
  match s with
  | _ :: rest => contains p rest
  | [] => false
  end.

(** [s.replace(old, new)] for a non-empty [old]: occurrences are taken
    left to right and do not overlap; [skip] counts the characters of a
    matched occurrence still to be passed over. *)
Fixpoint replace_from (old new : text) (skip : nat) (s : text) : text :=
  match s with
  | [] => []
  | c :: rest =>
      match skip with
      | S k => replace_from old new k rest
      | O =>
          if startswith old s
          then new ++ replace_from old new (length old - 1) rest
          else c :: replace_from old new 0 rest
      end
  end.

Definition replace (old new s : text) : text :=
  match old with
  | [] => new ++ concat (List.map (fun c => c :: new) s)
  | _ => replace_from old new 0 s
  end.

(** [sep.join(parts)] *)
Fixpoint join (sep : text) (parts : list text) : text :=
  match parts with
  | [] => []
  | [p] => p
  | p :: ps => p ++ sep ++ join sep ps
  end.

(** [s.lower()] on the Latin-1 range; other code points are left as they
    are. *)
Definition lower_char (c : char) : char :=
  if ((65 <=? c) && (c <=? 90) || (192 <=? c) && (c <=? 222) && negb (c =? 215))%N
  then (c + 32)%N else c.

Definition lower (s : text) : text := List.map lower_char s.

(** [s.split()]: the maximal runs of non-whitespace characters. *)
Fixpoint split_ws (s : text) : list text :=
  match s with
  | [] => []
  | c :: rest =>
      if is_space c then split_ws rest
      else match rest with
           | c' :: _ =>
               if is_space c' then [c] :: split_ws rest
               else match split_ws rest with
                    | w :: ws => (c :: w) :: ws
                    | [] => [[c]]
                    end
           | [] => [[c]]
           end
  end.

(** Decimal rendering of an [int], as [str(n)] and [f"{n}"] give it. *)
Definition str_of_int (n : Z) : text := py (NilZero.string_of_int (Z.to_int n)).

(** Truthiness of an optional string: [None] and [""] are falsy. *)
Definition truthy (s : option text) : bool :=
  match s with
  | Some (_ :: _) => true
  | _ => false
  end.

End Py.

Import Py.

Open Scope Z_scope.

(** ** Results of calls that may raise *)

Inductive Exn : Type :=
  | TypeError (msg : text)
  | ValueError (msg : text)
  | AttributeError (msg : text)
  | IndexError (msg : text)
  | OverflowError (msg : text)
  | JSONDecodeError (msg : text)
  | ValidationError (msg : text)
  | OtherError (msg : text).

(** [str(exc)] *)
Definition exn_message (e : Exn) : text :=
  match e with
  | TypeError m | ValueError m | AttributeError m | IndexError m
  | OverflowError m | JSONDecodeError m | ValidationError m | OtherError m => m
  end.

(** [isinstance(exc, ValueError)]: [json.JSONDecodeError] and pydantic's
    [ValidationError] both derive from [ValueError]. *)
Definition is_ValueError (e : Exn) : bool :=
  match e with
  | ValueError _ | JSONDecodeError _ | ValidationError _ => true
  | _ => false
  end.

Inductive Result (A : Type) : Type :=
  | Raise (e : Exn)
  | Return (a : A).
Arguments Raise {A} e.
Arguments Return {A} a.

Definition bind {A B : Type} (r : Result A) (k : A -> Result B) : Result B :=
  match r with
  | Raise e => Raise e
  | Return a => k a
  end.

Notation "'let*' x ':=' r 'in' k" := (bind r (fun x => k))
  (at level 10, x pattern, r at level 100, k at level 200).

(** ** [redact_output] (app/infra/ssh.py) *)

Module Redact.

Definition marker : text := py "[redacted]".

(** The body of the [for line in lines] loop: one step on the list
    [filtered]. *)
Definition redact_step (secret : text) (filtered : list text) (line : text) : list text :=
  if text_eqb (strip line) secret then filtered
  else filtered ++ [replace secret marker line].

Definition redact_output (t : text) (secret : option text) : text :=
  match t, secret with
  | [], _ => t
  | _, None => t
  | _, Some [] => t
  | _, Some s =>
      let lines := splitlines t in
      let filtered := fold_left (redact_step s) lines [] in
      let result := join [LF] filtered in
      if endswith [LF] t then result ++ [LF] else result
  end.

End Redact.

(** ** Python values *)

(** A [float]: the rational it denotes, or a special value. *)
Inductive PyFloat : Type :=
  | Fin (q : Q)
  | PosInf
  | NegInf
  | NaN.

(** [a < b] on floats; every comparison with NaN is false. *)
Definition float_lt (a b : PyFloat) : bool :=
  match a, b with
  | NaN, _ | _, NaN => false
  | Fin x, Fin y => negb (Qle_bool y x)
  | NegInf, NegInf => false
  | NegInf, _ => true
  | _, NegInf => false
  | PosInf, _ => false
  | Fin _, PosInf => true
  end.

(** [int(x)] for a float [x]: truncation toward zero. *)
Definition int_of_float (x : PyFloat) : Result Z :=
  match x with
  | Fin q => Return (Z.quot (Qnum q) (Zpos (Qden q)))
  | NaN => Raise (ValueError (py "cannot convert float NaN to integer"))
  | PosInf | NegInf => Raise (OverflowError (py "cannot convert float infinity to integer"))
  end.

(** The least magnitude of an [int] that no longer rounds to a finite
    double: halfway between the largest double and [2^1024]. *)
Definition float_int_limit : Z := 2 ^ 1024 - 2 ^ 970.

(** [float(n)] for an [int] [n]: always finite when it returns. *)
Definition float_of_int (n : Z) : Result Q :=
  if Z.abs n <? float_int_limit then Return (inject_Z n)
  else Raise (OverflowError (py "int too large to convert to float")).

(** What [json.loads] produces: [None], [bool], [int], [float], [str],
    [list] and [dict] (keys in insertion order, each once). *)
Inductive Json : Type :=
  | JNull
  | JBool (b : bool)
  | JInt (z : Z)
  | JFloat (f : PyFloat)
  | JStr (s : text)
  | JArr (items : list Json)
  | JObj (fields : list (text * Json)).

Fixpoint dict_get {V : Type} (k : text) (fields : list (text * V)) : option V :=
  match fields with
  | [] => None
  | (k', v) :: rest => if text_eqb k k' then Some v else dict_get k rest
  end.

(** [type(v).__name__] *)
Definition type_name (v : Json) : text :=
  match v with
  | JNull => py "NoneType"
  | JBool _ => py "bool"
  | JInt _ => py "int"
  | JFloat _ => py "float"
  | JStr _ => py "str"
  | JArr _ => py "list"
  | JObj _ => py "dict"
  end.

(** [obj.get(key)]: only a [dict] has the method. *)
Definition py_get (obj : Json) (key : text) : Result Json :=
  match obj with
  | JObj fields => Return (default JNull (dict_get key fields))
  | _ => Raise (AttributeError
                  (py "'" ++ type_name obj ++ py "' object has no attribute 'get'"))
  end.

(** The named groups of a match of [SUPERVISOR_LINE]. *)
Record SupervisorMatch : Type := {
  g_name : option text;
  g_state : option text;
  g_pid : option text;
  g_uptime : option text;
  g_message : option text;
}.

(** Library behaviour the repository calls and does not define. [None]
    stands for the exception the call raises on that input ([ValueError]
    for the conversions, [ValidationError] for a pydantic field). The
    decoder returns what it decodes or raises: [JSONDecodeError] on text
    that is no JSON, and whatever else the library raises ([ValueError] on
    an integer literal beyond the digit limit, [RecursionError] on nesting
    too deep), which the repository does not catch. *)
Record PyLib : Type := {
  int_of_str : text -> option Z;               (* int(s) *)
  float_of_str : text -> option PyFloat;       (* float(s) *)
  isdigit : text -> bool;                      (* s.isdigit() *)
  raw_decode : text -> Result Json;            (* json.JSONDecoder().raw_decode(s)[0] *)
  format_2f : PyFloat -> text;                 (* f"{x:.2f}" *)
  shlex_quote : text -> text;                  (* shlex.quote(s) *)
  supervisor_line_match : text -> option SupervisorMatch; (* SUPERVISOR_LINE.match(line) *)
  field_int : Json -> option Z;                (* pydantic: a non-null value for an int field *)
  field_str : Json -> option text;
  field_float : Json -> option PyFloat;
  field_bool : Json -> option bool;
}.

(** ** Formatting helpers (app/infra/ssh.py) *)

Module Format.

Definition units : list text := [py "B"; py "KB"; py "MB"; py "GB"; py "TB"; py "PB"].

(** The [for unit in units] loop of [format_bytes]. *)
Fixpoint format_bytes_loop (lib : PyLib) (size : Q) (us : list text) : Result text :=
  match us with
  | [] => Return (format_2f lib (Fin size) ++ py " PB")
  | unit :: rest =>
      if negb (Qle_bool 1024 size) || text_eqb unit (py "PB") then
        if text_eqb unit (py "B") then
          let* n := int_of_float (Fin size) in
          Return (str_of_int n ++ py " " ++ unit)
        else Return (format_2f lib (Fin size) ++ py " " ++ unit)
      else format_bytes_loop lib (size / 1024)%Q rest
  end.

Definition format_bytes (lib : PyLib) (value : option Z) : Result text :=
  match value with
  | None => Return (py "n/a")
  | Some v =>
      let* size := float_of_int v in
      format_bytes_loop lib size units
  end.

Definition format_seconds (seconds : option PyFloat) : Result text :=
  match seconds with
  | None => Return (py "n/a")
  | Some x =>
      let* remaining := int_of_float x in
      let days := remaining / 86400 in
      let remaining := remaining mod 86400 in
      let hours := remaining / 3600 in
      let remaining := remaining mod 3600 in
      let minutes := remaining / 60 in
      let seconds := remaining mod 60 in
      if negb (days =? 0) then
        Return (str_of_int days ++ py "d " ++ str_of_int hours ++ py "h "
                ++ str_of_int minutes ++ py "m")
      else if negb (hours =? 0) then
        Return (str_of_int hours ++ py "h " ++ str_of_int minutes ++ py "m")
      else if negb (minutes =? 0) then
        Return (str_of_int minutes ++ py "m " ++ str_of_int seconds ++ py "s")
      else Return (str_of_int seconds ++ py "s")
  end.

(** What [format_seconds] prints for a whole number [n >= 0] of seconds,
    with each figure read off [n] directly. *)
Definition duration_text (n : Z) : text :=
  if 86400 <=? n then
    str_of_int (n / 86400) ++ py "d " ++ str_of_int (n / 3600 mod 24) ++ py "h "
    ++ str_of_int (n / 60 mod 60) ++ py "m"
  else if 3600 <=? n then
    str_of_int (n / 3600) ++ py "h " ++ str_of_int (n / 60 mod 60) ++ py "m"
  else if 60 <=? n then
    str_of_int (n / 60) ++ py "m " ++ str_of_int (n mod 60) ++ py "s"
  else str_of_int n ++ py "s".

(** The formatter as the specification words it: the largest applicable
    unit pair. *)
Definition format_seconds_spec (seconds : option Z) : text :=
  match seconds with
  | None => py "n/a"
  | Some n =>
      if 86400 <=? n then
        str_of_int (n / 86400) ++ py "d " ++ str_of_int (n mod 86400 / 3600) ++ py "h"
      else if 3600 <=? n then
        str_of_int (n / 3600) ++ py "h " ++ str_of_int (n mod 3600 / 60) ++ py "m"
      else if 60 <=? n then
        str_of_int (n / 60) ++ py "m " ++ str_of_int (n mod 60) ++ py "s"
      else str_of_int n ++ py "s"
  end.

End Format.

(** ** The realtime hub (app/realtime/hub.py) *)

Module Hub.

Definition MIN_INTERVAL_S : Q := 3.
Definition MAX_INTERVAL_S : Q := 60.
Definition DEFAULT_INTERVAL_S : Q := 10.

(** The two detail levels, ["summary"] and ["full"]. *)
Inductive Detail : Type := Summary | Full.

Definition detail_eqb (a b : Detail) : bool :=
  match a, b with
  | Summary, Summary | Full, Full => true
  | _, _ => false
  end.

Definition detail_text (d : Detail) : text :=
  match d with
  | Summary => py "summary"
  | Full => py "full"
  end.

Record Subscription : Type := {
  interval_s : Q;
  detail : Detail;
}.

Record CacheEntry : Type := {
  payload : Json;
  fetched_at : Q;
  cache_detail : Detail;
}.

Definition WebSocket : Type := nat.

Record RealtimeHub : Type := {
  _server_subs : gmap text (gmap WebSocket Subscription);
  _cache : gmap text CacheEntry;
  _in_flight : gset text;
}.

(** [isinstance(v, (int, float))]: [bool] is a subclass of [int]. *)
Definition is_int_or_float (v : Json) : bool :=
  match v with
  | JBool _ | JInt _ | JFloat _ => true
  | _ => false
  end.

(** [v / 1000.0] for an [int], [bool] or [float] [v]. *)
Definition div_1000 (v : Json) : Result PyFloat :=
  match v with
  | JBool b => Return (Fin ((if b then 1 else 0) / 1000))
  | JInt z => let* x := float_of_int z in Return (Fin (x / 1000))
  | JFloat (Fin x) => Return (Fin (x / 1000))
  | JFloat f => Return f
  | _ => Raise (TypeError (py "unsupported operand type(s) for /"))
  end%Q.

(** [min(a, b)] and [max(a, b)]: the first argument unless the second is
    strictly smaller (larger). *)
Definition py_min2 (a b : PyFloat) : PyFloat := if float_lt b a then b else a.
Definition py_max2 (a b : PyFloat) : PyFloat := if float_lt a b then b else a.

Definition _normalize_interval (interval_ms : Json) : Result PyFloat :=
  if is_int_or_float interval_ms then
    let* secs := div_1000 interval_ms in
    let value := py_max2 (Fin MIN_INTERVAL_S) (py_min2 (Fin MAX_INTERVAL_S) secs) in
    Return value
  else Return (Fin DEFAULT_INTERVAL_S).

Definition _normalize_detail (d : Json) : Detail :=
  match d with
  | JStr s => if text_eqb (lower s) (py "full") then Full else Summary
  | _ => Summary
  end.

(** A number of seconds clamped to [MIN_INTERVAL_S, MAX_INTERVAL_S]. *)
Definition clamp (x : Q) : Q :=
  if Qle_bool x MIN_INTERVAL_S then MIN_INTERVAL_S
  else if Qle_bool MAX_INTERVAL_S x then MAX_INTERVAL_S
  else x.

(** A JSON number, as the message format has it: [bool] is not one. *)
Definition is_json_number (v : Json) : bool :=
  match v with
  | JInt _ | JFloat _ => true
  | _ => false
  end.

(** An [int] small enough for [float(n)]; anything else passes. *)
Definition float_convertible (v : Json) : Prop :=
  match v with
  | JInt z => Z.abs z < float_int_limit
  | _ => True
  end.

(** [min(sub.interval_s for sub in subs)] for a non-empty [subs]: the
    first of the least intervals. *)
Definition min_interval (first : Subscription) (others : list Subscription) : Q :=
  fold_left (fun m sub => if Qle_bool m (interval_s sub) then m else interval_s sub)
            others (interval_s first).

(** The active interval and detail level of one server in [_tick]. *)
Definition active_interval (subs : list Subscription) : Q :=
  match subs with
  | [] => DEFAULT_INTERVAL_S
  | first :: others => min_interval first others
  end.

Definition active_detail (subs : list Subscription) : Detail :=
  if existsb (fun sub => detail_eqb (detail sub) Full) subs then Full else Summary.

(** [due] in [_tick]. *)
Definition due (now : Q) (subs : list Subscription) (cache : option CacheEntry) : bool :=
  match cache with
  | None => true
  | Some c =>
      Qle_bool (active_interval subs) (now - fetched_at c)
      || negb (detail_eqb (cache_detail c) (active_detail subs))
  end.

(** Due-ness as the specification's testable property words it: only an
    upgrade from summary to full forces a refetch. *)
Definition due_spec (now : Q) (subs : list Subscription) (cache : option CacheEntry) : bool :=
  match cache with
  | None => true
  | Some c =>
      Qle_bool (active_interval subs) (now - fetched_at c)
      || (detail_eqb (active_detail subs) Full && detail_eqb (cache_detail c) Summary)
  end.

(** [subs_snapshot]: the subscriptions of every server that has any. The
    order in which a dict is walked is left open. *)
Definition subs_snapshot (h : RealtimeHub) : list (text * list Subscription) :=
  List.filter (fun '(_, subs) => negb (Nat.eqb (length subs) 0))
    (map_to_list ((fun subs => snd <$> map_to_list subs) <$> _server_subs h)).

(** One turn of the [for server_id, subs in subs_snapshot.items()] loop:
    the in-flight set and the refreshes dispatched so far. *)
Definition tick_step (now : Q) (cache : gmap text CacheEntry)
    (acc : gset text * list (text * Detail)) (item : text * list Subscription)
    : gset text * list (text * Detail) :=
  let '(in_flight, tasks) := acc in
  let '(server_id, subs) := item in
  if due now subs (cache !! server_id) then
    if bool_decide (server_id ∈ in_flight) then acc
    else ({[server_id]} ∪ in_flight, tasks ++ [(server_id, active_detail subs)])
  else acc.

(** [_tick]: the hub afterwards and the refreshes it dispatched. The cache
    is the one at the start of the tick. *)
Definition _tick (now : Q) (h : RealtimeHub) : RealtimeHub * list (text * Detail) :=
  let '(in_flight, tasks) :=
    fold_left (tick_step now (_cache h)) (subs_snapshot h) (_in_flight h, []) in
  ({| _server_subs := _server_subs h; _cache := _cache h; _in_flight := in_flight |},
   tasks).

End Hub.

(** ** Servers and their registry (app/servers) *)

Module Servers.

Record Server : Type := {
  id : text;
  name : option text;
  host : text;
  port : Z;
  user : text;
  password : option text;
  key_path : option text;
  pm2_user : option text;
  pm2_home : option text;
  tags : list text;
  enabled : bool;
}.

(** What the registry file can hold, as [_load] tells the cases apart. *)
Inductive RegistryFile : Type :=
  | NoFile                          (* the path does not exist *)
  | BlankFile                       (* only whitespace *)
  | CorruptFile                     (* [json.loads] fails *)
  | NotAList                        (* valid JSON, not a list *)
  | InvalidItems                    (* a list with an item the Server model rejects *)
  | ServerList (servers : list Server).

Definition _load (file : RegistryFile) : Result (list Server) :=
  match file with
  | NoFile => Return []
  | BlankFile => Return []
  | CorruptFile => Raise (JSONDecodeError (py "Expecting value"))
  | NotAList => Return []
  | InvalidItems => Raise (ValidationError (py "validation error for Server"))
  | ServerList servers => Return servers
  end.

(** [_save]: the temporary file written and moved over the path holds the
    dump of [servers], which loads back as [servers]. *)
Definition _save (servers : list Server) : RegistryFile := ServerList servers.

Definition same_endpoint (existing server : Server) : bool :=
  text_eqb (host existing) (host server)
  && (port existing =? port server)
  && text_eqb (user existing) (user server).

(** The [for existing in servers] loop of [add]. *)
Fixpoint check_unique (servers : list Server) (server : Server) : Result unit :=
  match servers with
  | [] => Return tt
  | existing :: rest =>
      if same_endpoint existing server
      then Raise (ValueError (py "Server already exists for host/port/user"))
      else check_unique rest server
  end.

(** [ServerRepository.add]: the outcome and the registry file afterwards. *)
Definition add (file : RegistryFile) (server : Server) : Result Server * RegistryFile :=
  match _load file with
  | Raise e => (Raise e, file)
  | Return servers =>
      match check_unique servers server with
      | Raise e => (Raise e, file)
      | Return _ => (Return server, _save (servers ++ [server]))
      end
  end.

Definition list_servers (file : RegistryFile) : Result (list Server) := _load file.

End Servers.

(** ** The stats data model (app/stats/models.py) *)

Module Models.

Record MemoryInfo : Type := {
  mem_total_bytes : option Z;
  mem_used_bytes : option Z;
  mem_total_human : text;
  mem_used_human : text;
}.

Record UptimeInfo : Type := {
  seconds : option PyFloat;
  human : text;
}.

Record DiskInfo : Type := {
  mount : text;
  disk_total_bytes : option Z;
  disk_used_bytes : option Z;
  disk_total_human : text;
  disk_used_human : text;
}.

Record Pm2Process : Type := {
  pm_id : option Z;
  pm_name : option text;
  namespace : option text;
  version : option text;
  mode : option text;
  pm_pid : option Z;
  pm_uptime : option Z;
  restarts : option Z;
  status : option text;
  cpu_percent : option PyFloat;
  memory_bytes : option Z;
  pm_user : option text;
  watching : option bool;
}.

Record Pm2Info : Type := {
  total_memory_bytes : option Z;
  processes : option Z;
  pm2_details : option (list Pm2Process);
  pm2_error : option text;
}.

Record SupervisorProcess : Type := {
  sup_name : option text;
  sup_state : option text;
  sup_pid : option Z;
  sup_uptime : option text;
  sup_message : option text;
  raw : option text;
}.

Record SupervisorInfo : Type := {
  total : option Z;
  running : option Z;
  sup_details : option (list SupervisorProcess);
}.

(** [HostStats] with the fields models.py declares, in its order. *)
Record HostStats : Type := {
  server_id : text;
  server_name : option text;
  hs_host : text;
  hs_user : text;
  hs_port : Z;
  hs_tags : list text;
  error : option text;
  memory : MemoryInfo;
  uptime : UptimeInfo;
  disk : DiskInfo;
  pm2 : Pm2Info;
  supervisor : SupervisorInfo;
}.

(** Modelled from the spec: the class [CpuInfo], which ssh.py imports from
    models.py and models.py does not define. "CpuInfo: core count
    (nullable), usage percent (nullable), human string." *)
Record CpuInfo : Type := {
  cores : option Z;
  usage_percent : option PyFloat;
  usage_human : text;
}.

(** The keyword arguments ssh.py passes to [HostStats(...)]. *)
Record HostStatsArgs : Type := {
  kw_server_id : text;
  kw_server_name : option text;
  kw_host : text;
  kw_user : text;
  kw_port : Z;
  kw_tags : list text;
  kw_error : option text;
  kw_cpu : CpuInfo;
  kw_memory : MemoryInfo;
  kw_uptime : UptimeInfo;
  kw_disk : DiskInfo;
  kw_pm2 : Pm2Info;
  kw_supervisor : SupervisorInfo;
}.

(** [HostStats(...)] called with keywords: a pydantic model in its default configuration
    keeps the keywords that name a declared field and drops the others. *)
Definition HostStats_init (kw : HostStatsArgs) : HostStats := {|
  server_id := kw_server_id kw;
  server_name := kw_server_name kw;
  hs_host := kw_host kw;
  hs_user := kw_user kw;
  hs_port := kw_port kw;
  hs_tags := kw_tags kw;
  error := kw_error kw;
  memory := kw_memory kw;
  uptime := kw_uptime kw;
  disk := kw_disk kw;
  pm2 := kw_pm2 kw;
  supervisor := kw_supervisor kw;
|}.

(** The defaults of the models whose fields are all optional. *)
Definition Pm2Info_default : Pm2Info :=
  {| total_memory_bytes := None; processes := None; pm2_details := None; pm2_error := None |}.

Definition SupervisorInfo_default : SupervisorInfo :=
  {| total := None; running := None; sup_details := None |}.

(** [model_dump()]: a model as a dict of its declared fields. *)
Definition dump_opt {A : Type} (f : A -> Json) (o : option A) : Json :=
  match o with
  | None => JNull
  | Some a => f a
  end.

Definition dump_MemoryInfo (m : MemoryInfo) : Json :=
  JObj [(py "total_bytes", dump_opt JInt (mem_total_bytes m));
        (py "used_bytes", dump_opt JInt (mem_used_bytes m));
        (py "total_human", JStr (mem_total_human m));
        (py "used_human", JStr (mem_used_human m))].

Definition dump_UptimeInfo (u : UptimeInfo) : Json :=
  JObj [(py "seconds", dump_opt JFloat (seconds u)); (py "human", JStr (human u))].

Definition dump_DiskInfo (d : DiskInfo) : Json :=
  JObj [(py "mount", JStr (mount d));
        (py "total_bytes", dump_opt JInt (disk_total_bytes d));
        (py "used_bytes", dump_opt JInt (disk_used_bytes d));
        (py "total_human", JStr (disk_total_human d));
        (py "used_human", JStr (disk_used_human d))].

Definition dump_Pm2Process (p : Pm2Process) : Json :=
  JObj [(py "id", dump_opt JInt (pm_id p));
        (py "name", dump_opt JStr (pm_name p));
        (py "namespace", dump_opt JStr (namespace p));
        (py "version", dump_opt JStr (version p));
        (py "mode", dump_opt JStr (mode p));
        (py "pid", dump_opt JInt (pm_pid p));
        (py "uptime", dump_opt JInt (pm_uptime p));
        (py "restarts", dump_opt JInt (restarts p));
        (py "status", dump_opt JStr (status p));
        (py "cpu", dump_opt JFloat (cpu_percent p));
        (py "memory_bytes", dump_opt JInt (memory_bytes p));
        (py "user", dump_opt JStr (pm_user p));
        (py "watching", dump_opt JBool (watching p))].

Definition dump_Pm2Info (p : Pm2Info) : Json :=
  JObj [(py "total_memory_bytes", dump_opt JInt (total_memory_bytes p));
        (py "processes", dump_opt JInt (processes p));
        (py "details", dump_opt (fun l => JArr (List.map dump_Pm2Process l)) (pm2_details p));
        (py "error", dump_opt JStr (pm2_error p))].

Definition dump_SupervisorProcess (p : SupervisorProcess) : Json :=
  JObj [(py "name", dump_opt JStr (sup_name p));
        (py "state", dump_opt JStr (sup_state p));
        (py "pid", dump_opt JInt (sup_pid p));
        (py "uptime", dump_opt JStr (sup_uptime p));
        (py "message", dump_opt JStr (sup_message p));
        (py "raw", dump_opt JStr (raw p))].

Definition dump_SupervisorInfo (s : SupervisorInfo) : Json :=
  JObj [(py "total", dump_opt JInt (total s));
        (py "running", dump_opt JInt (running s));
        (py "details",
         dump_opt (fun l => JArr (List.map dump_SupervisorProcess l)) (sup_details s))].

Definition model_dump (h : HostStats) : Json :=
  JObj [(py "server_id", JStr (server_id h));
        (py "server_name", dump_opt JStr (server_name h));
        (py "host", JStr (hs_host h));
        (py "user", JStr (hs_user h));
        (py "port", JInt (hs_port h));
        (py "tags", JArr (List.map JStr (hs_tags h)));
        (py "error", dump_opt JStr (error h));
        (py "memory", dump_MemoryInfo (memory h));
        (py "uptime", dump_UptimeInfo (uptime h));
        (py "disk", dump_DiskInfo (disk h));
        (py "pm2", dump_Pm2Info (pm2 h));
        (py "supervisor", dump_SupervisorInfo (supervisor h))].

(** The shape of a snapshot: its sub-sections and the fields of each. *)
Definition field_names (v : Json) : list text :=
  match v with
  | JObj fields => List.map fst fields
  | _ => []
  end.

Definition shape (v : Json) : list (text * list text) :=
  match v with
  | JObj fields => List.map (fun '(k, sub) => (k, field_names sub)) fields
  | _ => []
  end.

(** The sub-sections the specification lists for a snapshot. *)
Definition spec_sections : list text :=
  [py "cpu"; py "memory"; py "uptime"; py "disk"; py "pm2"; py "supervisor"].

End Models.

(** ** Remote commands and probes (app/infra/ssh.py) *)

Module Ssh.
Import Servers Models Format Redact.

Record SshResult : Type := {
  stdout : text;
  stderr : text;
  exit_code : Z;
}.

(** One [client.exec_command]: the command line, whether a pseudo-terminal
    is asked for, and what is written to the command's stdin. *)
Record Exec : Type := {
  command : text;
  get_pty : bool;
  stdin : option text;
}.

(** What reading the streams of an exec yields: the read times out, or the
    command exits with its decoded output. *)
Inductive Reply : Type :=
  | Timeout
  | Exited (status : Z) (out err : text).

(** A live session: its reply to the n-th exec made on it. *)
Definition Session : Type := nat -> Exec -> Reply.

(** The execs made so far, oldest first. *)
Definition Log : Type := list Exec.

(** A computation on a session: it may raise, and it extends the log. *)
Definition M (A : Type) : Type := Log -> Result A * Log.

Definition ret {A : Type} (a : A) : M A := fun log => (Return a, log).
Definition throw {A : Type} (e : Exn) : M A := fun log => (Raise e, log).
Definition lift {A : Type} (r : Result A) : M A := fun log => (r, log).

Definition mbind {A B : Type} (m : M A) (k : A -> M B) : M B :=
  fun log =>
    match m log with
    | (Raise e, log') => (Raise e, log')
    | (Return a, log') => k a log'
    end.

Notation "'let!' x ':=' m 'in' k" := (mbind m (fun x => k))
  (at level 10, x pattern, m at level 100, k at level 200).

Definition DQ : char := 34%N.
Definition dq (s : text) : text := [DQ] ++ s ++ [DQ].

Section Probes.
Variable lib : PyLib.
Variable sess : Session.

Definition result_of_reply (r : Reply) (secret : option text) : SshResult :=
  match r with
  | Timeout => {| stdout := []; stderr := py "command timeout"; exit_code := 124 |}
  | Exited status out err =>
      match secret with
      | None => {| stdout := out; stderr := err; exit_code := status |}
      | Some _ => {| stdout := redact_output out secret;
                     stderr := redact_output err secret;
                     exit_code := status |}
      end
  end.

Definition run_command (cmd : text) (use_pty login_shell : bool) : M SshResult :=
  fun log =>
    let cmd := if login_shell then py "bash -lc " ++ shlex_quote lib cmd else cmd in
    let req := {| command := cmd; get_pty := use_pty; stdin := None |} in
    (Return (result_of_reply (sess (length log) req) None), log ++ [req]).

Definition sudo_command_line (cmd user : text) (login_shell : bool) : text :=
  let cmd := if login_shell then py "bash -lc " ++ shlex_quote lib cmd else cmd in
  let sudo_inner := py "sudo -S -p '' -u " ++ shlex_quote lib user
                    ++ py " /bin/sh -c " ++ shlex_quote lib cmd in
  py "stty -echo >/dev/null 2>&1 || true; " ++ sudo_inner ++ py "; "
  ++ py "status=$?; " ++ py "stty echo >/dev/null 2>&1 || true; " ++ py "exit $status".

Definition sudo_exec (cmd password user : text) (login_shell : bool) : Exec :=
  {| command := sudo_command_line cmd user login_shell;
     get_pty := true;
     stdin := Some (password ++ [LF]) |}.

Definition run_sudo_command (cmd password user : text) (login_shell : bool) : M SshResult :=
  fun log =>
    let req := sudo_exec cmd password user login_shell in
    (Return (result_of_reply (sess (length log) req) (Some password)), log ++ [req]).

(** [int(s)] and [float(s)] as calls that may raise. *)
Definition py_int (s : text) : Result Z :=
  match int_of_str lib s with
  | Some z => Return z
  | None => Raise (ValueError (py "invalid literal for int() with base 10"))
  end.

Definition py_float (s : text) : Result PyFloat :=
  match float_of_str lib s with
  | Some x => Return x
  | None => Raise (ValueError (py "could not convert string to float"))
  end.

(** [parts[i]] *)
Definition index {A : Type} (parts : list A) (i : nat) : Result A :=
  match nth_error parts i with
  | Some a => Return a
  | None => Raise (IndexError (py "list index out of range"))
  end.

(** The body of the loop of [fetch_memory] over the lines of
    /proc/meminfo, on the pair [(total, available)]. *)
Definition memory_line (acc : option Z * option Z) (line : text)
    : Result (option Z * option Z) :=
  let '(total, available) := acc in
  if startswith (py "MemTotal:") line then
    let* tok := index (split_ws line) 1 in
    let* n := py_int tok in
    Return (Some (n * 1024), available)
  else if startswith (py "MemAvailable:") line then
    let* tok := index (split_ws line) 1 in
    let* n := py_int tok in
    Return (total, Some (n * 1024))
  else Return acc.

Fixpoint memory_lines (acc : option Z * option Z) (lines : list text)
    : Result (option Z * option Z) :=
  match lines with
  | [] => Return acc
  | line :: rest => let* acc' := memory_line acc line in memory_lines acc' rest
  end.

Definition fetch_memory : M (option Z * option Z) :=
  let! result := run_command (py "cat /proc/meminfo") false false in
  if negb (exit_code result =? 0) then ret (None, None)
  else
    let! acc := lift (memory_lines (None, None) (splitlines (stdout result))) in
    match acc with
    | (Some total, Some available) => ret (Some total, Some (total - available))
    | _ => ret (None, None)
    end.

Definition fetch_uptime : M (option PyFloat) :=
  let! result := run_command (py "cat /proc/uptime") false false in
  if negb (exit_code result =? 0) then ret None
  else
    match (let* tok := index (split_ws (stdout result)) 0 in py_float tok) with
    | Return x => ret (Some x)
    | Raise (ValueError _) | Raise (IndexError _) => ret None
    | Raise e => throw e
    end.

Definition fetch_disk : M (option Z * option Z) :=
  let! result := run_command (py "df -B1 /") false false in
  if negb (exit_code result =? 0) then ret (None, None)
  else
    let lines := splitlines (stdout result) in
    if (length lines <? 2)%nat then ret (None, None)
    else
      let parts := split_ws (nth 1 lines []) in
      if (length parts <? 6)%nat then ret (None, None)
      else
        match (let* total := py_int (nth 1 parts []) in
               let* used := py_int (nth 2 parts []) in
               Return (total, used)) with
        | Return (total, used) => ret (Some total, Some used)
        | Raise (ValueError _) => ret (None, None)
        | Raise e => throw e
        end.

Definition usage_script : text :=
  py "read cpu user nice system idle iowait irq softirq steal guest guest_nice < /proc/stat; "
  ++ py "total1=$((user+nice+system+idle+iowait+irq+softirq+steal)); "
  ++ py "idle1=$((idle+iowait)); "
  ++ py "sleep 0.5; "
  ++ py "read cpu user nice system idle iowait irq softirq steal guest guest_nice < /proc/stat; "
  ++ py "total2=$((user+nice+system+idle+iowait+irq+softirq+steal)); "
  ++ py "idle2=$((idle+iowait)); "
  ++ py "total=$((total2-total1)); "
  ++ py "idle=$((idle2-idle1)); "
  ++ py "if [ " ++ dq (py "$total") ++ py " -gt 0 ]; then "
  ++ py "usage=$(awk " ++ dq (py "BEGIN {print (1-($idle/$total))*100}") ++ py "); "
  ++ py "printf " ++ dq (py "%.2f") ++ py " " ++ dq (py "$usage") ++ py "; "
  ++ py "else echo " ++ dq (py "0.00") ++ py "; "
  ++ py "fi".

Definition fetch_cpu : M (option Z * option PyFloat) :=
  let! cores_result := run_command
    (py "command -v nproc >/dev/null 2>&1 && nproc || getconf _NPROCESSORS_ONLN")
    false false in
  let cores :=
    if exit_code cores_result =? 0
    then int_of_str lib (strip (stdout cores_result))
    else None in
  let! usage_result := run_command usage_script false true in
  let usage_percent :=
    if exit_code usage_result =? 0
    then float_of_str lib (strip (stdout usage_result))
    else None in
  ret (cores, usage_percent).

(** [extract_json_array]: the array decoded at the first [[] from which the
    decoder yields a list. A [JSONDecodeError] of the decoder moves on to
    the next [[]; any other exception of the decoder leaves the function. *)
Fixpoint extract_json_array (t : text) : Result (option (list Json)) :=
  match t with
  | [] => Return None
  | c :: rest =>
      if (c =? 91)%N then
        match raw_decode lib t with
        | Return (JArr items) => Return (Some items)
        | Return _ => extract_json_array rest
        | Raise (JSONDecodeError _) => extract_json_array rest
        | Raise e => Raise e
        end
      else extract_json_array rest
  end.

Definition build_pm2_script (pm2_home : option text) : text :=
  let env_parts :=
    match pm2_home with
    | Some (c :: h) => [py "PM2_HOME=" ++ shlex_quote lib (c :: h)]
    | _ => []
    end in
  let env_prefix := join (py " ") env_parts in
  let bootstrap :=
    py "set -o pipefail; "
    ++ py "[ -f ~/.bashrc ] && . ~/.bashrc >/dev/null 2>&1; "
    ++ py "[ -f ~/.profile ] && . ~/.profile >/dev/null 2>&1; "
    ++ py "[ -s ~/.nvm/nvm.sh ] && . ~/.nvm/nvm.sh >/dev/null 2>&1; " in
  strip (bootstrap ++ env_prefix ++ py " pm2 jlist").

(** [int(v)] for a decoded JSON value. *)
Definition int_of_json (v : Json) : Result Z :=
  match v with
  | JBool b => Return (if b then 1 else 0)
  | JInt z => Return z
  | JFloat x => int_of_float x
  | JStr s => py_int s
  | _ => Raise (TypeError (py "int() argument must be a string, a bytes-like object or a real number"))
  end.

(** [int(memory) if memory is not None else None], under
    [except (TypeError, ValueError)]. *)
Definition mem_bytes_of (memory : Json) : Result (option Z) :=
  match memory with
  | JNull => Return None
  | _ =>
      match int_of_json memory with
      | Return z => Return (Some z)
      | Raise e =>
          match e with
          | TypeError _ => Return None
          | _ => if is_ValueError e then Return None else Raise e
          end
      end
  end.

(** A value for an optional field of a pydantic model. *)
Definition opt_field {A : Type} (f : Json -> option A) (v : Json) : Result (option A) :=
  match v with
  | JNull => Return None
  | _ =>
      match f v with
      | Some a => Return (Some a)
      | None => Raise (ValidationError (py "validation error for Pm2Process"))
      end
  end.

(** [proc.get(key, {}) if isinstance(proc, dict) else {}] *)
Definition sub_dict (proc : Json) (key : text) : Json :=
  match proc with
  | JObj fields => default (JObj []) (dict_get key fields)
  | _ => JObj []
  end.

(** One turn of the [for proc in payload] loop of [fetch_pm2_details]:
    the memory figure and the process record of [proc]. *)
Definition pm2_process (proc : Json) : Result (option Z * Pm2Process) :=
  let pm2_env := sub_dict proc (py "pm2_env") in
  let monit := sub_dict proc (py "monit") in
  let* memory := py_get monit (py "memory") in
  let* mem_bytes := mem_bytes_of memory in
  let* a_id := py_get proc (py "pm_id") in
  let* a_name := py_get proc (py "name") in
  let* a_namespace := py_get pm2_env (py "namespace") in
  let* a_version := py_get pm2_env (py "version") in
  let* a_mode := py_get pm2_env (py "exec_mode") in
  let* a_pid := py_get proc (py "pid") in
  let* a_uptime := py_get pm2_env (py "pm_uptime") in
  let* a_restarts := py_get pm2_env (py "restart_time") in
  let* a_status := py_get pm2_env (py "status") in
  let* a_cpu := py_get monit (py "cpu") in
  let* a_user := py_get pm2_env (py "username") in
  let* a_watching := py_get pm2_env (py "watching") in
  let* f_id := opt_field (field_int lib) a_id in
  let* f_name := opt_field (field_str lib) a_name in
  let* f_namespace := opt_field (field_str lib) a_namespace in
  let* f_version := opt_field (field_str lib) a_version in
  let* f_mode := opt_field (field_str lib) a_mode in
  let* f_pid := opt_field (field_int lib) a_pid in
  let* f_uptime := opt_field (field_int lib) a_uptime in
  let* f_restarts := opt_field (field_int lib) a_restarts in
  let* f_status := opt_field (field_str lib) a_status in
  let* f_cpu := opt_field (field_float lib) a_cpu in
  let* f_user := opt_field (field_str lib) a_user in
  let* f_watching := opt_field (field_bool lib) a_watching in
  Return (mem_bytes,
          {| pm_id := f_id; pm_name := f_name; namespace := f_namespace;
             version := f_version; mode := f_mode; pm_pid := f_pid;
             pm_uptime := f_uptime; restarts := f_restarts; status := f_status;
             cpu_percent := f_cpu; memory_bytes := mem_bytes; pm_user := f_user;
             watching := f_watching |}).

Fixpoint pm2_processes (payload : list Json) (total_bytes : Z) (details : list Pm2Process)
    : Result (Z * list Pm2Process) :=
  match payload with
  | [] => Return (total_bytes, details)
  | proc :: rest =>
      let* (mem_bytes, p) := pm2_process proc in
      pm2_processes rest
        (match mem_bytes with Some b => total_bytes + b | None => total_bytes end)
        (details ++ [p])
  end.

(** The request [fetch_pm2_details] makes for the listing. *)
Definition pm2_request (pm2_user pm2_home sudo_password : option text) : M SshResult :=
  let script := build_pm2_script pm2_home in
  match pm2_user with
  | Some (c :: u) =>
      let pm2_user := c :: u in
      match sudo_password with
      | Some (pc :: pw) => run_sudo_command script (pc :: pw) pm2_user true
      | _ =>
          run_command
            (py "sudo -n -u " ++ shlex_quote lib pm2_user ++ py " -H bash -lc "
             ++ shlex_quote lib script)
            true false
      end
  | _ => run_command (py "bash -lc " ++ shlex_quote lib script) true false
  end.

(** The diagnostic of a listing without a parseable array. *)
Definition pm2_failure_message (result : SshResult) : text :=
  let message := strip (match stderr result with [] => stdout result | e => e end) in
  let message :=
    match message with
    | [] => if negb (exit_code result =? 0)
            then py "pm2 exit code " ++ str_of_int (exit_code result)
            else message
    | _ => message
    end in
  match message with
  | [] => py "pm2 returned no output"
  | _ => message
  end.

Definition fetch_pm2_details (pm2_user pm2_home sudo_password : option text)
    : M (Pm2Info * option text) :=
  let! result := pm2_request pm2_user pm2_home sudo_password in
  let! payload :=
    lift (let* found := extract_json_array (stdout result) in
          match found with
          | Some (p :: ps) => Return (Some (p :: ps))
          | _ => extract_json_array (stderr result)
          end) in
  match payload with
  | None =>
      let message := pm2_failure_message result in
      ret ({| total_memory_bytes := None; processes := None; pm2_details := None;
              pm2_error := Some message |}, Some message)
  | Some payload =>
      let! (total_bytes, details) := lift (pm2_processes payload 0 []) in
      ret ({| total_memory_bytes := Some total_bytes;
              processes := Some (Z.of_nat (length details));
              pm2_details := Some details;
              pm2_error := None |}, None)
  end.

(** One turn of the loop of [parse_supervisor]. *)
Definition supervisor_line (line : text) : Result (bool * SupervisorProcess) :=
  match supervisor_line_match lib line with
  | Some info =>
      let state := g_state info in
      let is_running := bool_decide (state = Some (py "RUNNING")) in
      let* pid :=
        match g_pid info with
        | Some (c :: p) =>
            if isdigit lib (c :: p) then let* n := py_int (c :: p) in Return (Some n)
            else Return None
        | _ => Return None
        end in
      Return (is_running,
              {| sup_name := g_name info; sup_state := state; sup_pid := pid;
                 sup_uptime := g_uptime info; sup_message := g_message info;
                 raw := Some line |})
  | None =>
      Return (false,
              {| sup_name := None; sup_state := None; sup_pid := None;
                 sup_uptime := None; sup_message := None; raw := Some line |})
  end.

Fixpoint supervisor_lines (lines : list text) (total running : Z)
    (details : list SupervisorProcess) : Result SupervisorInfo :=
  match lines with
  | [] => Return {| Models.total := Some total; Models.running := Some running;
                    sup_details := Some details |}
  | line :: rest =>
      let* (is_running, p) := supervisor_line line in
      supervisor_lines rest (total + 1) (if is_running then running + 1 else running)
        (details ++ [p])
  end.

Definition parse_supervisor (lines : list text) : Result SupervisorInfo :=
  match lines with
  | [] => Return {| Models.total := None; Models.running := None; sup_details := None |}
  | _ => supervisor_lines lines 0 0 []
  end.

(** [[line.strip() for line in text.splitlines() if line.strip()]] *)
Definition stripped_lines (t : text) : list text :=
  List.filter (fun l => negb (Nat.eqb (length l) 0)) (List.map strip (splitlines t)).

(** The text [fetch_supervisor] searches for a permission problem. *)
Definition supervisor_joined (result : SshResult) : text :=
  lower (join [LF] (stripped_lines (stdout result) ++ [strip (stderr result)])).

Definition permission_denied (joined : text) : bool :=
  contains (py "permission denied") joined.

Definition supervisor_status : text :=
  py "command -v supervisorctl >/dev/null 2>&1 && supervisorctl status || true".

Definition fetch_supervisor (sudo_password : option text) (ssh_user : text)
    : M SupervisorInfo :=
  let! result := run_command supervisor_status false true in
  let lines := stripped_lines (stdout result) in
  let joined := supervisor_joined result in
  match sudo_password with
  | Some (c :: pw) =>
      if (permission_denied joined || contains (py "error:") joined)
         && negb (text_eqb ssh_user (py "root"))
      then
        let! result := run_sudo_command (py "supervisorctl status || true") (c :: pw)
                    (py "root") true in
        lift (parse_supervisor (stripped_lines (stdout result)))
      else lift (parse_supervisor lines)
  | _ => lift (parse_supervisor lines)
  end.

Definition build_error_stats (server : Server) (message : text) : HostStats :=
  HostStats_init {|
    kw_server_id := id server;
    kw_server_name := name server;
    kw_host := host server;
    kw_user := user server;
    kw_port := port server;
    kw_tags := tags server;
    kw_error := Some message;
    kw_cpu := {| cores := None; usage_percent := None; usage_human := py "n/a" |};
    kw_memory := {| mem_total_bytes := None; mem_used_bytes := None;
                    mem_total_human := py "n/a"; mem_used_human := py "n/a" |};
    kw_uptime := {| seconds := None; human := py "n/a" |};
    kw_disk := {| mount := py "/"; disk_total_bytes := None; disk_used_bytes := None;
                  disk_total_human := py "n/a"; disk_used_human := py "n/a" |};
    kw_pm2 := {| total_memory_bytes := None; processes := None; pm2_details := None;
                 pm2_error := Some message |};
    kw_supervisor := SupervisorInfo_default;
  |}.

(** [server.password if server.user != "root" else None] *)
Definition escalation_password (server : Server) : option text :=
  if negb (text_eqb (user server) (py "root")) then password server else None.

(** [server.pm2_home or "/root/.pm2"] *)
Definition fallback_home (server : Server) : option text :=
  match pm2_home server with
  | Some (c :: h) => Some (c :: h)
  | _ => Some (py "/root/.pm2")
  end.

(** The process-manager part of [collect_stats]: the first listing and,
    when it reports an error, the fallback as root. *)
Definition collect_pm2 (server : Server) : M Pm2Info :=
  let! (pm2_info, _) := fetch_pm2_details (pm2_user server) (pm2_home server)
                      (escalation_password server) in
  if truthy (pm2_error pm2_info) && truthy (password server)
     && negb (text_eqb (user server) (py "root"))
  then
    let! (pm2_info, _) := fetch_pm2_details (Some (py "root")) (fallback_home server)
                            (password server) in
    ret pm2_info
  else ret pm2_info.

Definition collect_stats (server : Server) : M HostStats :=
  let! (cpu_cores, cpu_usage) := fetch_cpu in
  let! (mem_total, mem_used) := fetch_memory in
  let! uptime_seconds := fetch_uptime in
  let! (disk_total, disk_used) := fetch_disk in
  let! pm2_info := collect_pm2 server in
  let! supervisor_info := fetch_supervisor (escalation_password server) (user server) in
  let! mem_total_h := lift (format_bytes lib mem_total) in
  let! mem_used_h := lift (format_bytes lib mem_used) in
  let! uptime_h := lift (format_seconds uptime_seconds) in
  let! disk_total_h := lift (format_bytes lib disk_total) in
  let! disk_used_h := lift (format_bytes lib disk_used) in
  ret (HostStats_init {|
    kw_server_id := id server;
    kw_server_name := name server;
    kw_host := host server;
    kw_user := user server;
    kw_port := port server;
    kw_tags := tags server;
    kw_error := None;
    kw_cpu := {| cores := cpu_cores; usage_percent := cpu_usage;
                 usage_human := match cpu_usage with
                                | None => py "n/a"
                                | Some u => format_2f lib u ++ py "%"
                                end |};
    kw_memory := {| mem_total_bytes := mem_total; mem_used_bytes := mem_used;
                    mem_total_human := mem_total_h; mem_used_human := mem_used_h |};
    kw_uptime := {| seconds := uptime_seconds; human := uptime_h |};
    kw_disk := {| mount := py "/"; disk_total_bytes := disk_total;
                  disk_used_bytes := disk_used;
                  disk_total_human := disk_total_h; disk_used_human := disk_used_h |};
    kw_pm2 := pm2_info;
    kw_supervisor := supervisor_info;
  |}).

End Probes.

End Ssh.

(** ** The session pool (app/infra/ssh_pool.py) *)

Module Pool.
Import Servers Models Ssh.

(** An [SSHClient] object, by identity. *)
Definition Client : Type := nat.

Record _Entry : Type := {
  client : option Client;
  last_error : option text;
}.

Definition new_entry : _Entry := {| client := None; last_error := None |}.

(** What lies outside the pool: the library, the outcome of the n-th
    connection attempt ([None]: the connection is made), whether the
    transport of a client reports active, and the session behind a client. *)
Record World : Type := {
  lib : PyLib;
  connect_failure : nat -> Server -> option Exn;
  transport_active : Client -> bool;
  session_of : Client -> Session;
}.

(** The pool, with two histories kept beside its fields: the connection
    attempts made and the clients closed, oldest first. *)
Record SSHClientPool : Type := {
  _entries : gmap text _Entry;
  _servers : gmap text Server;
  _monitor_started : bool;
  connects : list Server;
  closed : list Client;
}.

Definition empty_pool : SSHClientPool :=
  {| _entries := ∅; _servers := ∅; _monitor_started := false; connects := []; closed := [] |}.

Definition with_entries (f : gmap text _Entry -> gmap text _Entry) (p : SSHClientPool)
    : SSHClientPool :=
  {| _entries := f (_entries p); _servers := _servers p;
     _monitor_started := _monitor_started p; connects := connects p; closed := closed p |}.

(** The entry of a server, read through the dict. *)
Definition entry_of (p : SSHClientPool) (server_id : text) : _Entry :=
  default new_entry (_entries p !! server_id).

Definition set_entry (server_id : text) (e : _Entry) (p : SSHClientPool) : SSHClientPool :=
  with_entries (fun m => <[server_id := e]> m) p.

(** [client.close()] *)
Definition close (c : Client) (p : SSHClientPool) : SSHClientPool :=
  {| _entries := _entries p; _servers := _servers p;
     _monitor_started := _monitor_started p; connects := connects p;
     closed := closed p ++ [c] |}.

Definition _get_entry (p : SSHClientPool) (server_id : text) : SSHClientPool :=
  match _entries p !! server_id with
  | Some _ => p
  | None => set_entry server_id new_entry p
  end.

(** [_connect]: one connection attempt; a client made by the n-th attempt
    is the client [n]. *)
Definition _connect (w : World) (server : Server) (p : SSHClientPool)
    : Result Client * SSHClientPool :=
  let n := length (connects p) in
  let p' := {| _entries := _entries p; _servers := _servers p;
               _monitor_started := _monitor_started p;
               connects := connects p ++ [server]; closed := closed p |} in
  match connect_failure w n server with
  | Some e => (Raise e, p')
  | None => (Return n, p')
  end.

Definition _is_active (w : World) (c : Client) : bool := transport_active w c.

(** [_ensure_connected_locked(server, entry)], [entry] being the entry of
    [server.id]. *)
Definition _ensure_connected_locked (w : World) (server : Server) (p : SSHClientPool)
    : Result Client * SSHClientPool :=
  let entry := entry_of p (id server) in
  match client entry with
  | Some c =>
      if _is_active w c then (Return c, p)
      else
        let p := close c p in
        let p := set_entry (id server) {| client := None; last_error := last_error entry |} p in
        match _connect w server p with
        | (Raise e, p) => (Raise e, p)
        | (Return c', p) =>
            (Return c', set_entry (id server) {| client := Some c'; last_error := None |} p)
        end
  | None =>
      match _connect w server p with
      | (Raise e, p) => (Raise e, p)
      | (Return c', p) =>
          (Return c', set_entry (id server) {| client := Some c'; last_error := None |} p)
      end
  end.

Definition ensure_connected (w : World) (server : Server) (p : SSHClientPool)
    : Result Client * SSHClientPool :=
  _ensure_connected_locked w server (_get_entry p (id server)).

(** The parameters of [collect_stats] in ssh.py. *)
Definition collect_stats_params : list text := [py "client"; py "server"].

(** The call [collect_stats(client, server, **keywords)]: a keyword that
    names no parameter makes the call raise before the body runs. *)
Definition call_collect_stats (w : World) (keywords : list (text * Json))
    (c : Client) (server : Server) : Result HostStats :=
  match List.find (fun '(k, _) => negb (existsb (text_eqb k) collect_stats_params))
                  keywords with
  | Some (k, _) =>
      Raise (TypeError (py "collect_stats() got an unexpected keyword argument '"
                        ++ k ++ py "'"))
  | None => fst (collect_stats (lib w) (session_of w c) server [])
  end.

(** The [try] block of [collect], for a collector [call]. *)
Definition try_block (w : World) (call : Client -> Server -> Result HostStats)
    (server : Server) (p : SSHClientPool) : Result HostStats * SSHClientPool :=
  match _ensure_connected_locked w server p with
  | (Raise e, p) => (Raise e, p)
  | (Return c, p) => (call c server, p)
  end.

(** The [except Exception as exc] block of [collect]. *)
Definition on_exception (server : Server) (exc : Exn) (p : SSHClientPool)
    : Result HostStats * SSHClientPool :=
  let entry := entry_of p (id server) in
  let p := set_entry (id server)
             {| client := client entry; last_error := Some (exn_message exc) |} p in
  let p :=
    match client entry with
    | Some c =>
        set_entry (id server) {| client := None; last_error := Some (exn_message exc) |}
          (close c p)
    | None => p
    end in
  (Return (build_error_stats server (exn_message exc)), p).

(** [collect] with the collector it calls as a parameter. *)
Definition collect_with (w : World) (call : Client -> Server -> Result HostStats)
    (server : Server) (p : SSHClientPool) : Result HostStats * SSHClientPool :=
  let p := _get_entry p (id server) in
  match try_block w call server p with
  | (Return stats, p) => (Return stats, p)
  | (Raise exc, p) => on_exception server exc p
  end.

(** [SSHClientPool.collect(server, detail=detail)], which calls
    [collect_stats(client, server, detail=detail)]. *)
Definition collect (w : World) (server : Server) (detail : text) (p : SSHClientPool)
    : Result HostStats * SSHClientPool :=
  collect_with w (call_collect_stats w [(py "detail", JStr detail)]) server p.

(** The cached client of a server. *)
Definition cached_client (p : SSHClientPool) (server_id : text) : option Client :=
  client (entry_of p server_id).

End Pool.

(** ** Propositions used in the statements *)

(** [p] occurs in [s] as a contiguous run. *)
Definition infix_of (p s : text) : Prop := exists pre post, s = pre ++ p ++ post.

(** A text whose only line terminator is the line feed. *)
Definition lf_only (s : text) : Prop :=
  forall c, In c s -> is_linebreak c = true -> c = LF.

(** The field of a dumped model. *)
Definition json_get (k : text) (v : Json) : option Json :=
  match v with
  | JObj fields => dict_get k fields
  | _ => None
  end.

(** A decoded JSON value that is a [dict]. *)
Definition is_dict (v : Json) : bool :=
  match v with
  | JObj _ => true
  | _ => false
  end.

(** The first exec of [fetch_supervisor] and what it yields on a session
    that has served the execs of [log]. *)
Definition supervisor_exec (lib : PyLib) : Ssh.Exec :=
  {| Ssh.command := py "bash -lc " ++ shlex_quote lib Ssh.supervisor_status;
     Ssh.get_pty := false; Ssh.stdin := None |}.

Definition supervisor_first (lib : PyLib) (sess : Ssh.Session) (log : Ssh.Log)
    : Ssh.SshResult :=
  Ssh.result_of_reply (sess (length log) (supervisor_exec lib)) None.

(** The escalated execs a retry adds: one, built from the password, when
    the server has a non-empty password and its login user is not root;
    none otherwise. *)
Definition retry_execs (server : Servers.Server) (escalated : text -> Ssh.Exec)
    : list Ssh.Exec :=
  match Servers.password server with
  | Some (c :: pw) =>
      if negb (text_eqb (Servers.user server) (py "root")) then [escalated (c :: pw)] else []
  | _ => []
  end.

(** ** Sample inputs *)

Module Samples.
Import Servers Hub Ssh Pool.

Definition sample_server : Server := {|
  id := py "srv-1"; name := Some (py "alpha"); host := py "10.0.0.1"; port := 22;
  user := py "root"; password := None; key_path := None;
  pm2_user := None; pm2_home := None; tags := []; enabled := true;
|}.

Definition sample_server_b : Server := {|
  id := py "srv-2"; name := None; host := py "10.0.0.2"; port := 22;
  user := py "deploy"; password := Some (py "hunter2"); key_path := None;
  pm2_user := None; pm2_home := None; tags := [py "web"]; enabled := true;
|}.

Definition sample_sub : Subscription := {| interval_s := 10; detail := Summary |}.

Definition sample_cache_full : CacheEntry :=
  {| payload := JNull; fetched_at := 0; cache_detail := Full |}.

(** A library that decodes the one array [[1]] and nothing else. *)
Definition sample_lib : PyLib := {|
  int_of_str := fun _ => None;
  float_of_str := fun _ => None;
  isdigit := fun s => negb (Nat.eqb (length s) 0)
                      && forallb (fun c => (48 <=? c) && (c <=? 57))%N s;
  raw_decode := fun t => if text_eqb t (py "[1]") then Return (JArr [JInt 1])
                         else Raise (JSONDecodeError (py "Expecting value"));
  format_2f := fun _ => py "0.00";
  shlex_quote := fun s => py "'" ++ s ++ py "'";
  supervisor_line_match := fun _ => None;
  field_int := fun v => match v with JInt z => Some z | _ => None end;
  field_str := fun v => match v with JStr s => Some s | _ => None end;
  field_float := fun v => match v with JFloat x => Some x | _ => None end;
  field_bool := fun v => match v with JBool b => Some b | _ => None end;
|}.

(** A host on which every probe fails except the process listing, which
    prints the array [[1]]: the listing is the sixth exec of a pass. *)
Definition numbers_session : Session :=
  fun n _ => if Nat.eqb n 5 then Exited 0 (py "[1]") [] else Exited 1 [] [].

(** A host that answers every exec with a permission error. *)
Definition denied_session : Session :=
  fun _ _ => Exited 1 [] (py "Permission denied").

(** A world in which every connection is made and every transport stays
    active. *)
Definition healthy_world : World := {|
  lib := sample_lib;
  connect_failure := fun _ _ => None;
  transport_active := fun _ => true;
  session_of := fun _ => numbers_session;
|}.

End Samples.
Import Samples.

(** ** Subscriptions and delivery (app/realtime/hub.py) *)

Module HubOps.
Import Hub.

(** The hub with its set of accepted sockets. *)
Record HubState : Type := {
  core : RealtimeHub;
  _connections : gset WebSocket;
}.

Definition set_subs (subs : gmap text (gmap WebSocket Subscription)) (h : RealtimeHub)
    : RealtimeHub :=
  {| _server_subs := subs; _cache := _cache h; _in_flight := _in_flight h |}.

(** The subscription of a socket to a server, if any. *)
Definition subscription (h : RealtimeHub) (server_id : text) (ws : WebSocket)
    : option Subscription :=
  _server_subs h !! server_id ≫= (fun subs => subs !! ws).

(** [connect], once the socket is accepted. *)
Definition connect (s : HubState) (ws : WebSocket) : HubState :=
  {| core := core s; _connections := {[ws]} ∪ _connections s |}.

(** [_subscribe_server]: the hub afterwards and the cached payload sent to
    the socket at once, if any. *)
Definition _subscribe_server (h : RealtimeHub) (ws : WebSocket) (server_id : text)
    (interval : Q) (d : Detail) : RealtimeHub * option Json :=
  let subs := default ∅ (_server_subs h !! server_id) in
  let subs := <[ws := {| interval_s := interval; detail := d |}]> subs in
  let h' := set_subs (<[server_id := subs]> (_server_subs h)) h in
  (h', match _cache h !! server_id with
       | Some cache => if detail_eqb (cache_detail cache) d then Some (payload cache) else None
       | None => None
       end).

Definition _unsubscribe_server (h : RealtimeHub) (ws : WebSocket) (server_id : text)
    : RealtimeHub :=
  match _server_subs h !! server_id with
  | None => h
  | Some subs =>
      let subs := delete ws subs in
      if bool_decide (subs = ∅) then set_subs (delete server_id (_server_subs h)) h
      else set_subs (<[server_id := subs]> (_server_subs h)) h
  end.

(** [disconnect] on the subscriptions: the socket is popped from every
    server and the servers left without a subscriber are dropped. *)
Definition drop_socket (ws : WebSocket) (h : RealtimeHub) : RealtimeHub :=
  set_subs (filter (fun kv => kv.2 ≠ ∅) (delete ws <$> _server_subs h)) h.

Definition disconnect (s : HubState) (ws : WebSocket) : HubState :=
  {| core := drop_socket ws (core s); _connections := _connections s ∖ {[ws]} |}.

(** [_broadcast]: the sockets a send was attempted to, and the state once
    those whose send failed are disconnected. [send_ok] tells whether
    [_safe_send] to a socket succeeds. The order in which the subscribers
    of a dict are walked is left open. *)
Definition _broadcast (send_ok : WebSocket -> bool) (s : HubState) (server_id : text)
    : HubState * list WebSocket :=
  let targets := (map_to_list (default ∅ (_server_subs (core s) !! server_id))).*1 in
  let failures := List.filter (fun ws => negb (send_ok ws)) targets in
  (fold_left disconnect failures s, targets).





(** No server is kept with an empty set of subscribers. *)
Definition no_empty_subs (h : RealtimeHub) : Prop :=
  forall server_id subs, _server_subs h !! server_id = Some subs -> subs ≠ ∅.

End HubOps.

(** ** Registration and the health sweep (app/infra/ssh_pool.py) *)

Module PoolOps.
Import Servers Pool.

Definition with_servers (f : gmap text Server -> gmap text Server) (p : SSHClientPool)
    : SSHClientPool :=
  {| _entries := _entries p; _servers := f (_servers p);
     _monitor_started := _monitor_started p; connects := connects p; closed := closed p |}.

Definition register_servers (servers : list Server) (p : SSHClientPool) : SSHClientPool :=
  fold_left (fun p server => with_servers (fun m => <[id server := server]> m) p) servers p.

(** [_start_monitor]: the pool afterwards and whether a monitor thread is
    started by this call. *)
Definition _start_monitor (p : SSHClientPool) : SSHClientPool * bool :=
  if _monitor_started p then (p, false)
  else ({| _entries := _entries p; _servers := _servers p; _monitor_started := true;
           connects := connects p; closed := closed p |}, true).

(** One turn of the [while True] loop of [_monitor_loop], up to the sleep:
    [ensure_connected] for each registered server, an exception of one
    leaving the others to be tried. *)
Definition monitor_sweep (w : World) (p : SSHClientPool) : SSHClientPool :=
  fold_left (fun p server => snd (ensure_connected w server p))
            (map_to_list (_servers p)).*2 p.

(** Every server is registered under its own id. *)
Definition servers_keyed (p : SSHClientPool) : Prop :=
  forall k server, _servers p !! k = Some server -> id server = k.

(** The clients of the pool are in order: a cached client was made by a
    connection attempt and has not been closed, no client is cached for
    two servers, and no client has been closed twice. *)
Definition pool_ok (p : SSHClientPool) : Prop :=
  (forall sid c, cached_client p sid = Some c ->
                 (c < length (connects p))%nat /\ ~ In c (closed p)) /\
  (forall c, In c (closed p) -> (c < length (connects p))%nat) /\
  (forall s1 s2 c, cached_client p s1 = Some c -> cached_client p s2 = Some c -> s1 = s2) /\
  List.NoDup (closed p).

End PoolOps.

(** ** One-shot collection and key provisioning (app/infra/ssh.py) *)

Module SshOps.
Import Servers Models Ssh.

(** [RuntimeError], which the exception type carries as [OtherError]. *)
Definition RuntimeError (msg : text) : Exn := OtherError msg.

Section KeyInstall.
Variable lib : PyLib.
Variable sess : Session.
(** [base64.b64encode(s.encode("utf-8")).decode("ascii")] *)
Variable b64encode : text -> text.

(** [read_public_key]: [file] is the text of the file, [None] when there
    is none; [path] is the path as printed. *)
Definition read_public_key (path : text) (file : option text) : Result text :=
  match file with
  | None => Raise (RuntimeError (py "Public key not found: " ++ path))
  | Some content =>
      match strip content with
      | [] => Raise (RuntimeError (py "Public key is empty: " ++ path))
      | key_text => Return key_text
      end
  end.

Definition install_script (key_text : text) : text :=
  py "umask 077; "
  ++ py "mkdir -p /root/.ssh; "
  ++ py "touch /root/.ssh/authorized_keys; "
  ++ py "key=$(printf '%s' " ++ shlex_quote lib (b64encode key_text) ++ py " | base64 -d); "
  ++ py "grep -qxF " ++ dq (py "$key") ++ py " /root/.ssh/authorized_keys || "
  ++ py "printf '%s\n' " ++ dq (py "$key") ++ py " >> /root/.ssh/authorized_keys; "
  ++ py "grep -qxF " ++ dq (py "$key") ++ py " /root/.ssh/authorized_keys".

(** The message of a failed install. *)
Definition install_failure_message (result : SshResult) : text :=
  match strip (match stderr result with [] => stdout result | e => e end) with
  | [] => py "Failed to install root key"
  | message => message
  end.

Definition install_root_key (key_text ssh_user : text) (password : option text) : M unit :=
  let script := install_script key_text in
  let! result :=
    if text_eqb ssh_user (py "root") then run_command lib sess script false true
    else
      match password with
      | Some (c :: pw) => run_sudo_command lib sess script (c :: pw) (py "root") true
      | _ => throw (RuntimeError (py "Password required to sudo to root for key install."))
      end in
  if negb (exit_code result =? 0) then throw (RuntimeError (install_failure_message result))
  else ret tt.

(** [provision_root_access]: [connect_failure] is what [client.connect]
    raises, if anything; the client is closed on every path. *)
Definition provision_root_access (connect_failure : option Exn) (server : Server)
    (path : text) (file : option text) : M unit :=
  match connect_failure with
  | Some e => throw e
  | None =>
      let! key_text := lift (read_public_key path file) in
      install_root_key key_text (user server) (password server)
  end.

(** [gather_stats]: a pass on a connection of its own. *)
Definition gather_stats (connect_failure : option Exn) (server : Server)
    : Result HostStats :=
  let attempt :=
    match connect_failure with
    | Some e => Raise e
    | None => fst (collect_stats lib sess server [])
    end in
  match attempt with
  | Return stats => Return stats
  | Raise exc => Return (build_error_stats server (exn_message exc))
  end.

End KeyInstall.

(** The decoder, started at [s], makes the loop of [extract_json_array] go
    on to the next bracket: it raises [JSONDecodeError], or what it yields
    is not a list. *)
Definition passed_over (lib : PyLib) (s : text) : Prop :=
  (exists m, raw_decode lib s = Raise (JSONDecodeError m)) \/
  (exists v, raw_decode lib s = Return v /\ forall items, v <> JArr items).

(** A figure read off /proc/meminfo: absent, or a whole number of KiB. *)
Definition kib_figure (o : option Z) : Prop :=
  o = None \/ exists n, o = Some (n * 1024).

(** [IndexError] or [ValueError]. *)
Definition lookup_error (e : Exn) : Prop :=
  (exists m, e = IndexError m) \/ (exists m, e = ValueError m).

(** A supervisor record whose state is the running marker. *)
Definition is_running (p : SupervisorProcess) : bool :=
  bool_decide (sup_state p = Some (py "RUNNING")).

(** A byte count divided by 1024 [j] times over, as [format_bytes] does. *)
Definition scaled (v : Z) (j : nat) : Q :=
  Nat.iter j (fun q => (q / 1024)%Q) (inject_Z v).

(** The sum of the memory figures that are present. *)
Definition memory_sum (details : list Pm2Process) : Z :=
  fold_right (fun p acc => match memory_bytes p with Some b => b + acc | None => acc end)
             0 details.

End SshOps.

(** ** Registry lookups, bulk collection, form tags and the watcher key *)

Module Services.
Import Servers Models Pool.

(** [ServerRepository.get_by_id] *)
Definition get_by_id (file : RegistryFile) (server_id : text) : Result (option Server) :=
  let* servers := _load file in
  Return (List.find (fun server => text_eqb (id server) server_id) servers).

(** The triple [add] compares. *)
Definition endpoint (server : Server) : text * Z * text :=
  (host server, port server, user server).

(** [StatsService.collect]: the registry is read, the disabled servers are
    left out unless asked for, and [pool.collect] is called for each
    server through an executor of [min(MAX_WORKERS, len(servers))]
    workers, the results coming back in the order of the servers. The
    calls are taken one after the other. *)
Fixpoint collect_each (w : World) (servers : list Server) (p : SSHClientPool)
    : Result (list HostStats) * SSHClientPool :=
  match servers with
  | [] => (Return [], p)
  | server :: rest =>
      match collect w server (py "full") p with
      | (Raise e, p) => (Raise e, p)
      | (Return stats, p) =>
          match collect_each w rest p with
          | (Raise e, p) => (Raise e, p)
          | (Return more, p) => (Return (stats :: more), p)
          end
      end
  end.

Definition selected (include_disabled : bool) (servers : list Server) : list Server :=
  if include_disabled then servers else List.filter enabled servers.

Definition stats_collect (w : World) (max_workers : Z) (include_disabled : bool)
    (file : RegistryFile) (p : SSHClientPool) : Result (list HostStats) * SSHClientPool :=
  match list_servers file with
  | Raise e => (Raise e, p)
  | Return servers =>
      match selected include_disabled servers with
      | [] => (Return [], p)
      | chosen =>
          if Z.min max_workers (Z.of_nat (length chosen)) <=? 0
          then (Raise (ValueError (py "max_workers must be greater than 0")), p)
          else collect_each w chosen p
      end
  end.

(** [s.split(sep)] for a separator of one character. *)
Fixpoint split_on (sep : char) (s : text) : list text :=
  match s with
  | [] => [[]]
  | c :: rest =>
      if (c =? sep)%N then [] :: split_on sep rest
      else match split_on sep rest with
           | piece :: pieces => (c :: piece) :: pieces
           | [] => [[c]]
           end
  end.

(** The tags of the add-server form: the comma-separated field, each item
    stripped, the empty ones left out. *)
Definition parse_tags (tags : option text) : list text :=
  let tags_list :=
    match tags with
    | Some (c :: t) => List.map strip (split_on 44%N (c :: t))
    | _ => []
    end in
  List.filter (fun tag => negb (Nat.eqb (length tag) 0)) tags_list.

(** The first character of a text, and of its reverse, is no whitespace. *)
Definition no_leading_space (s : text) : Prop :=
  match s with
  | c :: _ => is_space c = false
  | [] => True
  end.

(** The two key files of the watcher. *)
Record KeyFiles : Type := {
  private_key : option text;
  public_key : option text;
}.

(** The two [ssh-keygen] command lines of [ensure_watcher_keypair]:
    [-y -f <private>] and [-t ed25519 -f <private> -N "" -C ...]. *)
Inductive KeygenCmd : Type :=
  | DerivePublic
  | GenerateKeypair.

(** What [subprocess.run] gives back. *)
Record Completed : Type := {
  returncode : Z;
  proc_stdout : text;
  proc_stderr : text;
}.

(** The message of a failed [ssh-keygen]. *)
Definition keygen_failure (result : Completed) (fallback : text) : Exn :=
  match strip (match proc_stderr result with [] => proc_stdout result | e => e end) with
  | [] => OtherError fallback
  | message => OtherError message
  end.

(** What lies outside [ensure_watcher_keypair]: what [key_dir.mkdir]
    raises, if anything; [subprocess.run], which raises when the tool
    cannot be started and otherwise gives the completed process, together
    with the files the tool leaves behind; and what
    [public_key.write_text] raises, if anything, with what it leaves of
    the public key file. The two [exists] tests are taken to answer. *)
Record KeyEnv : Type := {
  mkdir_failure : option Exn;
  run : KeygenCmd -> KeyFiles -> Result Completed * KeyFiles;
  write_failure : option (Exn * option text);
}.

Definition exists_ (file : option text) : bool :=
  match file with
  | Some _ => true
  | None => false
  end.

(** The fallback message of each command. *)
Definition keygen_fallback (cmd : KeygenCmd) : text :=
  match cmd with
  | DerivePublic => py "Failed to derive watcher public key"
  | GenerateKeypair => py "Failed to generate watcher keypair"
  end.

(** [ensure_watcher_keypair]: the outcome, the files afterwards and the
    commands run. *)
Definition ensure_watcher_keypair (env : KeyEnv) (files : KeyFiles)
    : Result unit * KeyFiles * list KeygenCmd :=
  if exists_ (public_key files) && exists_ (private_key files) then (Return tt, files, [])
  else
    match mkdir_failure env with
    | Some e => (Raise e, files, [])
    | None =>
        if exists_ (private_key files) && negb (exists_ (public_key files)) then
          match run env DerivePublic files with
          | (Raise e, files) => (Raise e, files, [DerivePublic])
          | (Return result, files) =>
              if negb (returncode result =? 0)
              then (Raise (keygen_failure result (keygen_fallback DerivePublic)),
                    files, [DerivePublic])
              else
                match write_failure env with
                | Some (e, remains) =>
                    (Raise e,
                     {| private_key := private_key files; public_key := remains |},
                     [DerivePublic])
                | None =>
                    (Return tt,
                     {| private_key := private_key files;
                        public_key := Some (strip (proc_stdout result) ++ [LF]) |},
                     [DerivePublic])
                end
          end
        else
          match run env GenerateKeypair files with
          | (Raise e, files) => (Raise e, files, [GenerateKeypair])
          | (Return result, files) =>
              if negb (returncode result =? 0)
              then (Raise (keygen_failure result (keygen_fallback GenerateKeypair)),
                    files, [GenerateKeypair])
              else (Return tt, files, [GenerateKeypair])
          end
    end.

End Services.

(** ** Further sample inputs *)

Module MoreSamples.
Import Servers Hub HubOps Ssh Pool PoolOps SshOps Services.

(** A hub with one subscriber, socket 1 at summary, to server srv-1, whose
    cache entry holds full. *)
Definition sample_hub : RealtimeHub := {|
  _server_subs := {[ py "srv-1" := {[ 1%nat := sample_sub ]} ]};
  _cache := {[ py "srv-1" := sample_cache_full ]};
  _in_flight := ∅;
|}.

Definition sample_state : HubState :=
  {| core := sample_hub; _connections := {[ 1%nat ]} |}.



(** A world in which no connection can be made. *)
Definition unreachable_world : World := {|
  lib := sample_lib;
  connect_failure := fun _ _ => Some (OtherError (py "connection refused"));
  transport_active := fun _ => true;
  session_of := fun _ => denied_session;
|}.

(** A host on which the directory can be made and written to, and whose
    [ssh-keygen] prints a key and leaves the files as they are. *)
Definition sample_keygen : KeyEnv := {|
  mkdir_failure := None;
  run := fun _ files =>
    (Return {| returncode := 0; proc_stdout := py "ssh-ed25519 AAAA watcher" ++ [LF];
               proc_stderr := [] |}, files);
  write_failure := None;
|}.

(** A host on which every command exits with status 0 and prints
    nothing. *)
Definition quiet_session : Session := fun _ _ => Exited 0 [] [].

Definition private_only : KeyFiles :=
  {| private_key := Some (py "PRIVATE"); public_key := None |}.

End MoreSamples.
Import MoreSamples.
(** ** Properties of the text functions *)

Section TextFacts.
Import Redact.

Lemma splitlines_nil_inv (s : text) : splitlines s = [] -> s = [].
Proof.
  destruct s as [|c rest]; [reflexivity|]. simpl.
  destruct (is_linebreak c); [discriminate|].
  destruct (splitlines rest); discriminate.
Qed.

(** [fold_left] over the loop body is a filter followed by a map. *)
Lemma redact_fold (secret : text) (lines acc : list text) :
  fold_left (redact_step secret) lines acc =
  acc ++ List.map (replace secret marker)
           (List.filter (fun l => negb (text_eqb (strip l) secret)) lines).
Proof.
  revert acc. induction lines as [|l ls IH]; intros acc; simpl.
  - now rewrite app_nil_r.
  - rewrite IH. unfold redact_step.
    destruct (text_eqb (strip l) secret); simpl; [reflexivity|].
    now rewrite <- app_assoc.
Qed.

Lemma startswith_spec (p s : text) :
  startswith p s = true <-> exists post, s = p ++ post.
Proof.
  revert s. induction p as [|a p IH]; intros s; simpl.
  - split; [intros _; now exists s | reflexivity].
  - destruct s as [|b s].
    + split; [discriminate | intros [post H]; discriminate].
    + rewrite andb_true_iff, N.eqb_eq, IH. split.
      * intros [-> [post ->]]. now exists post.
      * intros [post H]. injection H as -> ->. split; [reflexivity | now exists post].
Qed.

Lemma contains_spec (p s : text) : contains p s = true <-> infix_of p s.
Proof.
  induction s as [|c s IH]; simpl.
  - rewrite orb_false_r, startswith_spec. split.
    + intros [post H]. now exists [], post.
    + intros [pre [post H]]. destruct pre; simpl in H.
      * now exists post.
      * discriminate.
  - rewrite orb_true_iff, startswith_spec, IH. split.
    + intros [[post H] | [pre [post H]]].
      * now exists [], post.
      * exists (c :: pre), post. simpl. now rewrite H.
    + intros [pre [post H]]. destruct pre as [|c' pre]; simpl in H.
      * left. now exists post.
      * right. injection H as _ ->. now exists pre, post.
Qed.

Lemma infix_of_trans (a b c : text) : infix_of a b -> infix_of b c -> infix_of a c.
Proof.
  intros [p1 [q1 ->]] [p2 [q2 ->]].
  exists (p2 ++ p1), (q1 ++ q2). now rewrite <- !app_assoc.
Qed.

Lemma lstrip_suffix (s : text) : exists pre, s = pre ++ lstrip s.
Proof.
  induction s as [|c s [pre IH]]; simpl.
  - now exists [].
  - destruct (is_space c).
    + exists (c :: pre). simpl. now rewrite <- IH.
    + now exists [].
Qed.

Lemma strip_infix (s : text) : infix_of (strip s) s.
Proof.
  unfold strip, rstrip.
  destruct (lstrip_suffix s) as [pre Hpre].
  destruct (lstrip_suffix (rev (lstrip s))) as [pre' Hpre'].
  exists pre, (rev pre').
  rewrite <- rev_app_distr, <- Hpre', rev_involutive. exact Hpre.
Qed.

(** The first line of [splitlines s] is a prefix of [s], and every line
    occurs in [s]. *)
Lemma splitlines_lines (s : text) :
  (forall l0 ls, splitlines s = l0 :: ls -> exists post, s = l0 ++ post) /\
  (forall l, In l (splitlines s) -> infix_of l s).
Proof.
  remember (length s) as n eqn:Hn. revert s Hn.
  induction n as [n IH] using lt_wf_ind. intros s Hn.
  destruct s as [|c rest]; [split; [discriminate | intros l []]|].
  simpl in Hn. simpl splitlines.
  destruct (is_linebreak c).
  - split.
    + intros l0 ls E. injection E as <- _. now exists (c :: rest).
    + intros l [<- | Hin]; [now exists [], (c :: rest)|].
      destruct rest as [|c' rest']; [destruct Hin|].
      destruct ((c =? CR) && (c' =? LF))%N.
      * destruct (IH (length rest') ltac:(simpl in Hn; lia) rest' eq_refl) as [_ H].
        destruct (H l Hin) as [pre [post ->]].
        now exists (c :: c' :: pre), post.
      * destruct (IH (length (c' :: rest')) ltac:(lia) (c' :: rest') eq_refl) as [_ H].
        destruct (H l Hin) as [pre [post E]].
        exists (c :: pre), post. simpl. now rewrite E.
  - destruct (IH (length rest) ltac:(lia) rest eq_refl) as [Hpre Hin].
    destruct (splitlines rest) as [|l0 ls] eqn:E.
    + apply splitlines_nil_inv in E. subst rest. split.
      * intros l1 ls1 E1. injection E1 as <- _. now exists [].
      * intros l [<- | []]. now exists [], [].
    + destruct (Hpre l0 ls eq_refl) as [post Hpost]. split.
      * intros l1 ls1 E1. injection E1 as <- _. exists post. simpl. now rewrite <- Hpost.
      * intros l [<- | Hl].
        -- exists [], post. simpl. now rewrite <- Hpost.
        -- destruct (Hin l (or_intror Hl)) as [pre [post' E']].
           exists (c :: pre), post'. simpl. now rewrite <- E'.
Qed.

(** Replacing a string that does not occur changes nothing. *)
Lemma replace_from_absent (old new s : text) :
  contains old s = false -> replace_from old new 0 s = s.
Proof.
  induction s as [|c s IH]; [reflexivity|].
  intros H. simpl in H. apply orb_false_iff in H as [H1 H2].
  cbn [replace_from]. rewrite H1. now rewrite IH.
Qed.

Lemma replace_absent (old new s : text) :
  old <> [] -> contains old s = false -> replace old new s = s.
Proof.
  intros Hold H. destruct old; [contradiction|]. now apply replace_from_absent.
Qed.

Lemma endswith_LF_cons (c : char) (s : text) :
  s <> [] -> endswith [LF] (c :: s) = endswith [LF] s.
Proof.
  intros Hs. unfold endswith. simpl rev at 1.
  destruct (rev s) as [|x r] eqn:E.
  - apply (f_equal (@rev _)) in E. rewrite rev_involutive in E. now subst.
  - simpl. now rewrite E.
Qed.

(** Joining the lines of such a text with \n, and putting back the final
    \n, gives the text again. *)
Lemma join_splitlines (s : text) :
  lf_only s ->
  join [LF] (splitlines s) ++ (if endswith [LF] s then [LF] else []) = s.
Proof.
  induction s as [|c rest IH]; intros Hlf; [reflexivity|].
  assert (Hrest : lf_only rest) by (intros x Hx; apply Hlf; now right).
  specialize (IH Hrest). simpl splitlines.
  destruct (is_linebreak c) eqn:Hc.
  - assert (c = LF) as -> by (apply Hlf; [now left | exact Hc]).
    destruct rest as [|c' rest']; [reflexivity|].
    change ((LF =? CR) && (c' =? LF))%N with false. cbv iota.
    rewrite endswith_LF_cons by discriminate.
    destruct (splitlines (c' :: rest')) as [|l ls] eqn:E.
    + apply splitlines_nil_inv in E. discriminate.
    + change (join [LF] ([] :: l :: ls)) with (LF :: join [LF] (l :: ls)).
      rewrite <- app_comm_cons. f_equal. exact IH.
  - destruct (splitlines rest) as [|l ls] eqn:E.
    + apply splitlines_nil_inv in E. subst rest.
      change (endswith [LF] [c]) with ((LF =? c)%N && true).
      destruct (N.eqb_spec LF c) as [<-|]; [discriminate Hc | reflexivity].
    + destruct rest as [|c' rest']; [discriminate E|].
      rewrite endswith_LF_cons by discriminate.
      rewrite <- IH at 2. destruct ls; reflexivity.
Qed.
End TextFacts.

Section RedactFacts.
Import Redact.

Lemma redact_output_lines (t secret : text) :
  t <> [] -> secret <> [] ->
  redact_output t (Some secret) =
  join [LF] (List.map (replace secret marker)
               (List.filter (fun l => negb (text_eqb (strip l) secret)) (splitlines t)))
  ++ (if endswith [LF] t then [LF] else []).
Proof.
  intros Ht Hs. destruct t as [|c t]; [contradiction|].
  destruct secret as [|a secret]; [contradiction|].
  unfold redact_output. rewrite redact_fold. simpl app at 1.
  destruct (endswith [LF] (c :: t)); [reflexivity | now rewrite app_nil_r].
Qed.

Lemma endswith_snoc (x : text) (c : char) : endswith [c] (x ++ [c]) = true.
Proof.
  unfold endswith. rewrite rev_app_distr. simpl. now rewrite N.eqb_refl.
Qed.

Lemma clean_lines_kept (secret t : text) :
  secret <> [] -> contains secret t = false ->
  List.map (replace secret marker)
    (List.filter (fun l => negb (text_eqb (strip l) secret)) (splitlines t))
  = splitlines t.
Proof.
  intros Hs Hc.
  assert (Hl : forall l, In l (splitlines t) -> contains secret l = false).
  { intros l Hin. destruct (contains secret l) eqn:E; [|reflexivity].
    apply contains_spec in E.
    assert (infix_of secret t) as Hi
      by (eapply infix_of_trans; [exact E | now apply splitlines_lines]).
    apply contains_spec in Hi. congruence. }
  induction (splitlines t) as [|l ls IH]; [reflexivity|].
  simpl. unfold text_eqb at 1. destruct (bool_decide_reflect (strip l = secret)) as [Heq|Hne].
  - exfalso. specialize (Hl l (or_introl eq_refl)).
    assert (contains secret l = true) as Hyes
      by (apply contains_spec; rewrite <- Heq; apply strip_infix).
    congruence.
  - simpl. rewrite replace_absent by (auto using in_eq).
    f_equal. apply IH. intros l' Hin. apply Hl. now right.
Qed.
End RedactFacts.

Section RedactClaim.
Import Redact.

(** C7, as the code has it: for a non-empty text and a non-empty secret,
    [redact_output] splits the text into lines, drops each line that equals
    the secret once surrounding whitespace is stripped, replaces every
    occurrence of the secret in each line kept by "[redacted]", joins the
    lines with a line feed and puts one back at the end when the text ends
    with one; a text that does not contain the secret and whose only line
    terminator is the line feed comes back unchanged; and the output ends
    with a line feed whenever the text does. *)
Theorem redact_output_amended (t secret : text) :
  secret <> [] ->
  (t <> [] ->
   redact_output t (Some secret) =
   join [LF] (List.map (replace secret marker)
                (List.filter (fun l => negb (text_eqb (strip l) secret)) (splitlines t)))
   ++ (if endswith [LF] t then [LF] else [])) /\
  (contains secret t = false -> lf_only t -> redact_output t (Some secret) = t) /\
  (endswith [LF] t = true -> endswith [LF] (redact_output t (Some secret)) = true).
Proof.
  intros Hs. split; [|split].
  - intros Ht. now apply redact_output_lines.
  - intros Hc Hlf. destruct t as [|c t]; [reflexivity|].
    rewrite redact_output_lines by (discriminate || assumption).
    rewrite clean_lines_kept by assumption.
    now apply join_splitlines.
  - intros He. destruct t as [|c t]; [discriminate He|].
    rewrite redact_output_lines by (discriminate || assumption).
    rewrite He. apply endswith_snoc.
Qed.

Lemma redact_output_amended_witness :
  redact_output (py "sudo: hunter2 rejected" ++ [LF] ++ py " hunter2 " ++ [LF] ++ py "ok" ++ [LF])
                (Some (py "hunter2"))
  = py "sudo: [redacted] rejected" ++ [LF] ++ py "ok" ++ [LF]
  /\ redact_output (py "ok" ++ [LF]) (Some (py "hunter2")) = py "ok" ++ [LF].
Proof.
  split.
  - destruct (redact_output_amended
                (py "sudo: hunter2 rejected" ++ [LF] ++ py " hunter2 " ++ [LF] ++ py "ok" ++ [LF])
                (py "hunter2")) as [H _]; [discriminate|].
    rewrite H by discriminate. vm_compute. reflexivity.
  - destruct (redact_output_amended (py "ok" ++ [LF]) (py "hunter2")) as (_ & H & _);
      [discriminate|].
    apply H; [reflexivity|].
    intros c Hc Hb. vm_compute in Hc.
    destruct Hc as [<- | [<- | [<- | []]]]; [discriminate Hb | discriminate Hb | reflexivity].
Defined.

(** C7 as stated fails: a text that does not contain the secret comes back
    with its line terminators rewritten. *)
Lemma redact_output_rewrites_crlf :
  py "x" <> [] /\
  contains (py "x") (py "a" ++ [CR; LF] ++ py "b") = false /\
  redact_output (py "a" ++ [CR; LF] ++ py "b") (Some (py "x")) = py "a" ++ [LF] ++ py "b" /\
  redact_output (py "a" ++ [CR; LF] ++ py "b") (Some (py "x")) <> py "a" ++ [CR; LF] ++ py "b".
Proof.
  repeat split; try discriminate.
Qed.

(** A line that is the secret with its own surrounding blanks is not
    dropped: the comparison strips the line and not the secret. *)
Lemma redact_output_keeps_padded_secret_line :
  redact_output (py " pw " ++ [LF]) (Some (py " pw ")) = py "[redacted]" ++ [LF].
Proof. reflexivity. Qed.

(** The output can end with a line feed where the text does not. *)
Lemma redact_output_gains_newline :
  endswith [LF] (py "a" ++ [LF; LF] ++ py "pw") = false /\
  redact_output (py "a" ++ [LF; LF] ++ py "pw") (Some (py "pw")) = py "a" ++ [LF].
Proof. split; reflexivity. Qed.
End RedactClaim.

(** ** Durations *)

Section FormatFacts.
Import Format.

Lemma duration_figures (n : Z) :
  0 <= n ->
  n mod 86400 / 3600 = n / 3600 mod 24 /\
  n mod 86400 mod 3600 / 60 = n / 60 mod 60 /\
  n mod 86400 mod 3600 mod 60 = n mod 60.
Proof.
  intros Hn. repeat split; Z.div_mod_to_equations; lia.
Qed.

Lemma format_seconds_whole (q : Q) :
  (0 <= q)%Q ->
  format_seconds (Some (Fin q)) = Return (duration_text (Qfloor q)).
Proof.
  intros Hq. unfold format_seconds, int_of_float, bind, Qfloor.
  destruct q as [a b]. cbn [Qnum Qden].
  assert (Ha : 0 <= a) by (unfold Qle in Hq; simpl in Hq; lia).
  rewrite Z.quot_div_nonneg by lia.
  set (n := a / Z.pos b).
  assert (Hn : 0 <= n) by (apply Z.div_pos; lia).
  destruct (duration_figures n Hn) as (Hh & Hm & Hs).
  rewrite Hh, Hm, Hs. unfold duration_text.
  destruct (Z.leb_spec 86400 n) as [Hd|Hd].
  - replace (n / 86400 =? 0) with false; [reflexivity|].
    symmetry. apply Z.eqb_neq. Z.div_mod_to_equations. lia.
  - replace (n / 86400 =? 0) with true
      by (symmetry; apply Z.eqb_eq; apply Z.div_small; lia).
    cbn [negb].
    assert (H24 : n / 3600 mod 24 = n / 3600) by (Z.div_mod_to_equations; lia).
    rewrite H24.
    destruct (Z.leb_spec 3600 n) as [Hh'|Hh'].
    + replace (n / 3600 =? 0) with false; [reflexivity|].
      symmetry. apply Z.eqb_neq. Z.div_mod_to_equations. lia.
    + replace (n / 3600 =? 0) with true
        by (symmetry; apply Z.eqb_eq; apply Z.div_small; lia).
      cbn [negb].
      assert (H60 : n / 60 mod 60 = n / 60) by (Z.div_mod_to_equations; lia).
      rewrite H60.
      destruct (Z.leb_spec 60 n) as [Hm'|Hm'].
      * replace (n / 60 =? 0) with false; [reflexivity|].
        symmetry. apply Z.eqb_neq. Z.div_mod_to_equations. lia.
      * replace (n / 60 =? 0) with true
          by (symmetry; apply Z.eqb_eq; apply Z.div_small; lia).
        cbn [negb]. now rewrite Z.mod_small by lia.
Qed.

(** C9, as the code has it: [format_seconds] of a non-negative duration
    prints the whole seconds as [d h m] from one day on, [h m] from one
    hour on, [m s] from one minute on and [s] alone below, each figure
    being the quotient of the whole seconds by its unit reduced modulo the
    next unit; [None] prints as "n/a". *)
Theorem format_seconds_amended (q : Q) :
  (0 <= q)%Q ->
  format_seconds (Some (Fin q)) = Return (duration_text (Qfloor q)) /\
  format_seconds None = Return (py "n/a").
Proof.
  intros Hq. split; [now apply format_seconds_whole | reflexivity].
Qed.

Lemma format_seconds_amended_witness :
  format_seconds (Some (Fin 90061)) = Return (py "1d 1h 1m") /\
  format_seconds None = Return (py "n/a").
Proof.
  destruct (format_seconds_amended 90061) as [H1 H2]; [discriminate|].
  split; [rewrite H1; reflexivity | exact H2].
Defined.

(** C9 as stated fails: from one day on the code prints three figures,
    not the pair [d h]. *)
Lemma format_seconds_day_is_not_a_pair :
  format_seconds (Some (Fin 90061)) <> Return (format_seconds_spec (Some 90061)).
Proof.
  vm_compute. discriminate.
Qed.
End FormatFacts.

(** ** Interval normalisation *)

Section IntervalFacts.
Import Hub.

Lemma clamp_bounds (x : Q) : (MIN_INTERVAL_S <= clamp x <= MAX_INTERVAL_S)%Q.
Proof.
  unfold clamp.
  destruct (Qle_bool x MIN_INTERVAL_S) eqn:E1; [split; discriminate|].
  destruct (Qle_bool MAX_INTERVAL_S x) eqn:E2; [split; discriminate|].
  split.
  - destruct (Qlt_le_dec x MIN_INTERVAL_S) as [H|H]; [|exact H].
    apply Qlt_le_weak in H. apply Qle_bool_iff in H. congruence.
  - destruct (Qlt_le_dec x MAX_INTERVAL_S) as [H|H]; [now apply Qlt_le_weak|].
    apply Qle_bool_iff in H. congruence.
Qed.

Lemma clamp_min_max (x : Q) :
  py_max2 (Fin MIN_INTERVAL_S) (py_min2 (Fin MAX_INTERVAL_S) (Fin x)) = Fin (clamp x).
Proof.
  unfold py_max2, py_min2, clamp, float_lt.
  destruct (Qle_bool MAX_INTERVAL_S x) eqn:E2; cbn [negb].
  - destruct (Qle_bool x MIN_INTERVAL_S) eqn:E1; [|reflexivity].
    apply Qle_bool_iff in E1, E2.
    exfalso. assert (H : (MAX_INTERVAL_S <= MIN_INTERVAL_S)%Q) by (eapply Qle_trans; eauto).
    now apply H.
  - now destruct (Qle_bool x MIN_INTERVAL_S).
Qed.

(** C8, as the code has it: an [int] within the range of a double and a
    finite [float] are divided by 1000 and clamped to [3, 60]; NaN and
    +inf give 60, -inf gives 3; a value that is neither [int], [float] nor
    [bool] gives the default 10. *)
Theorem normalize_interval_amended (v : Json) :
  float_convertible v ->
  match v with
  | JInt z => _normalize_interval v = Return (Fin (clamp (inject_Z z / 1000)))
  | JFloat (Fin x) => _normalize_interval v = Return (Fin (clamp (x / 1000)))
  | JFloat NegInf => _normalize_interval v = Return (Fin MIN_INTERVAL_S)
  | JFloat _ => _normalize_interval v = Return (Fin MAX_INTERVAL_S)
  | JBool _ => True
  | _ => _normalize_interval v = Return (Fin DEFAULT_INTERVAL_S)
  end /\
  (forall x, MIN_INTERVAL_S <= clamp x <= MAX_INTERVAL_S)%Q.
Proof.
  intros Hv. split; [|exact clamp_bounds].
  destruct v as [| b | z | [x| | |] | s | l | f]; try reflexivity; try exact I.
  - unfold _normalize_interval, div_1000, float_of_int, bind. cbn [is_int_or_float].
    simpl in Hv. apply Z.ltb_lt in Hv. rewrite Hv. now rewrite clamp_min_max.
  - unfold _normalize_interval, div_1000, bind. cbn [is_int_or_float].
    now rewrite clamp_min_max.
Qed.

Lemma normalize_interval_amended_witness :
  _normalize_interval (JInt 1000) = Return (Fin 3) /\
  (MIN_INTERVAL_S <= clamp 0 <= MAX_INTERVAL_S)%Q.
Proof.
  destruct (normalize_interval_amended (JInt 1000)) as [H1 H2].
  - vm_compute. reflexivity.
  - split; [rewrite H1; reflexivity | apply H2].
Defined.

(** C8 as stated fails: the JSON value [true] is not a number, yet it is
    taken as the integer 1 and clamped to 3 s instead of giving the
    default. *)
Lemma normalize_interval_bool_not_default :
  is_json_number (JBool true) = false /\
  _normalize_interval (JBool true) = Return (Fin MIN_INTERVAL_S) /\
  _normalize_interval (JBool true) <> Return (Fin DEFAULT_INTERVAL_S).
Proof.
  repeat split. vm_compute. discriminate.
Qed.

(** Past the range of a double the division raises. *)
Lemma normalize_interval_overflow (z : Z) :
  float_int_limit <= Z.abs z ->
  _normalize_interval (JInt z) = Raise (OverflowError (py "int too large to convert to float")).
Proof.
  intros Hz. unfold _normalize_interval, div_1000, float_of_int, bind. cbn [is_int_or_float].
  now replace (Z.abs z <? float_int_limit) with false by (symmetry; apply Z.ltb_ge; exact Hz).
Qed.
End IntervalFacts.

(** ** Scheduler due-ness *)

Section DueFacts.
Import Hub.

Lemma min_interval_fold (others : list Subscription) (m : Q) :
  let r := fold_left (fun m sub => if Qle_bool m (interval_s sub) then m else interval_s sub)
             others m in
  (r <= m)%Q /\ (forall s, In s others -> (r <= interval_s s)%Q) /\
  (r = m \/ exists s, In s others /\ r = interval_s s).
Proof.
  revert m. induction others as [|o os IH]; intros m; cbn [fold_left].
  - repeat split; [apply Qle_refl | intros s [] | now left].
  - destruct (Qle_bool m (interval_s o)) eqn:E.
    + destruct (IH m) as (H1 & H2 & H3). apply Qle_bool_iff in E. repeat split.
      * exact H1.
      * intros s [<- | Hs]; [eapply Qle_trans; eauto | now apply H2].
      * destruct H3 as [H3 | (s & Hs & H3)]; [now left | right; exists s; split; [now right | exact H3]].
    + destruct (IH (interval_s o)) as (H1 & H2 & H3).
      assert (Hlt : (interval_s o <= m)%Q).
      { destruct (Qlt_le_dec (interval_s o) m) as [H|H]; [now apply Qlt_le_weak|].
        apply Qle_bool_iff in H. congruence. }
      repeat split.
      * eapply Qle_trans; eauto.
      * intros s [<- | Hs]; [exact H1 | now apply H2].
      * right. destruct H3 as [H3 | (s & Hs & H3)].
        -- exists o. split; [now left | exact H3].
        -- exists s. split; [now right | exact H3].
Qed.

(** The active interval of a server with subscribers is the interval of
    one of them and is at most the interval of each. *)
Lemma active_interval_least (subs : list Subscription) :
  subs <> [] ->
  exists sub, In sub subs /\ active_interval subs = interval_s sub /\
              forall s, In s subs -> (interval_s sub <= interval_s s)%Q.
Proof.
  destruct subs as [|first others]; [contradiction|]. intros _.
  unfold active_interval, min_interval.
  destruct (min_interval_fold others (interval_s first)) as (H1 & H2 & H3).
  cbv zeta in H1, H2, H3.
  destruct H3 as [H3 | (s & Hs & H3)].
  - exists first. split; [now left|]. split; [exact H3|].
    intros s [<- | Hs]; [apply Qle_refl|]. rewrite <- H3. now apply H2.
  - exists s. split; [now right|]. split; [exact H3|].
    intros s' [<- | Hs']; rewrite <- H3; [exact H1 | now apply H2].
Qed.

Lemma active_detail_full (subs : list Subscription) :
  active_detail subs = Full <-> exists sub, In sub subs /\ detail sub = Full.
Proof.
  unfold active_detail.
  destruct (existsb _ subs) eqn:E.
  - apply existsb_exists in E as (s & Hs & Hd). split; [|reflexivity].
    intros _. exists s. split; [exact Hs|]. now destruct (detail s).
  - split; [discriminate|]. intros (s & Hs & Hd). exfalso.
    assert (existsb (fun sub => detail_eqb (detail sub) Full) subs = true) as Ht
      by (apply existsb_exists; exists s; split; [exact Hs | now rewrite Hd]).
    congruence.
Qed.

Lemma active_detail_summary (subs : list Subscription) :
  active_detail subs = Summary <-> forall sub, In sub subs -> detail sub = Summary.
Proof.
  split.
  - intros H s Hs. destruct (detail s) eqn:E; [reflexivity|].
    assert (active_detail subs = Full) by (apply active_detail_full; eauto). congruence.
  - intros H. destruct (active_detail subs) eqn:E; [reflexivity|].
    apply active_detail_full in E as (s & Hs & Hd). rewrite (H s Hs) in Hd. discriminate.
Qed.

(** C5, as the code has it: a server with at least one subscriber is due
    exactly when it has no cache entry, or the time since the cached fetch
    has reached the least of its subscribers' intervals, or the cached
    detail level differs from the active one, in either direction: the
    cache holds summary while some subscriber asks for full, or the cache
    holds full while every subscriber asks for summary. *)
Theorem due_amended (now : Q) (subs : list Subscription) (cache : option CacheEntry) :
  subs <> [] ->
  (due now subs cache = true <->
   cache = None \/
   exists c, cache = Some c /\
     ((exists sub, In sub subs /\
                   (forall s, In s subs -> (interval_s sub <= interval_s s)%Q) /\
                   (interval_s sub <= now - fetched_at c)%Q)
      \/ (cache_detail c = Summary /\ exists sub, In sub subs /\ detail sub = Full)
      \/ (cache_detail c = Full /\ forall sub, In sub subs -> detail sub = Summary))).
Proof.
  intros Hsubs. destruct cache as [c|]; cbn [due].
  2: { split; [now left | reflexivity]. }
  destruct (active_interval_least subs Hsubs) as (m & Hm & Heq & Hleast).
  rewrite orb_true_iff, Qle_bool_iff, negb_true_iff. split.
  - intros H. right. exists c. split; [reflexivity|]. destruct H as [H | H].
    + left. exists m. rewrite <- Heq. repeat split; [exact Hm | | exact H].
      rewrite Heq. exact Hleast.
    + right. destruct (cache_detail c) eqn:Ec, (active_detail subs) eqn:Ea;
        try discriminate H.
      * left. split; [reflexivity|]. now apply active_detail_full.
      * right. split; [reflexivity|]. now apply active_detail_summary.
  - intros [H | (c' & Hc & H)]; [discriminate|]. injection Hc as <-.
    destruct H as [(s & Hs & Hl & Hle) | [(Hc & H) | (Hc & H)]].
    + left. rewrite Heq. eapply Qle_trans; [apply Hleast; exact Hs | exact Hle].
    + right. rewrite Hc. apply active_detail_full in H. now rewrite H.
    + right. rewrite Hc. apply active_detail_summary in H. now rewrite H.
Qed.

Lemma due_amended_witness :
  due 1 [sample_sub] (Some sample_cache_full) = true.
Proof.
  apply (due_amended 1 [sample_sub] (Some sample_cache_full)); [discriminate|].
  right. exists sample_cache_full. split; [reflexivity|].
  right. right. split; [reflexivity|].
  intros sub [<- | []]. reflexivity.
Defined.

(** C5 as stated fails: with the cache at full, the only subscriber at
    summary and the interval not yet elapsed, the server is due. *)
Lemma due_on_downgrade :
  due 1 [sample_sub] (Some sample_cache_full) = true /\
  due_spec 1 [sample_sub] (Some sample_cache_full) = false.
Proof.
  split; reflexivity.
Qed.
End DueFacts.

Section TickFacts.
Import Hub.

Lemma tick_fold (now : Q) (cache : gmap text CacheEntry)
    (items : list (text * list Subscription)) (F : gset text) (T : list (text * Detail)) :
  List.NoDup (List.map fst items) ->
  forall sid d,
    In (sid, d) (snd (fold_left (tick_step now cache) items (F, T))) <->
    In (sid, d) T \/
    exists subs, In (sid, subs) items /\ due now subs (cache !! sid) = true /\
                 (sid ∉ F) /\ d = active_detail subs.
Proof.
  revert F T. induction items as [|[sid0 subs0] rest IH]; intros F T Hnd sid d.
  - cbn [fold_left snd]. split; [now left | intros [H | (subs & [] & _)]; exact H].
  - inversion Hnd as [|? ? Hnotin Hnd']; subst. cbn [fold_left].
    assert (Hrest : forall subs, In (sid, subs) rest -> sid <> sid0).
    { intros subs Hin ->. apply Hnotin. change sid0 with (fst (sid0, subs)).
      now apply in_map. }
    unfold tick_step at 2.
    destruct (due now subs0 (cache !! sid0)) eqn:Hdue.
    + destruct (bool_decide_reflect (sid0 ∈ F)) as [Hin|Hout].
      * rewrite IH by exact Hnd'. split.
        -- intros [H | (subs & Hs & H)]; [now left|].
           right. exists subs. split; [now right | exact H].
        -- intros [H | (subs & [Heq | Hs] & Hd & Hf & Hdet)]; [now left | |].
           ++ injection Heq as -> ->. contradiction.
           ++ right. exists subs. auto.
      * rewrite IH by exact Hnd'. rewrite in_app_iff. split.
        -- intros [[H | [Heq | []]] | (subs & Hs & Hd & Hf & Hdet)].
           ++ now left.
           ++ injection Heq as <- <-. right. exists subs0.
              split; [now left | auto].
           ++ right. exists subs. split; [now right|].
              split; [exact Hd|]. split; [|exact Hdet].
              intros Hin. apply Hf. apply elem_of_union. now right.
        -- intros [H | (subs & [Heq | Hs] & Hd & Hf & Hdet)].
           ++ left. now left.
           ++ injection Heq as -> ->. left. right. left. now rewrite Hdet.
           ++ right. exists subs. split; [exact Hs|]. split; [exact Hd|].
              split; [|exact Hdet]. specialize (Hrest subs Hs).
              intros [Hin%elem_of_singleton | Hin]%elem_of_union; contradiction.
    + rewrite IH by exact Hnd'. split.
      * intros [H | (subs & Hs & H)]; [now left|].
        right. exists subs. split; [now right | exact H].
      * intros [H | (subs & [Heq | Hs] & Hd & Hf & Hdet)]; [now left | |].
        -- injection Heq as -> ->. congruence.
        -- right. exists subs. auto.
Qed.

Lemma NoDup_fst_filter {A B : Type} (f : A * B -> bool) (l : list (A * B)) :
  List.NoDup (List.map fst l) -> List.NoDup (List.map fst (List.filter f l)).
Proof.
  induction l as [|x l IH]; intros H; [constructor|].
  inversion H as [|? ? Hx Hl]; subst. cbn [List.filter].
  destruct (f x); [|now apply IH].
  cbn [List.map]. constructor; [|now apply IH].
  intros Hin. apply Hx. apply in_map_iff in Hin as (y & Hy & Hin).
  apply filter_In in Hin as [Hin _]. apply in_map_iff. now exists y.
Qed.

Lemma subs_snapshot_keys (h : RealtimeHub) : List.NoDup (List.map fst (subs_snapshot h)).
Proof.
  unfold subs_snapshot. apply NoDup_fst_filter. apply NoDup_ListNoDup.
  apply NoDup_fst_map_to_list.
Qed.

(** X30: a tick dispatches a refresh for exactly the servers of the snapshot
    that are due and not already in flight, at their active detail level. *)
Lemma tick_dispatched (now : Q) (h : RealtimeHub) (sid : text) (d : Detail) :
  In (sid, d) (snd (_tick now h)) <->
  exists subs, In (sid, subs) (subs_snapshot h) /\
               due now subs (_cache h !! sid) = true /\
               (sid ∉ _in_flight h) /\ d = active_detail subs.
Proof.
  unfold _tick.
  pose proof (tick_fold now (_cache h) (subs_snapshot h) (_in_flight h) []
                (subs_snapshot_keys h) sid d) as H.
  destruct (fold_left _ _ _) as [F T]. cbn [snd] in *.
  rewrite H. split; [intros [[] | H']; exact H' | now right].
Qed.

(** Every server of the snapshot has at least one subscriber. *)
Lemma subs_snapshot_nonempty (h : RealtimeHub) (sid : text) (subs : list Subscription) :
  In (sid, subs) (subs_snapshot h) -> subs <> [].
Proof.
  unfold subs_snapshot. intros H. apply filter_In in H as [_ H].
  now destruct subs.
Qed.
End TickFacts.

(** ** The registry *)

Section RegistryFacts.
Import Servers.


Lemma same_endpoint_spec (e s : Server) :
  same_endpoint e s = true <-> host e = host s /\ port e = port s /\ user e = user s.
Proof.
  unfold same_endpoint, text_eqb.
  rewrite !andb_true_iff, !bool_decide_eq_true, Z.eqb_eq. tauto.
Qed.

End RegistryFacts.

Section RegistryExamples.
Import Servers.

(** On a file that does not load, [add] raises what [_load] raises and
    writes nothing. *)
Lemma add_on_unreadable_file (file : RegistryFile) (server : Server) (e : Exn) :
  _load file = Raise e -> add file server = (Raise e, file).
Proof. intros H. unfold add. now rewrite H. Qed.


End RegistryExamples.

(** ** Snapshots *)

Section SnapshotFacts.
Import Servers Models Ssh.

(** A snapshot has a section for every sub-section the specification lists
    except the CPU one. *)
Lemma snapshot_sections (h : HostStats) :
  List.filter (fun k => negb (bool_decide (is_Some (json_get k (model_dump h)))))
    spec_sections = [py "cpu"].
Proof. reflexivity. Qed.

(** Whatever the pass, the snapshot has the same sub-sections with the
    same fields: the error snapshot has the shape of any other. *)
Lemma error_snapshot_shape (server : Server) (message : text) (h : HostStats) :
  shape (model_dump (build_error_stats server message)) = shape (model_dump h).
Proof.
  destruct h as [? sn ? ? ? ? er ? ? ? ? ?], server as [? n ? ? ? ? ? ? ? ? ?].
  destruct sn, er, n; reflexivity.
Qed.

(** C1 fails on the code: a snapshot, degraded or not, has no CPU
    sub-section. [HostStats] declares no [cpu] field, so the [cpu] keyword
    that [build_error_stats] and [collect_stats] pass is dropped. *)
Theorem snapshot_has_no_cpu (server : Server) (message : text) (kw : HostStatsArgs) :
  json_get (py "cpu") (model_dump (build_error_stats server message)) = None /\
  json_get (py "cpu") (model_dump (HostStats_init kw)) = None.
Proof. split; reflexivity. Qed.

Lemma build_error_stats_degraded (server : Server) (message : text) :
  let s := build_error_stats server message in
  error s = Some message /\
  memory s = {| mem_total_bytes := None; mem_used_bytes := None;
                mem_total_human := py "n/a"; mem_used_human := py "n/a" |} /\
  uptime s = {| seconds := None; human := py "n/a" |} /\
  (disk_total_bytes (disk s) = None /\ disk_used_bytes (disk s) = None /\
   disk_total_human (disk s) = py "n/a" /\ disk_used_human (disk s) = py "n/a") /\
  pm2 s = {| total_memory_bytes := None; processes := None; pm2_details := None;
             pm2_error := Some message |} /\
  supervisor s = SupervisorInfo_default.
Proof. repeat split. Qed.
End SnapshotFacts.

(** ** The session pool *)

Section PoolFacts.
Import Servers Models Ssh Pool.

Lemma entry_of_set_entry (p : SSHClientPool) (sid : text) (e : _Entry) :
  entry_of (set_entry sid e p) sid = e.
Proof. unfold entry_of, set_entry, with_entries. cbn. now rewrite lookup_insert_eq. Qed.

Lemma entries_set_entry (p : SSHClientPool) (sid : text) (e : _Entry) :
  _entries (set_entry sid e p) !! sid = Some e.
Proof. unfold set_entry, with_entries. cbn. now rewrite lookup_insert_eq. Qed.

Lemma entry_of_close (p : SSHClientPool) (c : Client) (sid : text) :
  entry_of (close c p) sid = entry_of p sid.
Proof. reflexivity. Qed.

(** Reuse: a cached client whose transport is active is returned as it is,
    without a connection attempt. *)
Lemma ensure_reuses_active (w : World) (server : Server) (p : SSHClientPool) (c : Client) :
  cached_client p (id server) = Some c -> transport_active w c = true ->
  _ensure_connected_locked w server p = (Return c, p).
Proof.
  unfold cached_client, _ensure_connected_locked, _is_active. intros -> ->. reflexivity.
Qed.

(** Otherwise exactly one connection attempt is made. *)
Lemma ensure_reconnects_once (w : World) (server : Server) (p : SSHClientPool) :
  (forall c, cached_client p (id server) = Some c -> transport_active w c = false) ->
  connects (snd (_ensure_connected_locked w server p)) = connects p ++ [server].
Proof.
  unfold cached_client, _ensure_connected_locked, _is_active, _connect. intros H.
  destruct (client (entry_of p (id server))) as [c|].
  - rewrite (H c eq_refl). cbn.
    destruct (connect_failure w _ server); reflexivity.
  - destruct (connect_failure w _ server); reflexivity.
Qed.

(** The [except] block: the error snapshot, the entry reset, the cached
    client closed. *)
Lemma on_exception_entry (server : Server) (exc : Exn) (p : SSHClientPool) :
  let r := on_exception server exc p in
  fst r = Return (build_error_stats server (exn_message exc)) /\
  _entries (snd r) !! id server
  = Some {| client := None; last_error := Some (exn_message exc) |} /\
  (forall c, cached_client p (id server) = Some c -> In c (closed (snd r))).
Proof.
  unfold on_exception, cached_client. cbn zeta.
  destruct (client (entry_of p (id server))) as [c|] eqn:Ec.
  - cbn [fst snd]. split; [reflexivity|]. split; [apply entries_set_entry|].
    intros c' Hc'. injection Hc' as <-. cbn. apply in_or_app. right. now left.
  - cbn [fst snd]. split; [reflexivity|]. split; [|discriminate].
    rewrite entries_set_entry. reflexivity.
Qed.

(** The outcome of [collect] for any collector. *)
Lemma collect_with_outcome (w : World) (call : Client -> Server -> Result HostStats)
    (server : Server) (p : SSHClientPool) :
  let attempt := try_block w call server (_get_entry p (id server)) in
  let outcome := collect_with w call server p in
  (exists stats, fst outcome = Return stats) /\
  (forall exc, fst attempt = Raise exc ->
     fst outcome = Return (build_error_stats server (exn_message exc)) /\
     error (build_error_stats server (exn_message exc)) = Some (exn_message exc) /\
     _entries (snd outcome) !! id server
     = Some {| client := None; last_error := Some (exn_message exc) |} /\
     (forall c, cached_client (snd attempt) (id server) = Some c ->
                In c (closed (snd outcome)))).
Proof.
  cbn zeta. unfold collect_with.
  destruct (try_block w call server (_get_entry p (id server))) as [[exc|stats] p'].
  - destruct (on_exception_entry server exc p') as (H1 & H2 & H3). split.
    + eexists. exact H1.
    + intros exc' Hexc. injection Hexc as <-. cbn [snd]. auto.
  - split; [now exists stats | intros exc Hexc; discriminate Hexc].
Qed.

(** C3: whatever the collector and the connection do, [collect] returns a
    snapshot and raises nothing; and when the [try] block raises [exc], the
    snapshot returned is fully degraded: it carries the identity of the
    server, [str(exc)] as its top-level error and as the error of its pm2
    section, null for every figure and list, and "n/a" for every human
    string; the entry's [last_error] is [str(exc)], its client is unset,
    and the client that was cached when the block failed has been
    closed. *)
Theorem collect_never_raises (w : World) (call : Client -> Server -> Result HostStats)
    (server : Server) (p : SSHClientPool) :
  let attempt := try_block w call server (_get_entry p (id server)) in
  let outcome := collect_with w call server p in
  (exists stats, fst outcome = Return stats) /\
  (forall exc, fst attempt = Raise exc ->
     fst outcome
     = Return {| server_id := id server;
                 server_name := name server;
                 hs_host := host server;
                 hs_user := user server;
                 hs_port := port server;
                 hs_tags := tags server;
                 error := Some (exn_message exc);
                 memory := {| mem_total_bytes := None; mem_used_bytes := None;
                              mem_total_human := py "n/a"; mem_used_human := py "n/a" |};
                 uptime := {| seconds := None; human := py "n/a" |};
                 disk := {| mount := py "/";
                            disk_total_bytes := None; disk_used_bytes := None;
                            disk_total_human := py "n/a"; disk_used_human := py "n/a" |};
                 pm2 := {| total_memory_bytes := None; processes := None;
                           pm2_details := None; pm2_error := Some (exn_message exc) |};
                 supervisor := {| total := None; running := None; sup_details := None |} |} /\
     _entries (snd outcome) !! id server
     = Some {| client := None; last_error := Some (exn_message exc) |} /\
     (forall c, cached_client (snd attempt) (id server) = Some c ->
                In c (closed (snd outcome)))).
Proof.
  destruct (collect_with_outcome w call server p) as [Hret Hexc]. split; [exact Hret|].
  intros exc Hraise. destruct (Hexc exc Hraise) as (H1 & _ & H2 & H3).
  split; [|split; assumption]. rewrite H1. reflexivity.
Qed.

Lemma collect_never_raises_witness :
  fst (collect_with healthy_world (fun _ _ => Raise (OtherError (py "boom")))
         sample_server empty_pool)
  = Return {| server_id := py "srv-1";
              server_name := Some (py "alpha");
              hs_host := py "10.0.0.1";
              hs_user := py "root";
              hs_port := 22;
              hs_tags := [];
              error := Some (py "boom");
              memory := {| mem_total_bytes := None; mem_used_bytes := None;
                           mem_total_human := py "n/a"; mem_used_human := py "n/a" |};
              uptime := {| seconds := None; human := py "n/a" |};
              disk := {| mount := py "/";
                         disk_total_bytes := None; disk_used_bytes := None;
                         disk_total_human := py "n/a"; disk_used_human := py "n/a" |};
              pm2 := {| total_memory_bytes := None; processes := None;
                        pm2_details := None; pm2_error := Some (py "boom") |};
              supervisor := {| total := None; running := None; sup_details := None |} |}.
Proof.
  destruct (collect_never_raises healthy_world (fun _ _ => Raise (OtherError (py "boom")))
              sample_server empty_pool) as [_ H].
  destruct (H (OtherError (py "boom")) eq_refl) as [H1 _].
  exact H1.
Defined.

(** The call [collect] makes never reaches the body of [collect_stats]:
    the keyword [detail] names no parameter of it. *)
Lemma call_with_detail_raises (w : World) (detail : text) (c : Client) (server : Server) :
  call_collect_stats w [(py "detail", JStr detail)] c server
  = Raise (TypeError (py "collect_stats() got an unexpected keyword argument 'detail'")).
Proof. reflexivity. Qed.

Lemma try_block_with_detail_raises (w : World) (detail : text) (server : Server)
    (p : SSHClientPool) :
  exists exc, fst (try_block w (call_collect_stats w [(py "detail", JStr detail)]) server p)
              = Raise exc.
Proof.
  unfold try_block.
  destruct (_ensure_connected_locked w server p) as [[e|c] p'].
  - now exists e.
  - rewrite call_with_detail_raises. eexists. reflexivity.
Qed.

Lemma collect_drops_client (w : World) (server : Server) (detail : text) (p : SSHClientPool) :
  cached_client (snd (collect w server detail p)) (id server) = None /\
  exists message, fst (collect w server detail p)
                  = Return (build_error_stats server message).
Proof.
  unfold collect.
  pose proof (collect_with_outcome w (call_collect_stats w [(py "detail", JStr detail)])
                server p) as [_ H].
  destruct (try_block_with_detail_raises w detail server (_get_entry p (id server)))
    as [exc Hexc].
  destruct (H exc Hexc) as (H1 & _ & H2 & _). split.
  - unfold cached_client, entry_of. now rewrite H2.
  - now exists (exn_message exc).
Qed.

Lemma collect_connects (w : World) (server : Server) (detail : text) (p : SSHClientPool) :
  cached_client p (id server) = None ->
  connects (snd (collect w server detail p)) = connects p ++ [server].
Proof.
  intros Hc. unfold collect, collect_with, try_block.
  assert (Hc' : cached_client (_get_entry p (id server)) (id server) = None).
  { unfold _get_entry, cached_client, entry_of in *.
    destruct (_entries p !! id server) eqn:E; [now rewrite E|].
    unfold set_entry, with_entries. cbn. now rewrite lookup_insert_eq. }
  assert (Hn : connects (_get_entry p (id server)) = connects p).
  { unfold _get_entry. now destruct (_entries p !! id server). }
  pose proof (ensure_reconnects_once w server (_get_entry p (id server))) as Hone.
  rewrite Hn in Hone. rewrite <- Hone by (intros c Hcc; congruence).
  destruct (_ensure_connected_locked w server (_get_entry p (id server))) as [[e|c] p'].
  - cbn [snd]. unfold on_exception. cbn zeta.
    destruct (client (entry_of p' (id server))); reflexivity.
  - rewrite call_with_detail_raises. cbn [snd]. unfold on_exception. cbn zeta.
    destruct (client (entry_of p' (id server))); reflexivity.
Qed.

(** C2 fails on the code: every [collect] ends with the entry's client
    unset and an error snapshot, so the second of two consecutive calls
    makes a connection attempt however healthy the session of the first
    was. *)
Theorem consecutive_collects_reconnect (w : World) (server : Server) (detail : text)
    (p : SSHClientPool) :
  let first := collect w server detail p in
  let second := collect w server detail (snd first) in
  cached_client (snd first) (id server) = None /\
  (exists message, fst first = Return (build_error_stats server message)) /\
  connects (snd second) = connects (snd first) ++ [server].
Proof.
  cbn zeta. destruct (collect_drops_client w server detail p) as [H1 H2].
  split; [exact H1|]. split; [exact H2|]. now apply collect_connects.
Qed.

(** On a healthy host: two calls, two connections, two closed clients. *)
Lemma healthy_collects_reconnect :
  let first := collect healthy_world sample_server (py "full") empty_pool in
  let second := collect healthy_world sample_server (py "full") (snd first) in
  connects (snd second) = [sample_server; sample_server] /\
  closed (snd second) = [0%nat; 1%nat] /\
  fst second = Return (build_error_stats sample_server
    (py "collect_stats() got an unexpected keyword argument 'detail'")).
Proof. vm_compute. repeat split. Qed.
End PoolFacts.

(** ** The stats collector *)

Section CollectorFacts.
Import Servers Models Ssh.

(** An element of the listing that is not a dict makes the loop raise:
    the guards cover [pm2_env] and [monit], not [proc.get("pm_id")]. *)
Lemma pm2_process_non_dict (lib : PyLib) (proc : Json) :
  is_dict proc = false ->
  pm2_process lib proc
  = Raise (AttributeError (py "'" ++ type_name proc ++ py "' object has no attribute 'get'")).
Proof.
  intros H. destruct proc; try discriminate H; reflexivity.
Qed.

(** C4 fails on the code: on a live session whose process listing prints
    the array [[1]], [collect_stats] raises [AttributeError] instead of
    returning a snapshot. *)
Theorem collect_stats_raises_on_number (lib : PyLib) :
  raw_decode lib (py "[1]") = Return (JArr [JInt 1]) ->
  fst (collect_stats lib numbers_session sample_server [])
  = Raise (AttributeError (py "'int' object has no attribute 'get'")).
Proof.
  intros H. vm_compute in H.
  unfold collect_stats, fetch_cpu, fetch_memory, fetch_uptime, fetch_disk, collect_pm2,
    fetch_pm2_details, pm2_request, run_command, mbind, ret, lift, numbers_session.
  cbn -[py strip build_pm2_script usage_script].
  vm_compute. rewrite H. reflexivity.
Qed.

Lemma collect_stats_raises_on_number_witness :
  fst (collect_stats sample_lib numbers_session sample_server [])
  = Raise (AttributeError (py "'int' object has no attribute 'get'")).
Proof.
  apply (collect_stats_raises_on_number sample_lib). reflexivity.
Defined.
End CollectorFacts.

Section EscalationFacts.
Import Servers Models Ssh.

Lemma pm2_request_sudo (lib : PyLib) (sess : Session) (u pw : text) (home : option text)
    (log : Log) :
  u <> [] -> pw <> [] ->
  pm2_request lib sess (Some u) home (Some pw) log
  = run_sudo_command lib sess (build_pm2_script lib home) pw u true log.
Proof.
  intros Hu Hpw. destruct u; [contradiction|]. destruct pw; [contradiction|]. reflexivity.
Qed.

(** A listing makes one exec, whatever comes of it. *)
Lemma fetch_pm2_details_sudo_log (lib : PyLib) (sess : Session) (u pw : text)
    (home : option text) (log : Log) :
  u <> [] -> pw <> [] ->
  snd (fetch_pm2_details lib sess (Some u) home (Some pw) log)
  = log ++ [sudo_exec lib (build_pm2_script lib home) pw u true].
Proof.
  intros Hu Hpw. unfold fetch_pm2_details, mbind at 1.
  rewrite pm2_request_sudo by assumption. unfold run_sudo_command.
  unfold mbind, lift.
  match goal with |- context [bind ?r ?k] => destruct (bind r k) as [e|[payload|]] end.
  - reflexivity.
  - destruct (pm2_processes lib _ 0 []) as [e|[t d]]; reflexivity.
  - reflexivity.
Qed.

Lemma mbind_log {A B : Type} (m : M A) (k : A -> M B) (log : Log) :
  (forall a l, snd (k a l) = l) -> snd (mbind m k log) = snd (m log).
Proof.
  intros Hk. unfold mbind. destruct (m log) as [[e|a] log']; [reflexivity | apply Hk].
Qed.

(** C6: when the first supervisor status carries a permission-denied
    signature, [fetch_supervisor] as [collect_stats] calls it makes that
    exec and then exactly one escalated exec if the server has a non-empty
    password and its login user is not root, and no further exec
    otherwise; and when the first process listing reports an error, the
    process-manager part of [collect_stats] makes after it exactly one
    further listing, escalated, under the same condition, and no further
    exec otherwise. An escalated exec runs the command through a login
    shell under [sudo -S -u root], on a pseudo-terminal, with the password
    and a line feed written to its stdin. *)
Theorem escalation_retry_policy (lib : PyLib) (sess : Session) (server : Server) (log : Log) :
  let escalated (cmd pw : text) : Exec :=
    {| command :=
         py "stty -echo >/dev/null 2>&1 || true; "
         ++ (py "sudo -S -p '' -u " ++ shlex_quote lib (py "root")
             ++ py " /bin/sh -c " ++ shlex_quote lib (py "bash -lc " ++ shlex_quote lib cmd))
         ++ py "; " ++ py "status=$?; " ++ py "stty echo >/dev/null 2>&1 || true; "
         ++ py "exit $status";
       get_pty := true;
       stdin := Some (pw ++ [LF]) |} in
  (permission_denied (supervisor_joined (supervisor_first lib sess log)) = true ->
   snd (fetch_supervisor lib sess (escalation_password server) (user server) log)
   = log ++ [supervisor_exec lib]
     ++ retry_execs server (escalated (py "supervisorctl status || true")))
  /\
  (forall info message log1,
     fetch_pm2_details lib sess (pm2_user server) (pm2_home server)
       (escalation_password server) log = (Return (info, message), log1) ->
     truthy (pm2_error info) = true ->
     snd (collect_pm2 lib sess server log)
     = log1 ++ retry_execs server (escalated (build_pm2_script lib (fallback_home server)))).
Proof.
  intros escalated.
  assert (Hesc : forall cmd pw, sudo_exec lib cmd pw (py "root") true = escalated cmd pw)
    by reflexivity.
  split.
  - intros Hden. unfold fetch_supervisor, mbind, run_command at 1.
    fold (supervisor_exec lib). fold (supervisor_first lib sess log).
    rewrite Hden. cbn [orb andb].
    unfold escalation_password, retry_execs.
    destruct (negb (text_eqb (user server) (py "root"))) eqn:Eu.
    + destruct (password server) as [[|c pw]|].
      * unfold lift. cbn [snd]. reflexivity.
      * unfold run_sudo_command, lift. cbn [snd]. rewrite Hesc. now rewrite <- app_assoc.
      * unfold lift. cbn [snd]. reflexivity.
    + destruct (password server) as [[|c pw]|]; unfold lift; reflexivity.
  - intros info message log1 Hfirst Herr. unfold collect_pm2, mbind at 1.
    rewrite Hfirst. rewrite Herr. cbn [andb]. unfold retry_execs.
    destruct (password server) as [[|c pw]|]; cbn [truthy andb].
    + unfold ret. cbn [snd]. now rewrite app_nil_r.
    + destruct (negb (text_eqb (user server) (py "root"))).
      * rewrite mbind_log by (intros [? ?] ?; reflexivity).
        rewrite <- Hesc. apply fetch_pm2_details_sudo_log; discriminate.
      * unfold ret. cbn [snd]. now rewrite app_nil_r.
    + unfold ret. cbn [snd]. now rewrite app_nil_r.
Qed.
End EscalationFacts.

Section CollectorExamples.
Import Servers Models Ssh.

Lemma escalation_retry_policy_witness :
  snd (fetch_supervisor sample_lib denied_session (escalation_password sample_server_b)
         (user sample_server_b) [])
  = [supervisor_exec sample_lib;
     {| command :=
          py "stty -echo >/dev/null 2>&1 || true; "
          ++ py "sudo -S -p '' -u 'root' /bin/sh -c "
          ++ py "'bash -lc 'supervisorctl status || true''; "
          ++ py "status=$?; stty echo >/dev/null 2>&1 || true; exit $status";
        get_pty := true;
        stdin := Some (py "hunter2" ++ [LF]) |}]
  /\
  snd (collect_pm2 sample_lib denied_session sample_server_b [])
  = snd (fetch_pm2_details sample_lib denied_session None None (Some (py "hunter2")) [])
    ++ [{| command :=
             py "stty -echo >/dev/null 2>&1 || true; "
             ++ py "sudo -S -p '' -u 'root' /bin/sh -c 'bash -lc '"
             ++ py "set -o pipefail; [ -f ~/.bashrc ] && . ~/.bashrc >/dev/null 2>&1; "
             ++ py "[ -f ~/.profile ] && . ~/.profile >/dev/null 2>&1; "
             ++ py "[ -s ~/.nvm/nvm.sh ] && . ~/.nvm/nvm.sh >/dev/null 2>&1; "
             ++ py "PM2_HOME='/root/.pm2' pm2 jlist''; "
             ++ py "status=$?; stty echo >/dev/null 2>&1 || true; exit $status";
           get_pty := true;
           stdin := Some (py "hunter2" ++ [LF]) |}].
Proof.
  destruct (escalation_retry_policy sample_lib denied_session sample_server_b []) as [H1 H2].
  split.
  - rewrite H1 by (vm_compute; reflexivity). vm_compute. reflexivity.
  - eapply eq_trans; [eapply H2; [vm_compute; reflexivity | reflexivity] |].
    vm_compute. reflexivity.
Defined.

(** As root, or without a password, nothing is retried. *)
Lemma no_retry_as_root :
  snd (fetch_supervisor sample_lib denied_session (escalation_password sample_server)
         (user sample_server) [])
  = [supervisor_exec sample_lib] /\
  length (snd (collect_pm2 sample_lib denied_session sample_server [])) = 1%nat.
Proof. split; vm_compute; reflexivity. Qed.

(** Other inputs on which a pass raises: a memory line without a number,
    and an uptime that reads as NaN. *)
Lemma memory_line_raises (lib : PyLib) (acc : option Z * option Z) :
  memory_line lib acc (py "MemTotal:") = Raise (IndexError (py "list index out of range")).
Proof. destruct acc. reflexivity. Qed.

Lemma format_seconds_nan_raises :
  Format.format_seconds (Some NaN)
  = Raise (ValueError (py "cannot convert float NaN to integer")).
Proof. reflexivity. Qed.
End CollectorExamples.

(** ** Further properties: the hub *)

Section HubMessageFacts.
Import Hub HubOps.

Lemma normalize_interval_returns (v : Json) (x : PyFloat) :
  _normalize_interval v = Return x ->
  exists q, x = Fin q /\ (MIN_INTERVAL_S <= q <= MAX_INTERVAL_S)%Q.
Proof.
  unfold _normalize_interval.
  destruct v as [| b | z | [y| | |] | s | l | f]; cbn [is_int_or_float div_1000 bind].
  - intros H. injection H as <-. exists DEFAULT_INTERVAL_S. split; [reflexivity | split; discriminate].
  - rewrite clamp_min_max. intros H. injection H as <-. eexists. split; [reflexivity | apply clamp_bounds].
  - unfold float_of_int. destruct (Z.abs z <? float_int_limit); cbn [bind]; [|discriminate].
    rewrite clamp_min_max. intros H. injection H as <-. eexists. split; [reflexivity | apply clamp_bounds].
  - rewrite clamp_min_max. intros H. injection H as <-. eexists. split; [reflexivity | apply clamp_bounds].
  - intros H. injection H as <-. exists MAX_INTERVAL_S. split; [reflexivity | split; discriminate].
  - intros H. injection H as <-. exists MIN_INTERVAL_S. split; [reflexivity | split; discriminate].
  - intros H. injection H as <-. exists MAX_INTERVAL_S. split; [reflexivity | split; discriminate].
  - intros H. injection H as <-. exists DEFAULT_INTERVAL_S. split; [reflexivity | split; discriminate].
  - intros H. injection H as <-. exists DEFAULT_INTERVAL_S. split; [reflexivity | split; discriminate].
  - intros H. injection H as <-. exists DEFAULT_INTERVAL_S. split; [reflexivity | split; discriminate].
Qed.

(** X1: whatever value the message carries, [_normalize_interval] either
    returns a finite number of seconds between 3 and 60, or raises
    [OverflowError], and it raises only for an [int] of magnitude beyond
    the range of a double. *)
Theorem normalize_interval_total (v : Json) :
  (exists q, _normalize_interval v = Return (Fin q) /\
             (MIN_INTERVAL_S <= q <= MAX_INTERVAL_S)%Q) \/
  (exists z, v = JInt z /\ float_int_limit <= Z.abs z /\
             _normalize_interval v
             = Raise (OverflowError (py "int too large to convert to float"))).
Proof.
  destruct (_normalize_interval v) as [e|x] eqn:E.
  - right. unfold _normalize_interval in E.
    destruct v as [| b | z | [y| | |] | s | l | f];
      cbn [is_int_or_float div_1000 bind] in E; try discriminate E.
    unfold float_of_int in E.
    destruct (Z.ltb_spec (Z.abs z) float_int_limit) as [Hlt|Hge]; cbn [bind] in E;
      [discriminate E|].
    exists z. injection E as <-. auto.
  - left. destruct (normalize_interval_returns v x E) as (q & -> & Hq). now exists q.
Qed.

Lemma lower_char_idempotent (c : char) : lower_char (lower_char c) = lower_char c.
Proof.
  unfold lower_char.
  destruct ((65 <=? c) && (c <=? 90) || (192 <=? c) && (c <=? 222) && negb (c =? 215))%N eqn:E;
    [|now rewrite E].
  match goal with |- (if ?b then _ else _) = _ => destruct b eqn:E' end; [|reflexivity].
  exfalso.
  repeat match goal with
  | H : (_ || _)%bool = true |- _ => apply orb_true_iff in H as [H|H]
  | H : (_ && _)%bool = true |- _ => apply andb_true_iff in H as [? ?]
  | H : (_ <=? _)%N = true |- _ => apply N.leb_le in H
  | H : negb _ = true |- _ => clear H
  end; lia.
Qed.

Lemma lower_idempotent (s : text) : lower (lower s) = lower s.
Proof.
  unfold lower. rewrite List.map_map. apply List.map_ext. exact lower_char_idempotent.
Qed.

(** X2: [_normalize_detail] reads back the two level names it produces,
    does not tell a string from its lower-case form, and maps every value
    that is not a string to summary. *)
Theorem normalize_detail_spec (d : Detail) (s : text) (v : Json) :
  _normalize_detail (JStr (detail_text d)) = d /\
  _normalize_detail (JStr (lower s)) = _normalize_detail (JStr s) /\
  (match v with JStr _ => True | _ => _normalize_detail v = Summary end).
Proof.
  split; [now destruct d|]. split.
  - cbn [_normalize_detail]. now rewrite lower_idempotent.
  - now destruct v.
Qed.




End HubMessageFacts.

Section HubSubscriptionFacts.
Import Hub HubOps.

Lemma subscription_set_subs (m : gmap text (gmap WebSocket Subscription)) (h : RealtimeHub)
    (sid : text) (ws : WebSocket) :
  subscription (set_subs m h) sid ws = m !! sid ≫= (fun subs => subs !! ws).
Proof. reflexivity. Qed.

(** X4: after [_subscribe_server] the socket holds the new subscription
    for that server, replacing any earlier one; every other subscription,
    the cache and the in-flight set are as before; the cached payload is
    sent at once exactly when the cache entry of the server has the
    requested detail level; and no server is left without a subscriber if
    none was before. *)
Theorem subscribe_server_spec (h : RealtimeHub) (ws : WebSocket) (server_id : text)
    (interval : Q) (d : Detail) :
  let h' := fst (_subscribe_server h ws server_id interval d) in
  let sent := snd (_subscribe_server h ws server_id interval d) in
  subscription h' server_id ws = Some {| interval_s := interval; detail := d |} /\
  (forall sid' ws', (sid' <> server_id \/ ws' <> ws) ->
                    subscription h' sid' ws' = subscription h sid' ws') /\
  _cache h' = _cache h /\ _in_flight h' = _in_flight h /\
  (forall p, sent = Some p <->
             exists c, _cache h !! server_id = Some c /\ cache_detail c = d /\ payload c = p) /\
  (no_empty_subs h -> no_empty_subs h').
Proof.
  cbn zeta. unfold _subscribe_server. cbn [fst snd].
  split; [|split; [|split; [|split; [|split]]]].
  - rewrite subscription_set_subs, lookup_insert_eq. cbn. now rewrite lookup_insert_eq.
  - intros sid' ws' Hne. rewrite subscription_set_subs. unfold subscription.
    destruct (decide (sid' = server_id)) as [->|Hs].
    + rewrite lookup_insert_eq. cbn.
      destruct Hne as [Hne|Hne]; [contradiction|].
      rewrite lookup_insert_ne by congruence.
      destruct (_server_subs h !! server_id); [reflexivity | apply lookup_empty].
    + now rewrite lookup_insert_ne by congruence.
  - reflexivity.
  - reflexivity.
  - intros p. destruct (_cache h !! server_id) as [c|].
    + destruct (detail_eqb (cache_detail c) d) eqn:E.
      * split.
        -- intros H. injection H as <-. exists c. split; [reflexivity|]. split; [|reflexivity].
           now destruct (cache_detail c), d.
        -- intros (c' & Hc & _ & Hp). injection Hc as <-. now rewrite Hp.
      * split; [discriminate|]. intros (c' & Hc & Hd & _). injection Hc as <-.
        rewrite Hd in E. now destruct d.
    + split; [discriminate|]. intros (c' & Hc & _). discriminate.
  - intros Hinv sid subs. unfold set_subs. cbn [_server_subs].
    destruct (decide (sid = server_id)) as [->|Hs].
    + rewrite lookup_insert_eq. intros H. injection H as <-. apply insert_non_empty.
    + rewrite lookup_insert_ne by congruence. apply Hinv.
Qed.

(** X5: after [_unsubscribe_server] the socket has no subscription for
    that server, every other subscription is as before, and no server is
    left without a subscriber if none was before. *)
Theorem unsubscribe_server_spec (h : RealtimeHub) (ws : WebSocket) (server_id : text) :
  let h' := _unsubscribe_server h ws server_id in
  subscription h' server_id ws = None /\
  (forall sid' ws', (sid' <> server_id \/ ws' <> ws) ->
                    subscription h' sid' ws' = subscription h sid' ws') /\
  _cache h' = _cache h /\ _in_flight h' = _in_flight h /\
  (no_empty_subs h -> no_empty_subs h').
Proof.
  cbn zeta. unfold _unsubscribe_server.
  destruct (_server_subs h !! server_id) as [subs|] eqn:E.
  - destruct (bool_decide_reflect (delete ws subs = ∅)) as [Hempty|Hne].
    + split; [|split; [|split; [|split]]]; try reflexivity.
      * rewrite subscription_set_subs. now rewrite lookup_delete_eq.
      * intros sid' ws' Hd. rewrite subscription_set_subs. unfold subscription.
        destruct (decide (sid' = server_id)) as [->|Hs].
        -- rewrite lookup_delete_eq, E. cbn. destruct Hd as [Hd|Hd]; [contradiction|].
           rewrite <- (lookup_delete_ne subs ws ws') by congruence.
           now rewrite Hempty, lookup_empty.
        -- now rewrite lookup_delete_ne by congruence.
      * intros Hinv sid subs'. unfold set_subs. cbn [_server_subs].
        intros H. apply lookup_delete_Some in H as [_ H]. now apply (Hinv sid).
    + split; [|split; [|split; [|split]]]; try reflexivity.
      * rewrite subscription_set_subs, lookup_insert_eq. cbn. apply lookup_delete_eq.
      * intros sid' ws' Hd. rewrite subscription_set_subs. unfold subscription.
        destruct (decide (sid' = server_id)) as [->|Hs].
        -- rewrite lookup_insert_eq, E. cbn. destruct Hd as [Hd|Hd]; [contradiction|].
           now rewrite lookup_delete_ne by congruence.
        -- now rewrite lookup_insert_ne by congruence.
      * intros Hinv sid subs'. unfold set_subs. cbn [_server_subs].
        destruct (decide (sid = server_id)) as [->|Hs].
        -- rewrite lookup_insert_eq. intros H. now injection H as <-.
        -- rewrite lookup_insert_ne by congruence. apply Hinv.
  - split; [|split; [|split; [|split]]]; try reflexivity; try tauto.
    unfold subscription. now rewrite E.
Qed.

(** X6: unsubscribing undoes a subscription: for a socket that was not
    subscribed to the server, in a hub that keeps no server without
    subscribers, subscribing and then unsubscribing gives the hub back. *)
Theorem subscribe_unsubscribe (h : RealtimeHub) (ws : WebSocket) (server_id : text)
    (interval : Q) (d : Detail) :
  no_empty_subs h -> subscription h server_id ws = None ->
  _unsubscribe_server (fst (_subscribe_server h ws server_id interval d)) ws server_id = h.
Proof.
  intros Hinv Hnone. unfold _subscribe_server, _unsubscribe_server. cbn [fst].
  unfold set_subs at 1. cbn [_server_subs]. rewrite lookup_insert_eq.
  unfold subscription in Hnone. destruct h as [subs cache infl]. cbn [_server_subs] in *.
  destruct (subs !! server_id) as [m|] eqn:E; cbn in Hnone |- *.
  - rewrite delete_insert_id by exact Hnone.
    rewrite bool_decide_eq_false_2 by (now apply (Hinv server_id)).
    unfold set_subs. cbn. f_equal. rewrite insert_insert_eq. now apply insert_id.
  - rewrite delete_insert_id by apply lookup_empty.
    rewrite bool_decide_eq_true_2 by reflexivity.
    unfold set_subs. cbn. f_equal. now apply delete_insert_id.
Qed.
End HubSubscriptionFacts.

Section HubDeliveryFacts.
Import Hub HubOps.

Lemma drop_socket_lookup (ws : WebSocket) (h : RealtimeHub) (sid : text) :
  _server_subs (drop_socket ws h) !! sid
  = match _server_subs h !! sid with
    | Some subs => if decide (delete ws subs = ∅) then None else Some (delete ws subs)
    | None => None
    end.
Proof.
  unfold drop_socket, set_subs. cbn [_server_subs].
  destruct (_server_subs h !! sid) as [subs|] eqn:E.
  - destruct (decide (delete ws subs = ∅)) as [Hempty|Hne].
    + apply map_lookup_filter_None. right. intros x Hx.
      rewrite lookup_fmap, E in Hx. cbn in Hx. injection Hx as <-. cbn. now intros H.
    + apply map_lookup_filter_Some. split; [|exact Hne].
      now rewrite lookup_fmap, E.
  - apply map_lookup_filter_None. left. now rewrite lookup_fmap, E.
Qed.

Lemma drop_socket_subscription (ws : WebSocket) (h : RealtimeHub) (sid : text)
    (ws' : WebSocket) :
  subscription (drop_socket ws h) sid ws'
  = if decide (ws' = ws) then None else subscription h sid ws'.
Proof.
  unfold subscription. rewrite drop_socket_lookup.
  destruct (_server_subs h !! sid) as [subs|]; cbn.
  - destruct (decide (delete ws subs = ∅)) as [Hempty|Hne]; cbn.
    + destruct (decide (ws' = ws)) as [->|Hw]; [reflexivity|].
      rewrite <- (lookup_delete_ne subs ws ws') by congruence.
      now rewrite Hempty, lookup_empty.
    + destruct (decide (ws' = ws)) as [->|Hw]; [apply lookup_delete_eq|].
      now rewrite lookup_delete_ne by congruence.
  - now destruct (decide (ws' = ws)).
Qed.

Lemma drop_socket_no_empty (ws : WebSocket) (h : RealtimeHub) :
  no_empty_subs (drop_socket ws h).
Proof.
  intros sid subs H. rewrite drop_socket_lookup in H.
  destruct (_server_subs h !! sid) as [subs0|]; [|discriminate].
  destruct (decide (delete ws subs0 = ∅)); [discriminate|]. now injection H as <-.
Qed.

(** X7: after [disconnect] the socket is no longer among the connections
    and has no subscription to any server; the subscriptions of every
    other socket, the cache and the in-flight set are as before; and no
    server is left without a subscriber. *)
Theorem disconnect_spec (s : HubState) (ws : WebSocket) :
  let s' := disconnect s ws in
  (ws ∉ _connections s') /\
  (forall ws', ws' <> ws -> (ws' ∈ _connections s' <-> ws' ∈ _connections s)) /\
  (forall sid, subscription (core s') sid ws = None) /\
  (forall sid ws', ws' <> ws ->
                   subscription (core s') sid ws' = subscription (core s) sid ws') /\
  _cache (core s') = _cache (core s) /\ _in_flight (core s') = _in_flight (core s) /\
  no_empty_subs (core s').
Proof.
  cbn zeta. unfold disconnect. cbn [core _connections].
  split; [set_solver|]. split; [set_solver|]. split.
  - intros sid. rewrite drop_socket_subscription. now rewrite decide_True.
  - split; [|split; [reflexivity|split; [reflexivity|apply drop_socket_no_empty]]].
    intros sid ws' Hne. rewrite drop_socket_subscription. now rewrite decide_False.
Qed.

Lemma fold_disconnect_subscription (failures : list WebSocket) (s : HubState)
    (sid : text) (ws : WebSocket) :
  subscription (core (fold_left disconnect failures s)) sid ws
  = if bool_decide (ws ∈ failures) then None else subscription (core s) sid ws.
Proof.
  revert s. induction failures as [|f fs IH]; intros s; cbn [fold_left].
  - rewrite bool_decide_eq_false_2 by apply not_elem_of_nil. reflexivity.
  - rewrite IH. cbn [disconnect core]. rewrite drop_socket_subscription.
    destruct (bool_decide_reflect (ws ∈ fs)) as [Hin|Hout].
    + rewrite bool_decide_eq_true_2 by (apply elem_of_cons; now right). reflexivity.
    + destruct (decide (ws = f)) as [->|Hne].
      * rewrite bool_decide_eq_true_2 by (apply elem_of_cons; now left). reflexivity.
      * rewrite bool_decide_eq_false_2; [reflexivity|].
        intros [->|H]%elem_of_cons; contradiction.
Qed.

Lemma fold_disconnect_connections (failures : list WebSocket) (s : HubState)
    (ws : WebSocket) :
  ws ∈ _connections (fold_left disconnect failures s)
  <-> ws ∈ _connections s /\ ws ∉ failures.
Proof.
  revert s. induction failures as [|f fs IH]; intros s; cbn [fold_left].
  - split; [intros H; split; [exact H | apply not_elem_of_nil] | tauto].
  - rewrite IH. cbn [disconnect _connections]. rewrite not_elem_of_cons. set_solver.
Qed.

(** X8: [_broadcast] attempts a send to each subscriber of the server once,
    a failure stopping none of the others; afterwards a socket whose send
    failed has no subscription to any server and is no longer connected,
    and the subscriptions of every other socket are as before. *)
Theorem broadcast_spec (send_ok : WebSocket -> bool) (s : HubState) (server_id : text) :
  let s' := fst (_broadcast send_ok s server_id) in
  let attempts := snd (_broadcast send_ok s server_id) in
  NoDup attempts /\
  (forall ws, ws ∈ attempts <-> is_Some (subscription (core s) server_id ws)) /\
  (forall ws sid, ws ∈ attempts -> send_ok ws = false ->
                  subscription (core s') sid ws = None /\ ws ∉ _connections s') /\
  (forall ws sid, (ws ∈ attempts -> send_ok ws = true) ->
                  subscription (core s') sid ws = subscription (core s) sid ws /\
                  (ws ∈ _connections s' <-> ws ∈ _connections s)).
Proof.
  cbn zeta. unfold _broadcast. cbn [fst snd].
  set (subs := default ∅ (_server_subs (core s) !! server_id)).
  assert (Hfail : forall ws, ws ∈ List.filter (fun ws => negb (send_ok ws)) (map_to_list subs).*1
                             <-> ws ∈ (map_to_list subs).*1 /\ send_ok ws = false).
  { intros ws. rewrite !list_elem_of_In, filter_In, negb_true_iff. reflexivity. }
  split; [apply NoDup_fst_map_to_list|]. split; [|split].
  - intros ws. rewrite list_elem_of_fmap. unfold subscription, subs. split.
    + intros ([ws' sub] & -> & Hin). apply elem_of_map_to_list in Hin. cbn.
      destruct (_server_subs (core s) !! server_id) as [m|]; cbn in *; [eauto|].
      now rewrite lookup_empty in Hin.
    + intros [sub Hsub]. exists (ws, sub). split; [reflexivity|].
      apply elem_of_map_to_list.
      destruct (_server_subs (core s) !! server_id) as [m|]; cbn in *; [exact Hsub | discriminate].
  - intros ws sid Hin Hbad. split.
    + rewrite fold_disconnect_subscription. rewrite bool_decide_eq_true_2; [reflexivity|].
      apply Hfail. auto.
    + rewrite fold_disconnect_connections. intros [_ Hout]. apply Hout. apply Hfail. auto.
  - intros ws sid Hok.
    assert (Hout : ws ∉ List.filter (fun ws => negb (send_ok ws)) (map_to_list subs).*1).
    { intros [Hin Hbad]%Hfail. specialize (Hok Hin). congruence. }
    split.
    + rewrite fold_disconnect_subscription. now rewrite bool_decide_eq_false_2.
    + rewrite fold_disconnect_connections. tauto.
Qed.
End HubDeliveryFacts.

Section TickInFlightFacts.
Import Hub HubOps.

Lemma tick_fold_in_flight (now : Q) (cache : gmap text CacheEntry)
    (items : list (text * list Subscription)) (F : gset text) (T : list (text * Detail)) :
  exists new,
    snd (fold_left (tick_step now cache) items (F, T)) = T ++ new /\
    (forall sid, sid ∈ fst (fold_left (tick_step now cache) items (F, T))
                 <-> sid ∈ F \/ In sid (List.map fst new)) /\
    List.NoDup (List.map fst new) /\
    (forall sid, In sid (List.map fst new) -> sid ∉ F).
Proof.
  revert F T. induction items as [|[sid0 subs0] rest IH]; intros F T; cbn [fold_left].
  - exists []. rewrite app_nil_r. cbn. split; [reflexivity|]. split; [tauto|].
    split; [constructor | tauto].
  - unfold tick_step at 2 4.
    destruct (due now subs0 (cache !! sid0)); [|apply IH].
    destruct (bool_decide_reflect (sid0 ∈ F)) as [Hin|Hout]; [apply IH|].
    destruct (IH ({[sid0]} ∪ F) (T ++ [(sid0, active_detail subs0)]))
      as (new & Hsnd & Hfst & Hnd & Hfresh).
    exists ((sid0, active_detail subs0) :: new). split; [|split; [|split]].
    + rewrite Hsnd. now rewrite <- app_assoc.
    + intros sid. rewrite Hfst. cbn [List.map fst In]. set_solver.
    + cbn [List.map fst]. constructor; [|exact Hnd].
      intros Hin. apply Hfresh in Hin. set_solver.
    + intros sid [<-|Hin]; [exact Hout|]. apply Hfresh in Hin. set_solver.
Qed.

(** X9: a tick changes neither the subscriptions nor the cache; the
    servers it dispatches a refresh for were not in flight before, are in
    flight afterwards, and are dispatched once each; and nothing else
    joins or leaves the in-flight set. *)
Theorem tick_in_flight (now : Q) (h : RealtimeHub) :
  let h' := fst (_tick now h) in
  let tasks := snd (_tick now h) in
  _server_subs h' = _server_subs h /\ _cache h' = _cache h /\
  (forall sid, sid ∈ _in_flight h' <-> sid ∈ _in_flight h \/ In sid (List.map fst tasks)) /\
  List.NoDup (List.map fst tasks) /\
  (forall sid, In sid (List.map fst tasks) -> sid ∉ _in_flight h).
Proof.
  cbn zeta. unfold _tick.
  destruct (tick_fold_in_flight now (_cache h) (subs_snapshot h) (_in_flight h) [])
    as (new & Hsnd & Hfst & Hnd & Hfresh).
  destruct (fold_left _ _ _) as [F T]. cbn [fst snd app] in *. subst T.
  cbn [_server_subs _cache _in_flight]. auto.
Qed.
End TickInFlightFacts.

(** ** Further properties: the session pool *)

Section PoolMoreFacts.
Import Servers Models Ssh Pool PoolOps.

Lemma entry_of_set_entry_ne (p : SSHClientPool) (sid sid' : text) (e : _Entry) :
  sid' <> sid -> entry_of (set_entry sid e p) sid' = entry_of p sid'.
Proof.
  intros Hne. unfold entry_of, set_entry, with_entries. cbn.
  now rewrite lookup_insert_ne by congruence.
Qed.

Lemma entry_of_get_entry (p : SSHClientPool) (sid sid' : text) :
  entry_of (_get_entry p sid) sid' = entry_of p sid'.
Proof.
  unfold _get_entry. destruct (_entries p !! sid) eqn:E; [reflexivity|].
  destruct (decide (sid' = sid)) as [->|Hne].
  - rewrite entry_of_set_entry. unfold entry_of. now rewrite E.
  - now apply entry_of_set_entry_ne.
Qed.

Lemma get_entry_histories (p : SSHClientPool) (sid : text) :
  connects (_get_entry p sid) = connects p /\ closed (_get_entry p sid) = closed p.
Proof. unfold _get_entry. now destruct (_entries p !! sid). Qed.

(** What [_ensure_connected_locked] does, case by case. *)
Lemma ensure_locked_cases (w : World) (server : Server) (p : SSHClientPool) :
  let r := _ensure_connected_locked w server p in
  (exists c, cached_client p (id server) = Some c /\ transport_active w c = true /\
             r = (Return c, p)) \/
  ((forall c, cached_client p (id server) = Some c -> transport_active w c = false) /\
   connects (snd r) = connects p ++ [server] /\
   closed (snd r) = closed p ++ match cached_client p (id server) with
                                | Some c => [c] | None => [] end /\
   (forall sid, sid <> id server -> entry_of (snd r) sid = entry_of p sid) /\
   match connect_failure w (length (connects p)) server with
   | Some e => fst r = Raise e /\
               entry_of (snd r) (id server)
               = {| client := None; last_error := last_error (entry_of p (id server)) |}
   | None => fst r = Return (length (connects p)) /\
             entry_of (snd r) (id server)
             = {| client := Some (length (connects p)); last_error := None |}
   end).
Proof.
  cbn zeta. unfold cached_client, _ensure_connected_locked, _is_active, _connect.
  destruct (entry_of p (id server)) as [[c|] err] eqn:E; cbn [client last_error].
  - destruct (transport_active w c) eqn:Ea.
    + left. exists c. auto.
    + right. split; [intros c' Hc'; now injection Hc' as <-|].
      cbn [connects close set_entry with_entries closed].
      destruct (connect_failure w (length (connects p)) server) as [e|]; cbn [fst snd];
        (split; [reflexivity|]; split; [reflexivity|]; split;
         [intros sid Hne; unfold entry_of; cbn;
          now rewrite ?lookup_insert_ne by congruence
         |split; [reflexivity|]; unfold entry_of; cbn; now rewrite lookup_insert_eq]).
  - right. split; [discriminate|].
    destruct (connect_failure w (length (connects p)) server) as [e|];
      cbn [fst snd connects closed set_entry with_entries]; rewrite app_nil_r.
    + split; [reflexivity|]. split; [reflexivity|]. split; [reflexivity|].
      split; [reflexivity|]. exact E.
    + split; [reflexivity|]. split; [reflexivity|]. split.
      * intros sid Hne. unfold entry_of. cbn. now rewrite lookup_insert_ne by congruence.
      * split; [reflexivity|]. unfold entry_of. cbn. now rewrite lookup_insert_eq.
Qed.
End PoolMoreFacts.

Section PoolInvariant.
Import Servers Models Ssh Pool PoolOps.

Lemma NoDup_snoc {A : Type} (l : list A) (x : A) :
  List.NoDup l -> ~ In x l -> List.NoDup (l ++ [x]).
Proof.
  induction l as [|a l IH]; intros Hnd Hx; cbn.
  - constructor; [intros [] | constructor].
  - inversion Hnd as [|? ? Ha Hl]; subst. constructor.
    + rewrite in_app_iff. intros [H | [<- | []]]; [contradiction|]. apply Hx. now left.
    + apply IH; [exact Hl|]. intros H. apply Hx. now right.
Qed.

(** A step that touches one server keeps the clients in order when it
    only drops the cached client of that server, keeps it, or replaces it
    by the client of a new connection attempt. *)
Lemma pool_ok_step (p p' : SSHClientPool) (sid : text) (dropped : list Client) :
  pool_ok p ->
  (forall sid', sid' <> sid -> cached_client p' sid' = cached_client p sid') ->
  (length (connects p) <= length (connects p'))%nat ->
  closed p' = closed p ++ dropped ->
  (dropped = [] \/ exists c, dropped = [c] /\ cached_client p sid = Some c) ->
  (cached_client p' sid = None \/
   (cached_client p' sid = cached_client p sid /\ dropped = []) \/
   (cached_client p' sid = Some (length (connects p)) /\
    (length (connects p) < length (connects p'))%nat)) ->
  pool_ok p'.
Proof.
  intros (Hc & Hcl & Hinj & Hnd) Hother Hlen Hclosed Hdrop Hnew.
  assert (Hin : forall c, In c (closed p') ->
                          In c (closed p) \/ cached_client p sid = Some c /\ dropped = [c]).
  { intros c. rewrite Hclosed, in_app_iff. intros [H|H]; [now left|].
    destruct Hdrop as [->|(c0 & -> & Hc0)]; [destruct H|].
    destruct H as [<-|[]]. now right. }
  assert (Hcached : forall sid' c, cached_client p' sid' = Some c ->
            (cached_client p sid' = Some c /\ (sid' = sid -> dropped = [])) \/
            (sid' = sid /\ c = length (connects p) /\
             (length (connects p) < length (connects p'))%nat)).
  { intros sid' c H. destruct (decide (sid' = sid)) as [->|Hne].
    - destruct Hnew as [Hn | [[Hn Hd] | [Hn Hl]]]; [congruence | | ].
      + left. split; [congruence | auto].
      + right. split; [reflexivity|]. split; [congruence | exact Hl].
    - left. rewrite Hother in H by exact Hne. split; [exact H | contradiction]. }
  split; [|split; [|split]].
  - intros sid' c H. destruct (Hcached sid' c H) as [[Hold Hd] | (-> & -> & Hl)].
    + destruct (Hc sid' c Hold) as [Hlt Hnot]. split; [lia|].
      intros Hi. destruct (Hin c Hi) as [Hi' | [Hsame Hd']]; [contradiction|].
      assert (sid' = sid) as -> by (eapply Hinj; eauto).
      rewrite (Hd eq_refl) in Hd'. discriminate.
    + split; [exact Hl|]. intros Hi.
      destruct (Hin _ Hi) as [Hi' | [Hsame _]].
      * apply Hcl in Hi'. lia.
      * apply Hc in Hsame as [Hlt _]. lia.
  - intros c Hi. destruct (Hin c Hi) as [Hi' | [Hsame _]].
    + apply Hcl in Hi'. lia.
    + apply Hc in Hsame as [Hlt _]. lia.
  - intros s1 s2 c H1 H2.
    destruct (Hcached s1 c H1) as [[Ho1 _] | (E1 & Hc1 & _)],
             (Hcached s2 c H2) as [[Ho2 _] | (E2 & Hc2 & _)].
    + eapply Hinj; eauto.
    + subst c. apply Hc in Ho1 as [Hlt _]. lia.
    + subst c. apply Hc in Ho2 as [Hlt _]. lia.
    + congruence.
  - rewrite Hclosed. destruct Hdrop as [->|(c & -> & Hcc)]; [now rewrite app_nil_r|].
    apply NoDup_snoc; [exact Hnd|]. now apply Hc in Hcc as [_ Hnot].
Qed.

Lemma pool_ok_get_entry (p : SSHClientPool) (sid : text) :
  pool_ok p -> pool_ok (_get_entry p sid).
Proof.
  intros H. destruct (get_entry_histories p sid) as [H1 H2].
  apply (pool_ok_step p _ sid []); auto.
  - intros sid' _. unfold cached_client. now rewrite entry_of_get_entry.
  - rewrite H1. lia.
  - now rewrite H2, app_nil_r.
  - right. left. split; [|reflexivity]. unfold cached_client. now rewrite entry_of_get_entry.
Qed.

Lemma pool_ok_ensure_locked (w : World) (server : Server) (p : SSHClientPool) :
  pool_ok p -> pool_ok (snd (_ensure_connected_locked w server p)).
Proof.
  intros H.
  destruct (ensure_locked_cases w server p)
    as [(c & _ & _ & ->) | (_ & Hcon & Hclo & Hoth & Hnew)]; [exact H|].
  apply (pool_ok_step p _ (id server)
           (match cached_client p (id server) with Some c => [c] | None => [] end)); auto.
  - intros sid' Hne. unfold cached_client. now rewrite Hoth.
  - rewrite Hcon, length_app. lia.
  - destruct (cached_client p (id server)) as [c|]; [right; now exists c | now left].
  - destruct (connect_failure w (length (connects p)) server) as [e|];
      destruct Hnew as [_ Hnew]; unfold cached_client; rewrite Hnew; cbn [client].
    + now left.
    + right. right. split; [reflexivity|]. rewrite Hcon, length_app. cbn. lia.
Qed.

Lemma on_exception_cases (server : Server) (exc : Exn) (p : SSHClientPool) :
  let p' := snd (on_exception server exc p) in
  connects p' = connects p /\
  closed p' = closed p ++ match cached_client p (id server) with
                          | Some c => [c] | None => [] end /\
  (forall sid, sid <> id server -> entry_of p' sid = entry_of p sid) /\
  cached_client p' (id server) = None.
Proof.
  cbn zeta. unfold on_exception, cached_client. cbn zeta.
  destruct (client (entry_of p (id server))) as [c|] eqn:E; cbn [snd].
  - split; [reflexivity|]. split; [reflexivity|]. split.
    + intros sid Hne. unfold entry_of. cbn. now rewrite !lookup_insert_ne by congruence.
    + unfold entry_of. cbn. now rewrite lookup_insert_eq.
  - split; [reflexivity|]. split; [now rewrite app_nil_r|]. split.
    + intros sid Hne. unfold entry_of. cbn. now rewrite lookup_insert_ne by congruence.
    + unfold entry_of. cbn. rewrite lookup_insert_eq. reflexivity.
Qed.

Lemma pool_ok_on_exception (server : Server) (exc : Exn) (p : SSHClientPool) :
  pool_ok p -> pool_ok (snd (on_exception server exc p)).
Proof.
  intros H. destruct (on_exception_cases server exc p) as (Hcon & Hclo & Hoth & Hnone).
  apply (pool_ok_step p _ (id server)
           (match cached_client p (id server) with Some c => [c] | None => [] end)); auto.
  - intros sid' Hne. unfold cached_client. now rewrite Hoth.
  - rewrite Hcon. lia.
  - destruct (cached_client p (id server)) as [c|]; [right; now exists c | now left].
Qed.

Lemma pool_ok_register (servers : list Server) (p : SSHClientPool) :
  pool_ok p -> pool_ok (register_servers servers p).
Proof.
  revert p. induction servers as [|s l IH]; intros p H; [exact H|].
  apply IH. exact H.
Qed.

(** X10: the clients of the pool stay in order. In the empty pool, and
    after any [register_servers], [ensure_connected] or [collect] from a
    pool where it holds: every cached client was made by a connection
    attempt of the pool and has not been closed, no client is cached for
    two server ids, and no client has been closed twice. *)
Theorem pool_clients_in_order (w : World) (call : Client -> Server -> Result HostStats)
    (server : Server) (servers : list Server) (p : SSHClientPool) :
  pool_ok empty_pool /\
  (pool_ok p ->
   pool_ok (register_servers servers p) /\
   pool_ok (snd (ensure_connected w server p)) /\
   pool_ok (snd (collect_with w call server p))).
Proof.
  split.
  - unfold pool_ok, cached_client, entry_of. cbn. split; [|split; [|split]].
    + intros sid c. rewrite lookup_empty. discriminate.
    + intros c [].
    + intros s1 s2 c. rewrite lookup_empty. discriminate.
    + constructor.
  - intros H. split; [now apply pool_ok_register|]. split.
    + unfold ensure_connected. apply pool_ok_ensure_locked. now apply pool_ok_get_entry.
    + unfold collect_with, try_block.
      pose proof (pool_ok_ensure_locked w server _ (pool_ok_get_entry p (id server) H)) as H'.
      destruct (_ensure_connected_locked w server (_get_entry p (id server))) as [[e|c] p1];
        cbn [snd] in H'.
      * now apply pool_ok_on_exception.
      * destruct (call c server) as [e|stats]; [now apply pool_ok_on_exception | exact H'].
Qed.
End PoolInvariant.

Section PoolOutcomes.
Import Servers Models Ssh Pool PoolOps.

(** X11: when [ensure_connected] returns a client, that client is the one
    cached for the server afterwards; either it was already cached with an
    active transport and no connection attempt was made, or it is the
    client of the one connection attempt made, the entry's last error is
    cleared and the client cached before, if any, has been closed. *)
Theorem ensure_connected_success (w : World) (server : Server) (p : SSHClientPool) (c : Client) :
  fst (ensure_connected w server p) = Return c ->
  let p' := snd (ensure_connected w server p) in
  cached_client p' (id server) = Some c /\
  ((cached_client p (id server) = Some c /\ transport_active w c = true /\
    connects p' = connects p /\ closed p' = closed p) \/
   (c = length (connects p) /\ connects p' = connects p ++ [server] /\
    last_error (entry_of p' (id server)) = None /\
    forall c0, cached_client p (id server) = Some c0 ->
               transport_active w c0 = false /\ In c0 (closed p'))).
Proof.
  unfold ensure_connected. intros Hret. cbn zeta.
  destruct (get_entry_histories p (id server)) as [Hc Hcl].
  assert (Hcache : cached_client (_get_entry p (id server)) (id server)
                   = cached_client p (id server))
    by (unfold cached_client; now rewrite entry_of_get_entry).
  destruct (ensure_locked_cases w server (_get_entry p (id server)))
    as [(c' & Hcached & Hact & Heq) | (Hin & Hcon & Hclo & _ & Hnew)].
  - rewrite Heq in *. cbn [fst snd] in *. injection Hret as <-.
    split; [exact Hcached|]. left. rewrite <- Hcache. auto.
  - rewrite Hc in *. destruct (connect_failure w (length (connects p)) server) as [e|];
      destruct Hnew as [Hfst Hent]; [congruence|].
    rewrite Hfst in Hret. injection Hret as <-.
    split; [unfold cached_client; now rewrite Hent|]. right.
    split; [reflexivity|]. split; [exact Hcon|]. split; [now rewrite Hent|].
    intros c0 Hc0. rewrite <- Hcache in Hc0. split; [now apply Hin|].
    rewrite Hclo, Hc0. apply in_or_app. right. now left.
Qed.

(** X12: when [ensure_connected] raises, it raises what the one connection
    attempt raised; the server is left without a cached client, the client
    cached before, if any, has been closed, and the entry's last error is
    as it was. *)
Theorem ensure_connected_failure (w : World) (server : Server) (p : SSHClientPool) (e : Exn) :
  fst (ensure_connected w server p) = Raise e ->
  let p' := snd (ensure_connected w server p) in
  connect_failure w (length (connects p)) server = Some e /\
  connects p' = connects p ++ [server] /\
  cached_client p' (id server) = None /\
  last_error (entry_of p' (id server)) = last_error (entry_of p (id server)) /\
  forall c0, cached_client p (id server) = Some c0 -> In c0 (closed p').
Proof.
  unfold ensure_connected. intros Hret. cbn zeta.
  destruct (get_entry_histories p (id server)) as [Hc Hcl].
  assert (Hcache : cached_client (_get_entry p (id server)) (id server)
                   = cached_client p (id server))
    by (unfold cached_client; now rewrite entry_of_get_entry).
  destruct (ensure_locked_cases w server (_get_entry p (id server)))
    as [(c' & Hcached & Hact & Heq) | (Hin & Hcon & Hclo & _ & Hnew)].
  - rewrite Heq in Hret. discriminate Hret.
  - rewrite Hc in *. destruct (connect_failure w (length (connects p)) server) as [e'|];
      destruct Hnew as [Hfst Hent]; [|congruence].
    rewrite Hfst in Hret. injection Hret as <-.
    split; [reflexivity|]. split; [exact Hcon|].
    split; [unfold cached_client; now rewrite Hent|].
    split; [rewrite Hent; cbn; now rewrite entry_of_get_entry|].
    intros c0 Hc0. rewrite <- Hcache in Hc0.
    rewrite Hclo, Hc0. apply in_or_app. right. now left.
Qed.

Lemma ensure_connected_other (w : World) (server : Server) (p : SSHClientPool) (sid : text) :
  sid <> id server -> entry_of (snd (ensure_connected w server p)) sid = entry_of p sid.
Proof.
  intros Hne. unfold ensure_connected.
  destruct (ensure_locked_cases w server (_get_entry p (id server)))
    as [(c' & _ & _ & ->) | (_ & _ & _ & Hoth & _)].
  - apply entry_of_get_entry.
  - rewrite Hoth by exact Hne. apply entry_of_get_entry.
Qed.

(** X13: servers do not touch each other's entry: [ensure_connected] and
    [collect] for one server leave the entry of every other server id, its
    cached client and its last error, as it was. *)
Theorem other_entries_untouched (w : World) (call : Client -> Server -> Result HostStats)
    (server : Server) (p : SSHClientPool) (sid : text) :
  sid <> id server ->
  entry_of (snd (ensure_connected w server p)) sid = entry_of p sid /\
  entry_of (snd (collect_with w call server p)) sid = entry_of p sid.
Proof.
  intros Hne. split; [now apply ensure_connected_other|].
  pose proof (ensure_connected_other w server p sid Hne) as H.
  unfold ensure_connected in H. unfold collect_with, try_block.
  destruct (_ensure_connected_locked w server (_get_entry p (id server))) as [[e|c] p1];
    cbn [snd] in H.
  - destruct (on_exception_cases server e p1) as (_ & _ & Hoth & _).
    now rewrite Hoth.
  - destruct (call c server) as [e|stats]; [|exact H].
    destruct (on_exception_cases server e p1) as (_ & _ & Hoth & _).
    now rewrite Hoth.
Qed.
End PoolOutcomes.

Section PoolRegistration.
Import Servers Models Ssh Pool PoolOps.

Lemma register_untouched (servers : list Server) (p : SSHClientPool) (sid : text) :
  (forall s, In s servers -> id s <> sid) ->
  _servers (register_servers servers p) !! sid = _servers p !! sid.
Proof.
  revert p. induction servers as [|a l IH]; intros p H; [reflexivity|].
  cbn [register_servers fold_left]. fold (register_servers l).
  rewrite IH by (intros s Hs; apply H; now right).
  cbn. apply lookup_insert_ne. apply H. now left.
Qed.

Lemma register_keyed (servers : list Server) (p : SSHClientPool) :
  servers_keyed p -> servers_keyed (register_servers servers p).
Proof.
  revert p. induction servers as [|a l IH]; intros p H; [exact H|].
  cbn [register_servers fold_left]. fold (register_servers l). apply IH.
  intros k s. cbn. destruct (decide (k = id a)) as [->|Hne].
  - rewrite lookup_insert_eq. now intros [= <-].
  - rewrite lookup_insert_ne by congruence. apply H.
Qed.

(** X14: [register_servers] registers every server of the list under its
    id, a later server replacing an earlier one with the same id; an id
    that no server of the list has keeps its registration; the entries and
    their clients are not touched; and if every server was registered
    under its own id, this still holds afterwards. *)
Theorem register_servers_spec (servers : list Server) (p : SSHClientPool) :
  let p' := register_servers servers p in
  (forall before s after,
     servers = before ++ s :: after -> (forall s', In s' after -> id s' <> id s) ->
     _servers p' !! id s = Some s) /\
  (forall sid, (forall s, In s servers -> id s <> sid) ->
               _servers p' !! sid = _servers p !! sid) /\
  _entries p' = _entries p /\ connects p' = connects p /\ closed p' = closed p /\
  (servers_keyed p -> servers_keyed p').
Proof.
  cbn zeta. split; [|split; [|split; [|split; [|split]]]].
  - revert p. induction servers as [|a l IH]; intros p before s after Heq Hlast.
    + now destruct before.
    + cbn [register_servers fold_left]. fold (register_servers l).
      destruct before as [|b before]; cbn in Heq; injection Heq as -> ->.
      * rewrite register_untouched by exact Hlast. cbn. apply lookup_insert_eq.
      * eapply IH; [reflexivity | exact Hlast].
  - intros sid H. now apply register_untouched.
  - revert p. induction servers as [|a l IH]; intros p; [reflexivity|].
    cbn [register_servers fold_left]. fold (register_servers l). now rewrite IH.
  - revert p. induction servers as [|a l IH]; intros p; [reflexivity|].
    cbn [register_servers fold_left]. fold (register_servers l). now rewrite IH.
  - revert p. induction servers as [|a l IH]; intros p; [reflexivity|].
    cbn [register_servers fold_left]. fold (register_servers l). now rewrite IH.
  - apply register_keyed.
Qed.

Lemma ensure_connected_connects (w : World) (server : Server) (p : SSHClientPool) :
  (length (connects (snd (ensure_connected w server p))) <= S (length (connects p)))%nat.
Proof.
  unfold ensure_connected. destruct (get_entry_histories p (id server)) as [Hc _].
  destruct (ensure_locked_cases w server (_get_entry p (id server)))
    as [(c' & _ & _ & ->) | (_ & Hcon & _)].
  - cbn [snd]. rewrite Hc. lia.
  - rewrite Hcon, length_app, Hc. cbn. lia.
Qed.

Lemma ensure_connected_caches (w : World) (server : Server) (p : SSHClientPool) :
  (forall n s, connect_failure w n s = None) ->
  exists c, cached_client (snd (ensure_connected w server p)) (id server) = Some c.
Proof.
  intros Hok. unfold ensure_connected.
  destruct (ensure_locked_cases w server (_get_entry p (id server)))
    as [(c' & Hcached & _ & ->) | (_ & _ & _ & _ & Hnew)].
  - now exists c'.
  - rewrite Hok in Hnew. destruct Hnew as [_ Hent]. unfold cached_client. rewrite Hent.
    eexists. reflexivity.
Qed.

Lemma sweep_fold (w : World) (l : list Server) (p : SSHClientPool) :
  let p' := fold_left (fun p server => snd (ensure_connected w server p)) l p in
  (forall sid, (forall s, In s l -> id s <> sid) -> entry_of p' sid = entry_of p sid) /\
  (length (connects p') <= length (connects p) + length l)%nat /\
  ((forall n s, connect_failure w n s = None) -> List.NoDup (List.map id l) ->
   forall s, In s l -> exists c, cached_client p' (id s) = Some c).
Proof.
  revert p. induction l as [|a l IH]; intros p; cbn [fold_left].
  - split; [reflexivity|]. split; [cbn; lia|]. intros _ _ s [].
  - destruct (IH (snd (ensure_connected w a p))) as (Hoth & Hlen & Hall). split; [|split].
    + intros sid H. rewrite Hoth by (intros s Hs; apply H; now right).
      apply ensure_connected_other. intros ->. now apply (H a (or_introl eq_refl)).
    + pose proof (ensure_connected_connects w a p). cbn [length]. lia.
    + intros Hok Hnd s Hs. inversion Hnd as [|? ? Ha Hl]; subst.
      destruct Hs as [<-|Hs]; [|now apply Hall].
      destruct (ensure_connected_caches w a p Hok) as [c Hc]. exists c.
      unfold cached_client in *. rewrite Hoth; [exact Hc|].
      intros s Hs Heq. apply Ha. rewrite <- Heq. now apply in_map.
Qed.

(** X15: one sweep of the monitor makes at most one connection attempt per
    registered server and touches the entry of no other server id; and if
    every server is registered under its own id and no connection attempt
    fails, every registered server has a cached client afterwards. *)
Theorem monitor_sweep_spec (w : World) (p : SSHClientPool) :
  let p' := monitor_sweep w p in
  (length (connects p') <= length (connects p) + size (_servers p))%nat /\
  (forall sid, (forall k s, _servers p !! k = Some s -> id s <> sid) ->
               entry_of p' sid = entry_of p sid) /\
  (servers_keyed p -> (forall n s, connect_failure w n s = None) ->
   forall k s, _servers p !! k = Some s -> exists c, cached_client p' k = Some c).
Proof.
  cbn zeta. unfold monitor_sweep.
  destruct (sweep_fold w (map_to_list (_servers p)).*2 p) as (Hoth & Hlen & Hall).
  assert (Hin : forall s, In s (map_to_list (_servers p)).*2 ->
                          exists k, _servers p !! k = Some s).
  { intros s Hs. apply list_elem_of_In, list_elem_of_fmap in Hs as ([k s'] & -> & Hs).
    exists k. now apply elem_of_map_to_list. }
  split; [|split].
  - rewrite length_fmap in Hlen. now rewrite length_map_to_list in Hlen.
  - intros sid H. apply Hoth. intros s Hs. destruct (Hin s Hs) as [k Hk]. now apply (H k).
  - intros Hkeyed Hok k s Hks.
    assert (Hnd : List.NoDup (List.map id (map_to_list (_servers p)).*2)).
    { apply NoDup_ListNoDup.
      assert (Heq : List.map id (map_to_list (_servers p)).*2 = (map_to_list (_servers p)).*1).
      { change (List.map id (map_to_list (_servers p)).*2)
          with (id <$> (snd <$> map_to_list (_servers p))).
        rewrite <- list_fmap_compose. apply list_fmap_ext.
        intros i [k' s'] Hl. cbn. apply Hkeyed.
        apply elem_of_map_to_list. eapply list_elem_of_lookup_2. exact Hl. }
      rewrite Heq. apply NoDup_fst_map_to_list. }
    rewrite <- (Hkeyed k s Hks). apply (Hall Hok Hnd).
    apply list_elem_of_In, list_elem_of_fmap. exists (k, s). split; [reflexivity|].
    now apply elem_of_map_to_list.
Qed.
End PoolRegistration.

(** ** Further properties: probes *)

Section ProbeFacts.
Import Servers Models Ssh SshOps.

(** X16: the uptime, disk and CPU probes never raise, whatever the host
    prints: each returns a value after its one exec (two for the CPU), and
    a probe whose command exits non-zero or times out reports no figure. *)
Theorem probes_never_raise (lib : PyLib) (sess : Session) (log : Log) :
  (exists v e, fetch_uptime lib sess log = (Return v, log ++ [e]) /\
     (exit_code (result_of_reply (sess (length log) e) None) <> 0 -> v = None)) /\
  (exists v e, fetch_disk lib sess log = (Return v, log ++ [e]) /\
     (exit_code (result_of_reply (sess (length log) e) None) <> 0 -> v = (None, None))) /\
  (exists v e1 e2, fetch_cpu lib sess log = (Return v, log ++ [e1; e2]) /\
     (exit_code (result_of_reply (sess (length log) e1) None) <> 0 -> fst v = None) /\
     (exit_code (result_of_reply (sess (S (length log)) e2) None) <> 0 -> snd v = None)).
Proof.
  split; [|split].
  - unfold fetch_uptime, mbind, run_command.
    set (e := {| command := py "cat /proc/uptime"; get_pty := false; stdin := None |}).
    set (r := result_of_reply (sess (length log) e) None).
    destruct (Z.eqb_spec (exit_code r) 0) as [Hz|Hnz]; cbn [negb].
    + unfold index, py_float.
      destruct (nth_error (split_ws (stdout r)) 0) as [tok|]; cbn [bind].
      * destruct (float_of_str lib tok) as [x|].
        -- exists (Some x), e. split; [reflexivity | intros Hx; exfalso; apply Hx; exact Hz].
        -- exists None, e. split; [reflexivity | intros Hx; exfalso; apply Hx; exact Hz].
      * exists None, e. split; [reflexivity | intros Hx; exfalso; apply Hx; exact Hz].
    + exists None, e. split; reflexivity.
  - unfold fetch_disk, mbind, run_command.
    set (e := {| command := py "df -B1 /"; get_pty := false; stdin := None |}).
    set (r := result_of_reply (sess (length log) e) None).
    destruct (Z.eqb_spec (exit_code r) 0) as [Hz|Hnz]; cbn [negb].
    + destruct (length (splitlines (stdout r)) <? 2)%nat;
        [exists (None, None), e; split; [reflexivity | intros Hx; exfalso; apply Hx; exact Hz]|].
      destruct (length (split_ws (nth 1 (splitlines (stdout r)) [])) <? 6)%nat;
        [exists (None, None), e; split; [reflexivity | intros Hx; exfalso; apply Hx; exact Hz]|].
      unfold py_int.
      destruct (int_of_str lib (nth 1 (split_ws (nth 1 (splitlines (stdout r)) [])) []))
        as [total|]; cbn [bind].
      * destruct (int_of_str lib (nth 2 (split_ws (nth 1 (splitlines (stdout r)) [])) []))
          as [used|]; cbn [bind].
        -- exists (Some total, Some used), e. split; [reflexivity | intros Hx; exfalso; apply Hx; exact Hz].
        -- exists (None, None), e. split; [reflexivity | intros Hx; exfalso; apply Hx; exact Hz].
      * exists (None, None), e. split; [reflexivity | intros Hx; exfalso; apply Hx; exact Hz].
    + exists (None, None), e. split; reflexivity.
  - unfold fetch_cpu, mbind, run_command, ret. cbn [fst snd].
    eexists _, _, _. split.
    + rewrite <- app_assoc. cbn [app]. rewrite length_app. cbn [length].
      rewrite Nat.add_1_r. reflexivity.
    + cbn [fst snd]. split; intros H.
      * destruct (Z.eqb_spec (exit_code (result_of_reply (sess (length log)
            {| command := py "command -v nproc >/dev/null 2>&1 && nproc || getconf _NPROCESSORS_ONLN";
               get_pty := false; stdin := None |}) None)) 0); [contradiction | reflexivity].
      * match goal with |- (if ?b then _ else _) = None => destruct b eqn:E end; [|reflexivity].
        apply Z.eqb_eq in E. contradiction.
Qed.
End ProbeFacts.

Section MemoryFacts.
Import Servers Models Ssh SshOps.

Lemma memory_line_inv (lib : PyLib) (acc : option Z * option Z) (line : text) :
  kib_figure (fst acc) -> kib_figure (snd acc) ->
  match memory_line lib acc line with
  | Return acc' => kib_figure (fst acc') /\ kib_figure (snd acc')
  | Raise e => lookup_error e
  end.
Proof.
  intros H1 H2. destruct acc as [t a]. unfold memory_line, index, py_int.
  destruct (startswith (py "MemTotal:") line).
  - destruct (nth_error (split_ws line) 1) as [tok|]; cbn [bind];
      [|left; eexists; reflexivity].
    destruct (int_of_str lib tok) as [n|]; cbn [bind]; [|right; eexists; reflexivity].
    split; [right; now exists n | exact H2].
  - destruct (startswith (py "MemAvailable:") line); [|now split].
    destruct (nth_error (split_ws line) 1) as [tok|]; cbn [bind];
      [|left; eexists; reflexivity].
    destruct (int_of_str lib tok) as [n|]; cbn [bind]; [|right; eexists; reflexivity].
    split; [exact H1 | right; now exists n].
Qed.

Lemma memory_lines_inv (lib : PyLib) (lines : list text) (acc : option Z * option Z) :
  kib_figure (fst acc) -> kib_figure (snd acc) ->
  match memory_lines lib acc lines with
  | Return acc' => kib_figure (fst acc') /\ kib_figure (snd acc')
  | Raise e => lookup_error e
  end.
Proof.
  revert acc. induction lines as [|l ls IH]; intros acc H1 H2; cbn [memory_lines].
  - now split.
  - pose proof (memory_line_inv lib acc l H1 H2) as H.
    destruct (memory_line lib acc l) as [e|acc']; cbn [bind]; [exact H|].
    now apply IH.
Qed.

(** X17: the memory probe reports both figures or neither: when it
    returns, either both are null, or the total is a whole number of KiB
    and the used figure is the total less a whole number of KiB; a
    non-zero exit gives neither; and when it raises, it raises
    [IndexError] or [ValueError]. *)
Theorem fetch_memory_spec (lib : PyLib) (sess : Session) (log : Log) :
  match fst (fetch_memory lib sess log) with
  | Return (total, used) =>
      (total = None /\ used = None) \/
      (exists t a, total = Some (t * 1024) /\ used = Some (t * 1024 - a * 1024))
  | Raise e => lookup_error e
  end /\
  (exit_code (result_of_reply
                (sess (length log)
                   {| command := py "cat /proc/meminfo"; get_pty := false; stdin := None |})
                None) <> 0 ->
   fst (fetch_memory lib sess log) = Return (None, None)).
Proof.
  unfold fetch_memory, mbind, run_command, lift.
  set (r := result_of_reply _ None).
  destruct (Z.eqb_spec (exit_code r) 0) as [Hz|Hnz]; cbn [negb].
  - split; [|intros H; contradiction].
    pose proof (memory_lines_inv lib (splitlines (stdout r)) (None, None)
                  (or_introl eq_refl) (or_introl eq_refl)) as H.
    destruct (memory_lines lib (None, None) (splitlines (stdout r))) as [e|[t a]];
      cbn [fst]; [exact H|].
    cbn [fst snd] in H. unfold kib_figure in H.
    destruct H as [[->|[n ->]] [->|[m ->]]]; cbn [fst ret].
    + now left.
    + now left.
    + now left.
    + right. now exists n, m.
  - split; [now left | reflexivity].
Qed.
End MemoryFacts.

Section SupervisorFacts.
Import Servers Models Ssh SshOps.

Lemma supervisor_line_raw (lib : PyLib) (line : text) (b : bool) (p : SupervisorProcess) :
  supervisor_line lib line = Return (b, p) -> raw p = Some line /\ b = is_running p.
Proof.
  unfold supervisor_line. destruct (supervisor_line_match lib line) as [info|].
  - destruct (g_pid info) as [[|c pid]|]; cbn [bind].
    + intros H. injection H as <- <-. now split.
    + destruct (isdigit lib (c :: pid)).
      * unfold py_int. destruct (int_of_str lib (c :: pid)); cbn [bind]; [|discriminate].
        intros H. injection H as <- <-. now split.
      * cbn [bind]. intros H. injection H as <- <-. now split.
    + intros H. injection H as <- <-. now split.
  - intros H. injection H as <- <-. now split.
Qed.

Lemma supervisor_lines_inv (lib : PyLib) (lines : list text) (t r : Z)
    (details : list SupervisorProcess) (info : SupervisorInfo) :
  supervisor_lines lib lines t r details = Return info ->
  exists new,
    sup_details info = Some (details ++ new) /\
    List.map raw new = List.map Some lines /\
    total info = Some (t + Z.of_nat (length lines)) /\
    running info = Some (r + Z.of_nat (length (List.filter is_running new))).
Proof.
  revert t r details. induction lines as [|l ls IH]; intros t r details; cbn [supervisor_lines].
  - intros H. injection H as <-. exists []. cbn. rewrite app_nil_r, !Z.add_0_r. auto.
  - destruct (supervisor_line lib l) as [e|[b p]] eqn:E; cbn [bind]; [discriminate|].
    intros H. apply supervisor_line_raw in E as [Hraw ->].
    destruct (IH _ _ _ H) as (new & Hd & Hr & Ht & Hrun).
    exists (p :: new). split; [now rewrite Hd, <- app_assoc|].
    split; [cbn; now rewrite Hraw, Hr|]. split.
    + rewrite Ht. f_equal. cbn [length]. lia.
    + rewrite Hrun. f_equal. cbn [List.filter]. destruct (is_running p); cbn [length]; lia.
Qed.

(** X18: [parse_supervisor] of no lines reports nothing; of some lines,
    when it returns, it keeps every line as the raw text of one record, in
    order, counts the lines as the total and the records whose state is
    RUNNING as the running count, which is therefore at most the total. *)
Theorem parse_supervisor_spec (lib : PyLib) (lines : list text) (info : SupervisorInfo) :
  parse_supervisor lib lines = Return info ->
  (lines = [] /\ info = SupervisorInfo_default) \/
  (lines <> [] /\
   exists details,
     sup_details info = Some details /\
     List.map raw details = List.map Some lines /\
     total info = Some (Z.of_nat (length lines)) /\
     running info = Some (Z.of_nat (length (List.filter is_running details))) /\
     (length (List.filter is_running details) <= length lines)%nat).
Proof.
  destruct lines as [|l ls].
  - intros H. injection H as <-. now left.
  - intros H. right. split; [discriminate|].
    unfold parse_supervisor in H.
    destruct (supervisor_lines_inv lib (l :: ls) 0 0 [] info H) as (new & Hd & Hr & Ht & Hrun).
    exists new. cbn [app] in Hd. rewrite Z.add_0_l in Ht, Hrun.
    split; [exact Hd|]. split; [exact Hr|]. split; [exact Ht|]. split; [exact Hrun|].
    apply (f_equal (@length _)) in Hr. rewrite !length_map in Hr. rewrite <- Hr.
    apply filter_length_le.
Qed.
End SupervisorFacts.

Section Pm2Facts.
Import Servers Models Ssh SshOps.

Lemma pm2_process_memory (lib : PyLib) (proc : Json) (m : option Z) (p : Pm2Process) :
  pm2_process lib proc = Return (m, p) -> memory_bytes p = m.
Proof.
  unfold pm2_process.
  repeat match goal with
  | |- bind ?r _ = _ -> _ => destruct r; cbn [bind]; [discriminate|]
  end.
  intros H. injection H as <- <-. reflexivity.
Qed.

Lemma memory_sum_app (a b : list Pm2Process) :
  memory_sum (a ++ b) = memory_sum a + memory_sum b.
Proof.
  induction a as [|p a IH]; cbn; [reflexivity|].
  unfold memory_sum in *. cbn. rewrite IH. destruct (memory_bytes p); lia.
Qed.

Lemma pm2_processes_inv (lib : PyLib) (payload : list Json) (t : Z) (d : list Pm2Process)
    (t' : Z) (d' : list Pm2Process) :
  pm2_processes lib payload t d = Return (t', d') ->
  exists new, d' = d ++ new /\ length new = length payload /\ t' = t + memory_sum new.
Proof.
  revert t d. induction payload as [|proc rest IH]; intros t d; cbn [pm2_processes].
  - intros H. injection H as <- <-. exists []. rewrite app_nil_r. cbn. split; [auto|split; [auto|lia]].
  - destruct (pm2_process lib proc) as [e|[m p]] eqn:E; cbn [bind]; [discriminate|].
    intros H. apply pm2_process_memory in E.
    destruct (IH _ _ H) as (new & -> & Hlen & ->).
    exists (p :: new). split; [now rewrite <- app_assoc|]. split; [cbn; now rewrite Hlen|].
    unfold memory_sum at 2. cbn [fold_right]. fold (memory_sum new). rewrite E.
    destruct m; lia.
Qed.

Lemma pm2_failure_message_nonempty (result : SshResult) : pm2_failure_message result <> [].
Proof.
  unfold pm2_failure_message.
  destruct (strip _) as [|c m] eqn:E.
  - destruct (negb (exit_code result =? 0)); cbn; discriminate.
  - discriminate.
Qed.

(** X19: when [fetch_pm2_details] returns, either it reports an error,
    with the same non-empty message in the sub-section and beside it and
    no figures, or it reports no error, a list of records, the length of
    that list as the process count, and the sum of the records' memory
    figures that are present as the total memory. *)
Theorem fetch_pm2_details_spec (lib : PyLib) (sess : Session)
    (pm2_user pm2_home sudo_password : option text) (log : Log)
    (info : Pm2Info) (message : option text) :
  fst (fetch_pm2_details lib sess pm2_user pm2_home sudo_password log)
  = Return (info, message) ->
  (exists m, m <> [] /\ message = Some m /\ pm2_error info = Some m /\
             pm2_details info = None /\ processes info = None /\
             total_memory_bytes info = None) \/
  (exists details, message = None /\ pm2_error info = None /\
                   pm2_details info = Some details /\
                   processes info = Some (Z.of_nat (length details)) /\
                   total_memory_bytes info = Some (memory_sum details)).
Proof.
  unfold fetch_pm2_details, mbind.
  destruct (pm2_request lib sess pm2_user pm2_home sudo_password log) as [[e|result] log1];
    cbn [fst]; [discriminate|].
  unfold lift at 1.
  match goal with |- context [bind ?r ?k] => destruct (bind r k) as [e|[payload|]] end;
    [discriminate| |].
  - unfold lift. destruct (pm2_processes lib payload 0 []) as [e|[t d]] eqn:E; cbn [fst];
      [discriminate|].
    intros H. injection H as <- <-. right.
    destruct (pm2_processes_inv lib payload 0 [] t d E) as (new & -> & _ & ->).
    exists new. cbn. auto.
  - cbn [fst ret]. intros H. injection H as <- <-. left.
    exists (pm2_failure_message result). split; [apply pm2_failure_message_nonempty|].
    cbn. auto.
Qed.
End Pm2Facts.

Section ExtractFacts.
Import Servers Models Ssh SshOps.

(** X20: [extract_json_array] walks the opening brackets of the text from
    the left. It returns the first list the decoder yields, every earlier
    bracket having been passed over (the decoder raised [JSONDecodeError]
    there, or yielded something that is not a list); it returns nothing
    when every bracket is passed over; and it raises what the decoder
    raised at the first bracket where that was not a [JSONDecodeError],
    every earlier bracket having been passed over. *)
Theorem extract_json_array_spec (lib : PyLib) (t : text) :
  match extract_json_array lib t with
  | Return (Some items) =>
      exists before rest,
        t = before ++ 91%N :: rest /\
        raw_decode lib (91%N :: rest) = Return (JArr items) /\
        forall b r, t = b ++ 91%N :: r -> (length b < length before)%nat ->
                    passed_over lib (91%N :: r)
  | Return None =>
      forall b r, t = b ++ 91%N :: r -> passed_over lib (91%N :: r)
  | Raise e =>
      exists before rest,
        t = before ++ 91%N :: rest /\
        raw_decode lib (91%N :: rest) = Raise e /\
        (forall m, e <> JSONDecodeError m) /\
        forall b r, t = b ++ 91%N :: r -> (length b < length before)%nat ->
                    passed_over lib (91%N :: r)
  end.
Proof.
  induction t as [|c t IH]; cbn [extract_json_array].
  - intros [|? ?] r H; discriminate H.
  - assert (Hskip :
      (c <> 91%N \/ passed_over lib (c :: t)) ->
      match extract_json_array lib t with
      | Return (Some items) =>
          exists before rest,
            c :: t = before ++ 91%N :: rest /\
            raw_decode lib (91%N :: rest) = Return (JArr items) /\
            forall b r, c :: t = b ++ 91%N :: r -> (length b < length before)%nat ->
                        passed_over lib (91%N :: r)
      | Return None =>
          forall b r, c :: t = b ++ 91%N :: r -> passed_over lib (91%N :: r)
      | Raise e =>
          exists before rest,
            c :: t = before ++ 91%N :: rest /\
            raw_decode lib (91%N :: rest) = Raise e /\
            (forall m, e <> JSONDecodeError m) /\
            forall b r, c :: t = b ++ 91%N :: r -> (length b < length before)%nat ->
                        passed_over lib (91%N :: r)
      end).
    { intros Hc. revert IH. destruct (extract_json_array lib t) as [e|[items|]]; intros IH.
      - destruct IH as (before & rest & -> & Hdec & Hne & Hfirst).
        exists (c :: before), rest. split; [reflexivity|]. split; [exact Hdec|].
        split; [exact Hne|].
        intros [|b0 b] r Heq Hlen.
        + cbn in Heq. injection Heq as -> <-. destruct Hc as [Hc|Hc]; [congruence | exact Hc].
        + cbn in Heq. injection Heq as <- Heq. apply (Hfirst b r Heq). cbn in Hlen. lia.
      - destruct IH as (before & rest & -> & Hdec & Hfirst).
        exists (c :: before), rest. split; [reflexivity|]. split; [exact Hdec|].
        intros [|b0 b] r Heq Hlen.
        + cbn in Heq. injection Heq as -> <-. destruct Hc as [Hc|Hc]; [congruence | exact Hc].
        + cbn in Heq. injection Heq as <- Heq. apply (Hfirst b r Heq). cbn in Hlen. lia.
      - intros [|b0 b] r Heq.
        + cbn in Heq. injection Heq as -> <-. destruct Hc as [Hc|Hc]; [congruence | exact Hc].
        + cbn in Heq. injection Heq as <- Heq. now apply (IH b r). }
    destruct (N.eqb_spec c 91) as [->|Hne]; [|apply Hskip; now left].
    match goal with
    | |- context [raw_decode lib ?x] =>
        destruct (raw_decode lib x) as [e|v] eqn:E
    end.
    + destruct e as [m|m|m|m|m|m|m|m];
        try (exists [], t; split; [reflexivity|]; split; [exact E|];
             split; [intros m'; discriminate|];
             intros b r _ Hlen; cbn in Hlen; lia).
      apply Hskip. right. left. now exists m.
    + destruct v as [| | | | |items|];
        try (apply Hskip; right; right; eexists; split; [exact E | intros items'; discriminate]).
      exists [], t. split; [reflexivity|]. split; [exact E|].
      intros b r _ Hlen. cbn in Hlen. lia.
Qed.
End ExtractFacts.

Section FormatBytesFacts.
Import Format SshOps.

Lemma Qdiv_1024_le (a y : Q) : (a <= y / 1024 <-> a * 1024 <= y)%Q.
Proof.
  split; intros H.
  - apply Qle_trans with (y / 1024 * 1024)%Q.
    + apply Qmult_le_compat_r; [exact H | discriminate].
    + rewrite Qmult_comm, Qmult_div_r; [apply Qle_refl | discriminate].
  - apply Qle_shift_div_l; [reflexivity | exact H].
Qed.

Lemma scaled_ge (v : Z) (j : nat) (c : Z) :
  (inject_Z c <= scaled v j)%Q <-> c * 1024 ^ Z.of_nat j <= v.
Proof.
  revert c. induction j as [|j IH]; intros c.
  - cbn. rewrite <- Zle_Qle. lia.
  - change (scaled v (S j)) with (scaled v j / 1024)%Q.
    rewrite Qdiv_1024_le.
    assert (Hc : (inject_Z c * 1024 == inject_Z (c * 1024))%Q)
      by (rewrite inject_Z_mult; reflexivity).
    rewrite Hc, IH, Nat2Z.inj_succ, Z.pow_succ_r by lia. split; lia.
Qed.

Lemma scaled_eq (v : Z) (j : nat) :
  (scaled v j == inject_Z v / inject_Z (1024 ^ Z.of_nat j))%Q.
Proof.
  induction j as [|j IH].
  - cbn. unfold Qdiv. change (/ inject_Z 1)%Q with 1%Q. now rewrite Qmult_1_r.
  - change (scaled v (S j)) with (scaled v j / 1024)%Q.
    rewrite IH, Nat2Z.inj_succ, Z.pow_succ_r by lia.
    rewrite inject_Z_mult. change (inject_Z 1024) with 1024%Q.
    field.
    intros H. apply (Qeq_bool_neq (inject_Z (1024 ^ Z.of_nat j)) 0); [|exact H].
    unfold Qeq_bool. cbn. apply Z.eqb_neq.
    assert (0 < 1024 ^ Z.of_nat j) by (apply Z.pow_pos_nonneg; lia). lia.
Qed.

Lemma scaled_large (v : Z) (j : nat) :
  1024 ^ (Z.of_nat j + 1) <= v -> Qle_bool 1024 (scaled v j) = true.
Proof.
  intros H. apply Qle_bool_iff. apply (scaled_ge v j 1024).
  rewrite Z.pow_add_r in H by lia. lia.
Qed.

Lemma scaled_small (v : Z) (j : nat) :
  v < 1024 ^ (Z.of_nat j + 1) -> Qle_bool 1024 (scaled v j) = false.
Proof.
  intros H. destruct (Qle_bool 1024 (scaled v j)) eqn:E; [|reflexivity].
  apply Qle_bool_iff in E. apply (scaled_ge v j 1024) in E.
  rewrite Z.pow_add_r in H by lia. lia.
Qed.

Lemma format_bytes_in_range (lib : PyLib) (v : Z) :
  Z.abs v < float_int_limit ->
  format_bytes lib (Some v) = format_bytes_loop lib (scaled v 0) units.
Proof.
  intros H. unfold format_bytes, float_of_int.
  apply Z.ltb_lt in H. rewrite H. reflexivity.
Qed.

(** X21: [format_bytes] prints null as "n/a"; a count from 0 up to 1023 as
    the whole number followed by B; and a count from 1024 on, within the
    range of a double, with two decimals in the unit reached by dividing
    by 1024 as many times as it takes to get below 1024, stopping at PB. *)
Theorem format_bytes_spec (lib : PyLib) (v : Z) :
  format_bytes lib None = Return (py "n/a") /\
  (0 <= v < 1024 -> format_bytes lib (Some v) = Return (str_of_int v ++ py " B")) /\
  (forall k unit,
     nth_error units (S k) = Some unit ->
     1024 ^ (Z.of_nat k + 1) <= v -> (v < 1024 ^ (Z.of_nat k + 2) \/ k = 4%nat) ->
     v < float_int_limit ->
     format_bytes lib (Some v)
     = Return (format_2f lib (Fin (scaled v (S k))) ++ py " " ++ unit)) /\
  (forall j, scaled v j == inject_Z v / inject_Z (1024 ^ Z.of_nat j))%Q.
Proof.
  split; [reflexivity|]. split; [|split; [|apply scaled_eq]].
  - intros Hv. rewrite format_bytes_in_range
      by (assert (1024 < float_int_limit) by reflexivity; lia).
    cbn [format_bytes_loop units].
    rewrite (scaled_small v 0) by (cbn; lia). cbn [negb orb].
    change (text_eqb (py "B") (py "B")) with true. cbv iota.
    unfold int_of_float, scaled. cbn [Nat.iter Qnum Qden inject_Z bind].
    now rewrite Z.quot_1_r.
  - intros k unit Hunit Hge Hlt Hrange.
    assert (Hpos : 0 < 1024 ^ (Z.of_nat k + 1)) by (apply Z.pow_pos_nonneg; lia).
    rewrite format_bytes_in_range by lia.
    assert (Hbig : forall j, (j <= k)%nat -> Qle_bool 1024 (scaled v j) = true).
    { intros j Hj. apply scaled_large. eapply Z.le_trans; [|exact Hge].
      apply Z.pow_le_mono_r; lia. }
    assert (Hlast : k <> 4%nat -> Qle_bool 1024 (scaled v (S k)) = false).
    { intros Hk. apply scaled_small. destruct Hlt as [Hlt|Hlt]; [|contradiction].
      replace (Z.of_nat (S k) + 1) with (Z.of_nat k + 2) by lia. exact Hlt. }
    assert (Hk : (k <= 4)%nat).
    { destruct k as [|[|[|[|[|k]]]]]; try lia.
      unfold units in Hunit. cbn [nth_error] in Hunit. destruct k; discriminate Hunit. }
    destruct k as [|[|[|[|[|k]]]]]; [| | | | |lia];
      unfold units in Hunit; cbn [nth_error] in Hunit; injection Hunit as <-;
      cbn [format_bytes_loop units];
      repeat (match goal with
              | |- context [Qle_bool 1024 (scaled v ?j)] =>
                  first [rewrite (Hbig j) by lia | rewrite Hlast by lia]
              | |- context [text_eqb (py ?a) (py ?b)] =>
                  let r := eval vm_compute in (text_eqb (py a) (py b)) in
                  change (text_eqb (py a) (py b)) with r
              | |- context [(scaled v ?j / 1024)%Q] =>
                  change (scaled v j / 1024)%Q with (scaled v (S j))
              end; cbn [negb orb]; cbv iota);
      try reflexivity.
    destruct (Qle_bool 1024 (scaled v 5)); reflexivity.
Qed.
End FormatBytesFacts.

Section GatherFacts.
Import Servers Models Ssh SshOps.

Lemma mbind_return {A B : Type} (m : M A) (k : A -> M B) (log log' : Log) (b : B) :
  mbind m k log = (Return b, log') ->
  exists a l, m log = (Return a, l) /\ k a l = (Return b, log').
Proof.
  unfold mbind. destruct (m log) as [[e|a] l]; [discriminate|]. intros H. now exists a, l.
Qed.

(** A pass that returns carries the identity of its server and no
    top-level error. *)
Lemma collect_stats_identity (lib : PyLib) (sess : Session) (server : Server) (log log' : Log)
    (stats : HostStats) :
  collect_stats lib sess server log = (Return stats, log') ->
  server_id stats = id server /\ server_name stats = name server /\
  hs_host stats = host server /\ hs_user stats = user server /\
  hs_port stats = port server /\ hs_tags stats = tags server /\
  error stats = None /\ mount (disk stats) = py "/".
Proof.
  unfold collect_stats. intros H.
  apply mbind_return in H as ([c1 c2] & l1 & _ & H).
  apply mbind_return in H as ([m1 m2] & l2 & _ & H).
  apply mbind_return in H as (u & l3 & _ & H).
  apply mbind_return in H as ([d1 d2] & l4 & _ & H).
  apply mbind_return in H as (pm & l5 & _ & H).
  apply mbind_return in H as (sup & l6 & _ & H).
  apply mbind_return in H as (h1 & l7 & _ & H).
  apply mbind_return in H as (h2 & l8 & _ & H).
  apply mbind_return in H as (h3 & l9 & _ & H).
  apply mbind_return in H as (h4 & l10 & _ & H).
  apply mbind_return in H as (h5 & l11 & _ & H).
  unfold ret in H. injection H as <- _. cbn. auto 10.
Qed.

(** X22: [gather_stats] always returns a snapshot, and the snapshot
    carries the id, name, host, user, port and tags of the server; its
    top-level error is null exactly when the connection was made and the
    pass returned, and otherwise is the message of what was raised, in the
    error snapshot. *)
Theorem gather_stats_spec (lib : PyLib) (sess : Session) (connect_failure : option Exn)
    (server : Server) :
  exists stats,
    gather_stats lib sess connect_failure server = Return stats /\
    server_id stats = id server /\ server_name stats = name server /\
    hs_host stats = host server /\ hs_user stats = user server /\
    hs_port stats = port server /\ hs_tags stats = tags server /\
    (error stats = None <->
     connect_failure = None /\ fst (collect_stats lib sess server []) = Return stats) /\
    (forall exc, connect_failure = Some exc \/
                 (connect_failure = None /\ fst (collect_stats lib sess server []) = Raise exc) ->
                 stats = build_error_stats server (exn_message exc)).
Proof.
  unfold gather_stats. destruct connect_failure as [e|].
  - eexists. split; [reflexivity|]. cbn. repeat (split; [reflexivity|]). split.
    + split; [discriminate | intros [H _]; discriminate H].
    + intros exc [H | [H _]]; [now injection H as <- | discriminate H].
  - destruct (collect_stats lib sess server []) as [[e|stats] log'] eqn:E; cbn [fst].
    + eexists. split; [reflexivity|]. cbn. repeat (split; [reflexivity|]). split.
      * split; [discriminate | intros [_ H]; discriminate H].
      * intros exc [H | [_ H]]; [discriminate H | now injection H as <-].
    + destruct (collect_stats_identity lib sess server [] log' stats E)
        as (H1 & H2 & H3 & H4 & H5 & H6 & H7 & _).
      exists stats. split; [reflexivity|]. repeat (split; [assumption|]). split.
      * split; [auto | intros _; exact H7].
      * intros exc [H | [_ H]]; discriminate H.
Qed.
End GatherFacts.

Section KeyInstallFacts.
Import Servers Models Ssh SshOps.

(** X23: [install_root_key] as a user other than root with no password,
    or an empty one, raises before anything is run on the host; otherwise
    it runs the install script once, through a login shell: as root
    itself in a plain exec, or else under [sudo -S -u root] on a
    pseudo-terminal with the password and a line feed written to stdin;
    and it returns normally exactly when that command exits with
    status 0. *)
Theorem install_root_key_spec (lib : PyLib) (sess : Session) (b64encode : text -> text)
    (key_text ssh_user : text) (password : option text) (log : Log) :
  let outcome := install_root_key lib sess b64encode key_text ssh_user password log in
  let script := install_script lib b64encode key_text in
  (ssh_user <> py "root" -> truthy password = false ->
   outcome = (Raise (RuntimeError (py "Password required to sudo to root for key install.")),
              log)) /\
  (ssh_user = py "root" ->
   let e := {| command := py "bash -lc " ++ shlex_quote lib script;
               get_pty := false; stdin := None |} in
   snd outcome = log ++ [e] /\
   (fst outcome = Return tt <->
    exit_code (result_of_reply (sess (length log) e) None) = 0)) /\
  (forall pw, ssh_user <> py "root" -> password = Some pw -> pw <> [] ->
   let e := {| command :=
                 py "stty -echo >/dev/null 2>&1 || true; "
                 ++ (py "sudo -S -p '' -u " ++ shlex_quote lib (py "root")
                     ++ py " /bin/sh -c "
                     ++ shlex_quote lib (py "bash -lc " ++ shlex_quote lib script))
                 ++ py "; " ++ py "status=$?; "
                 ++ py "stty echo >/dev/null 2>&1 || true; " ++ py "exit $status";
               get_pty := true;
               stdin := Some (pw ++ [LF]) |} in
   snd outcome = log ++ [e] /\
   (fst outcome = Return tt <->
    exit_code (result_of_reply (sess (length log) e) (Some pw)) = 0)).
Proof.
  cbn zeta. unfold install_root_key, mbind. split; [|split].
  - intros Hu Hp. unfold text_eqb. rewrite bool_decide_eq_false_2 by exact Hu.
    destruct password as [[|c pw]|]; [reflexivity | discriminate Hp | reflexivity].
  - intros ->. rewrite (bool_decide_eq_true_2 _ eq_refl : text_eqb (py "root") (py "root") = true).
    unfold run_command.
    set (r := result_of_reply _ None).
    destruct (Z.eqb_spec (exit_code r) 0) as [Hz|Hnz]; cbn [negb fst snd throw ret].
    + split; [reflexivity | tauto].
    + split; [reflexivity|]. split; [discriminate | contradiction].
  - intros pw Hu -> Hpw. unfold text_eqb. rewrite bool_decide_eq_false_2 by exact Hu.
    destruct pw as [|c pw]; [contradiction|]. unfold run_sudo_command.
    change (sudo_exec lib (install_script lib b64encode key_text) (c :: pw) (py "root") true)
      with {| command :=
                py "stty -echo >/dev/null 2>&1 || true; "
                ++ (py "sudo -S -p '' -u " ++ shlex_quote lib (py "root")
                    ++ py " /bin/sh -c "
                    ++ shlex_quote lib
                         (py "bash -lc "
                          ++ shlex_quote lib (install_script lib b64encode key_text)))
                ++ py "; " ++ py "status=$?; "
                ++ py "stty echo >/dev/null 2>&1 || true; " ++ py "exit $status";
              get_pty := true;
              stdin := Some ((c :: pw) ++ [LF]) |}.
    match goal with
    | |- context [result_of_reply ?a ?b] => set (r := result_of_reply a b)
    end.
    destruct (Z.eqb_spec (exit_code r) 0) as [Hz|Hnz]; cbn [negb fst snd throw ret].
    + split; [reflexivity | tauto].
    + split; [reflexivity|]. split; [discriminate | contradiction].
Qed.
End KeyInstallFacts.

(** ** Further properties: registry, bulk collection, tags, watcher key *)

Section RegistryMoreFacts.
Import Servers Models Pool Services.

Lemma check_unique_fresh (servers : list Server) (server : Server) :
  check_unique servers server = Return tt ->
  ~ In (endpoint server) (List.map endpoint servers).
Proof.
  induction servers as [|e rest IH]; cbn [check_unique List.map]; [intros _ []|].
  destruct (same_endpoint e server) eqn:E; [discriminate|].
  intros H [Heq | Hin]; [|now apply IH].
  unfold endpoint in Heq. injection Heq as H1 H2 H3.
  assert (same_endpoint e server = true) by (apply same_endpoint_spec; auto).
  congruence.
Qed.

(** X24: [add] keeps the endpoints of the registry distinct: if no two
    servers of a registry that loads share host, port and user, the same
    holds of the registry after [add], whether it stores the server or
    refuses it. *)
Theorem add_keeps_endpoints_distinct (file : RegistryFile) (servers : list Server)
    (server : Server) :
  _load file = Return servers ->
  List.NoDup (List.map endpoint servers) ->
  exists servers',
    _load (snd (add file server)) = Return servers' /\
    List.NoDup (List.map endpoint servers').
Proof.
  intros Hload Hnd. unfold add. rewrite Hload.
  destruct (check_unique servers server) as [e|[]] eqn:E; cbn [snd].
  - now exists servers.
  - exists (servers ++ [server]). split; [reflexivity|].
    rewrite List.map_app. cbn [List.map]. apply NoDup_snoc; [exact Hnd|].
    now apply check_unique_fresh.
Qed.

Lemma find_app_fresh (servers : list Server) (server : Server) (sid : text) :
  List.find (fun s => text_eqb (id s) sid) (servers ++ [server])
  = match List.find (fun s => text_eqb (id s) sid) servers with
    | Some s => Some s
    | None => if text_eqb (id server) sid then Some server else None
    end.
Proof.
  induction servers as [|a l IH]; cbn; [reflexivity|].
  destruct (text_eqb (id a) sid); [reflexivity | exact IH].
Qed.

(** X25: a server that [add] stores is found again by its id: after a
    successful [add] to a registry in which no server has that id,
    [get_by_id] of the id returns the server, and [get_by_id] of any other
    id returns what it returned before. *)
Theorem add_then_get_by_id (file : RegistryFile) (servers : list Server) (server : Server) :
  _load file = Return servers ->
  fst (add file server) = Return server ->
  (forall s, In s servers -> id s <> id server) ->
  get_by_id (snd (add file server)) (id server) = Return (Some server) /\
  (forall sid, sid <> id server ->
               get_by_id (snd (add file server)) sid = get_by_id file sid).
Proof.
  intros Hload Hadd Hfresh. unfold add in *. rewrite Hload in *.
  destruct (check_unique servers server) as [e|[]]; cbn [fst snd] in *; [discriminate|].
  unfold get_by_id. rewrite Hload. cbn [_load _save bind]. split.
  - rewrite find_app_fresh.
    destruct (List.find _ servers) as [s|] eqn:E.
    + apply find_some in E as [Hin Heq]. unfold text_eqb in Heq.
      apply bool_decide_eq_true in Heq. now apply Hfresh in Hin.
    + unfold text_eqb. now rewrite bool_decide_eq_true_2.
  - intros sid Hne. rewrite find_app_fresh.
    destruct (List.find _ servers); [reflexivity|].
    unfold text_eqb. now rewrite bool_decide_eq_false_2 by congruence.
Qed.
End RegistryMoreFacts.

Section BulkFacts.
Import Servers Models Ssh Pool Services.

Lemma collect_each_ids (w : World) (servers : list Server) (p : SSHClientPool) :
  exists snapshots,
    fst (collect_each w servers p) = Return snapshots /\
    List.map server_id snapshots = List.map id servers /\
    Forall (fun s => error s <> None) snapshots.
Proof.
  revert p. induction servers as [|s rest IH]; intros p; cbn [collect_each].
  - exists []. split; [reflexivity|]. split; [reflexivity | constructor].
  - destruct (collect_drops_client w s (py "full") p) as [_ [msg Hmsg]].
    destruct (collect w s (py "full") p) as [r p1]. cbn [fst] in Hmsg. subst r.
    destruct (IH p1) as (more & Hmore & Hids & Herr).
    destruct (collect_each w rest p1) as [r p2]. cbn [fst] in Hmore. subst r.
    exists (build_error_stats s msg :: more). split; [reflexivity|].
    split; [cbn; now rewrite Hids|]. constructor; [discriminate | exact Herr].
Qed.

(** X26: with a positive worker limit and a registry that loads, the bulk
    collection returns one snapshot for each server it selects, every
    server when the disabled ones are asked for and the enabled ones
    otherwise, in the order of the registry, each under the id of its
    server. *)
Theorem stats_collect_spec (w : World) (max_workers : Z) (include_disabled : bool)
    (file : RegistryFile) (servers : list Server) (p : SSHClientPool) :
  0 < max_workers ->
  _load file = Return servers ->
  exists snapshots,
    fst (stats_collect w max_workers include_disabled file p) = Return snapshots /\
    List.map server_id snapshots
    = List.map id (if include_disabled then servers else List.filter enabled servers).
Proof.
  intros Hw Hload. unfold stats_collect, list_servers. rewrite Hload.
  fold (selected include_disabled servers).
  destruct (selected include_disabled servers) as [|s rest] eqn:E.
  - exists []. split; reflexivity.
  - replace (Z.min max_workers (Z.of_nat (length (s :: rest))) <=? 0) with false
      by (symmetry; apply Z.leb_gt; cbn [length]; lia).
    destruct (collect_each_ids w (s :: rest) p) as (snaps & H1 & H2 & _).
    now exists snaps.
Qed.
End BulkFacts.

Section StripFacts.
Import Servers Models Ssh SshOps Services.

Lemma lstrip_no_leading (s : text) : no_leading_space (lstrip s).
Proof.
  induction s as [|c s IH]; cbn; [exact I|].
  destruct (is_space c) eqn:E; [exact IH | exact E].
Qed.

Lemma lstrip_fixed (s : text) : no_leading_space s -> lstrip s = s.
Proof. destruct s as [|c s]; cbn; [reflexivity|]. now intros ->. Qed.

Lemma rstrip_prefix (s : text) : exists rest, s = rstrip s ++ rest.
Proof.
  unfold rstrip. destruct (lstrip_suffix (rev s)) as [pre H].
  exists (rev pre). rewrite <- rev_app_distr, <- H. now rewrite rev_involutive.
Qed.

Lemma strip_no_leading (s : text) : no_leading_space (strip s).
Proof.
  unfold strip. pose proof (lstrip_no_leading s) as H.
  destruct (rstrip_prefix (lstrip s)) as [rest Hr].
  destruct (rstrip (lstrip s)) as [|c t]; [exact I|].
  rewrite Hr in H. exact H.
Qed.

Lemma strip_no_trailing (s : text) : no_leading_space (rev (strip s)).
Proof.
  unfold strip, rstrip. rewrite rev_involutive. apply lstrip_no_leading.
Qed.

Lemma strip_idempotent (s : text) : strip (strip s) = strip s.
Proof.
  unfold strip at 1. rewrite (lstrip_fixed (strip s)) by apply strip_no_leading.
  unfold rstrip. rewrite (lstrip_fixed (rev (strip s))) by apply strip_no_trailing.
  apply rev_involutive.
Qed.

(** X27: [read_public_key] returns the text of the key file stripped of
    surrounding whitespace, and only when that is not empty: what it
    returns neither begins nor ends with whitespace; a missing file and a
    blank file make it raise. *)
Theorem read_public_key_spec (path : text) (file : option text) :
  match read_public_key path file with
  | Return key =>
      key <> [] /\ no_leading_space key /\ no_leading_space (rev key) /\
      exists content, file = Some content /\ key = strip content
  | Raise e =>
      (file = None /\ e = RuntimeError (py "Public key not found: " ++ path)) \/
      (exists content, file = Some content /\ strip content = [] /\
                       e = RuntimeError (py "Public key is empty: " ++ path))
  end.
Proof.
  unfold read_public_key. destruct file as [content|]; [|now left].
  destruct (strip content) as [|c k] eqn:E.
  - right. now exists content.
  - split; [discriminate|]. rewrite <- E.
    split; [apply strip_no_leading|]. split; [apply strip_no_trailing|]. now exists content.
Qed.

Lemma split_on_no_sep (sep : char) (s piece : text) :
  In piece (split_on sep s) -> ~ In sep piece.
Proof.
  revert piece. induction s as [|c s IH]; intros piece; cbn [split_on].
  - intros [<-|[]] [].
  - destruct (N.eqb_spec c sep) as [->|Hne].
    + intros [<-|H]; [intros [] | now apply IH].
    + destruct (split_on sep s) as [|p ps].
      * intros [<-|[]] [H|[]]. congruence.
      * intros [<-|H].
        -- intros [Hc|Hin]; [congruence|]. apply (IH p); [now left | exact Hin].
        -- apply IH. now right.
Qed.

Lemma split_on_nonempty (sep : char) (s : text) : split_on sep s <> [].
Proof.
  destruct s as [|c s]; cbn [split_on]; [discriminate|].
  destruct (c =? sep)%N; [discriminate|]. destruct (split_on sep s); discriminate.
Qed.

Lemma split_on_piece (sep : char) (p : text) :
  ~ In sep p -> split_on sep p = [p].
Proof.
  induction p as [|c p IH]; intros H; cbn [split_on]; [reflexivity|].
  destruct (N.eqb_spec c sep) as [->|Hne]; [exfalso; apply H; now left|].
  rewrite IH by (intros Hin; apply H; now right). reflexivity.
Qed.

Lemma split_on_app (sep : char) (p rest : text) :
  ~ In sep p -> split_on sep (p ++ sep :: rest) = p :: split_on sep rest.
Proof.
  induction p as [|c p IH]; intros H; cbn [split_on app].
  - now rewrite N.eqb_refl.
  - destruct (N.eqb_spec c sep) as [->|Hne]; [exfalso; apply H; now left|].
    rewrite IH by (intros Hin; apply H; now right). reflexivity.
Qed.

(** Splitting undoes joining, for items without the separator. *)
Lemma split_on_join (sep : char) (items : list text) :
  items <> [] -> Forall (fun item => ~ In sep item) items ->
  split_on sep (join [sep] items) = items.
Proof.
  induction items as [|p ps IH]; [contradiction|]. intros _ Hall.
  inversion Hall as [|? ? Hp Hps]; subst.
  destruct ps as [|q qs]; cbn [join].
  - now apply split_on_piece.
  - cbn [app]. rewrite split_on_app by exact Hp. f_equal. apply IH; [discriminate | exact Hps].
Qed.

(** Joining undoes splitting. *)
Lemma join_split_on (sep : char) (s : text) : join [sep] (split_on sep s) = s.
Proof.
  induction s as [|c s IH]; cbn [split_on]; [reflexivity|].
  destruct (N.eqb_spec c sep) as [->|Hne].
  - pose proof (split_on_nonempty sep s) as Hne.
    destruct (split_on sep s) as [|p ps]; [contradiction|].
    change (join [sep] ([] :: p :: ps)) with ([] ++ [sep] ++ join [sep] (p :: ps)).
    now rewrite IH.
  - pose proof (split_on_nonempty sep s) as Hn.
    destruct (split_on sep s) as [|p ps]; [contradiction|].
    destruct ps as [|q qs].
    + cbn [join] in *. now rewrite IH.
    + change (join [sep] ((c :: p) :: q :: qs)) with (c :: join [sep] (p :: q :: qs)).
      now rewrite IH.
Qed.

Lemma strip_fixed (s : text) :
  no_leading_space s -> no_leading_space (rev s) -> strip s = s.
Proof.
  intros H1 H2. unfold strip, rstrip. rewrite (lstrip_fixed s H1).
  rewrite (lstrip_fixed (rev s) H2). apply rev_involutive.
Qed.

Lemma parse_tags_split (s : text) :
  parse_tags (Some s)
  = List.filter (fun tag => negb (Nat.eqb (length tag) 0))
      (List.map strip (split_on 44%N s)).
Proof. destruct s; reflexivity. Qed.

(** X28: the tags read off the add-server form are the comma-separated
    items, stripped, without the empty ones. Every field is a list of
    comma-free items joined by commas, and of such a field the tags are
    those items, each stripped, in order, the ones that strip to nothing
    left out; so tags that are not empty, neither begin nor end with
    whitespace and hold no comma are read back from their join as they
    are. No tag is empty, begins or ends with whitespace, or holds a
    comma; and a missing or empty field gives no tags. *)
Theorem parse_tags_spec (tags : option text) (tag : text) (items : list text) :
  (truthy tags = false -> parse_tags tags = []) /\
  (forall field, exists pieces,
     Forall (fun piece => ~ In 44%N piece) pieces /\ field = join [44%N] pieces) /\
  (Forall (fun item => ~ In 44%N item) items ->
   parse_tags (Some (join [44%N] items))
   = List.filter (fun item => negb (Nat.eqb (length item) 0)) (List.map strip items)) /\
  (Forall (fun item => ~ In 44%N item /\ item <> [] /\
                       no_leading_space item /\ no_leading_space (rev item)) items ->
   parse_tags (Some (join [44%N] items)) = items) /\
  (In tag (parse_tags tags) ->
   tag <> [] /\ no_leading_space tag /\ no_leading_space (rev tag) /\ ~ In 44%N tag).
Proof.
  assert (Hitems : forall l, Forall (fun item => ~ In 44%N item) l ->
            parse_tags (Some (join [44%N] l))
            = List.filter (fun item => negb (Nat.eqb (length item) 0)) (List.map strip l)).
  { intros l Hall. destruct l as [|p ps]; [reflexivity|].
    rewrite parse_tags_split, split_on_join; [reflexivity | discriminate | exact Hall]. }
  split; [|split; [|split; [|split]]].
  - destruct tags as [[|c t]|]; [reflexivity | discriminate | reflexivity].
  - intros field. exists (split_on 44%N field). split.
    + apply List.Forall_forall. intros piece. apply split_on_no_sep.
    + symmetry. apply join_split_on.
  - apply Hitems.
  - intros Hall. rewrite Hitems by (eapply List.Forall_impl; [|exact Hall]; cbn; tauto).
    clear Hitems. induction items as [|p ps IH]; [reflexivity|].
    inversion Hall as [|? ? (_ & Hne & Hl & Hr) Hps]; subst.
    cbn [List.map List.filter]. rewrite (strip_fixed p Hl Hr).
    destruct p as [|c p]; [contradiction|]. cbn [length Nat.eqb negb].
    f_equal. now apply IH.
  - unfold parse_tags. intros H. apply filter_In in H as [Hin Hne].
    split; [now destruct tag|].
    destruct tags as [[|c t]|]; [destruct Hin | | destruct Hin].
    apply in_map_iff in Hin as (piece & <- & Hpiece).
    split; [apply strip_no_leading|]. split; [apply strip_no_trailing|].
    intros Hcomma. apply (split_on_no_sep 44%N (c :: t) piece Hpiece).
    destruct (strip_infix piece) as (pre & post & ->).
    apply in_or_app. right. apply in_or_app. now left.
Qed.
End StripFacts.

Section WatcherKeyFacts.
Import Services.

Ltac seven := split; [|split; [|split; [|split; [|split; [|split]]]]].

(** X29: [ensure_watcher_keypair] runs at most one command; it runs none
    and changes nothing when both key files exist or when the key
    directory cannot be made; it never runs the generating command when a
    private key exists; a command that exits with a non-zero status makes
    it raise with the tool's message; when it returns, either both files
    were there and nothing was run, or the one command it ran exited with
    status 0, and after deriving the public key the stripped output and a
    newline are its content; and when it raises, the directory could not
    be made, or the command could not be started, or the command exited
    with a non-zero status, or the public key could not be written. *)
Theorem ensure_watcher_keypair_spec (env : KeyEnv) (files : KeyFiles) :
  let '(outcome, files', cmds) := ensure_watcher_keypair env files in
  (length cmds <= 1)%nat /\
  (is_Some (private_key files) -> is_Some (public_key files) ->
   outcome = Return tt /\ files' = files /\ cmds = []) /\
  (is_Some (mkdir_failure env) -> cmds = [] /\ files' = files) /\
  (is_Some (private_key files) -> ~ In GenerateKeypair cmds) /\
  (forall cmd result after,
     cmds = [cmd] -> run env cmd files = (Return result, after) ->
     returncode result <> 0 ->
     outcome = Raise (keygen_failure result (keygen_fallback cmd)) /\ files' = after) /\
  (outcome = Return tt ->
   (cmds = [] /\ files' = files /\
    is_Some (private_key files) /\ is_Some (public_key files)) \/
   (exists cmd result after,
      cmds = [cmd] /\ run env cmd files = (Return result, after) /\
      returncode result = 0 /\
      files' = match cmd with
               | DerivePublic =>
                   {| private_key := private_key after;
                      public_key := Some (strip (proc_stdout result) ++ [LF]) |}
               | GenerateKeypair => after
               end)) /\
  (forall e, outcome = Raise e ->
     (mkdir_failure env = Some e /\ cmds = []) \/
     (exists cmd, cmds = [cmd] /\
        (fst (run env cmd files) = Raise e \/
         (exists result, fst (run env cmd files) = Return result /\
                         returncode result <> 0 /\
                         e = keygen_failure result (keygen_fallback cmd)) \/
         (exists result remains, fst (run env cmd files) = Return result /\
                                 returncode result = 0 /\ cmd = DerivePublic /\
                                 write_failure env = Some (e, remains))))).
Proof.
  unfold ensure_watcher_keypair.
  destruct files as [[priv|] [pub|]]; cbn [private_key public_key exists_ andb negb].
  - seven.
    + cbn; lia.
    + intros _ _. auto.
    + intros _. auto.
    + intros _ [].
    + intros cmd result after Hc. discriminate Hc.
    + intros _. left. split; [reflexivity|]. split; [reflexivity|].
      split; eexists; reflexivity.
    + discriminate.
  - destruct (mkdir_failure env) as [em|] eqn:Em.
    { seven.
      - cbn; lia.
      - intros _ [? Hx]; discriminate Hx.
      - intros _. auto.
      - intros _ [].
      - intros cmd result after Hc. discriminate Hc.
      - discriminate.
      - intros e He. injection He as <-. left. auto. }
    destruct (run env DerivePublic _) as [[er|result] after] eqn:E.
    { seven.
      - cbn; lia.
      - intros _ [? Hx]; discriminate Hx.
      - intros [? Hx]; discriminate Hx.
      - intros _ [Hx|[]]; discriminate Hx.
      - intros cmd result after' Hc. injection Hc as <-. rewrite E. discriminate.
      - discriminate.
      - intros e He. injection He as <-. right. exists DerivePublic. split; [reflexivity|].
        left. now rewrite E. }
    destruct (Z.eqb_spec (returncode result) 0) as [Hz|Hnz]; cbn [negb].
    + destruct (write_failure env) as [[ew remains]|] eqn:Ew.
      { seven.
        - cbn; lia.
        - intros _ [? Hx]; discriminate Hx.
        - intros [? Hx]; discriminate Hx.
        - intros _ [Hx|[]]; discriminate Hx.
        - intros cmd result' after' Hc. injection Hc as <-. rewrite E.
          intros Hr. injection Hr as <- <-. contradiction.
        - discriminate.
        - intros e He. injection He as <-. right. exists DerivePublic. split; [reflexivity|].
          right. right. exists result, remains. rewrite E. auto. }
      { seven.
        - cbn; lia.
        - intros _ [? Hx]; discriminate Hx.
        - intros [? Hx]; discriminate Hx.
        - intros _ [Hx|[]]; discriminate Hx.
        - intros cmd result' after' Hc. injection Hc as <-. rewrite E.
          intros Hr. injection Hr as <- <-. contradiction.
        - intros _. right. exists DerivePublic, result, after. auto.
        - discriminate. }
    + { seven.
        - cbn; lia.
        - intros _ [? Hx]; discriminate Hx.
        - intros [? Hx]; discriminate Hx.
        - intros _ [Hx|[]]; discriminate Hx.
        - intros cmd result' after' Hc. injection Hc as <-. rewrite E.
          intros Hr. now injection Hr as <- <-.
        - discriminate.
        - intros e He. injection He as <-. right. exists DerivePublic. split; [reflexivity|].
          right. left. exists result. rewrite E. auto. }
  - destruct (mkdir_failure env) as [em|] eqn:Em.
    { seven.
      - cbn; lia.
      - intros [? Hx]; discriminate Hx.
      - intros _. auto.
      - intros [? Hx]; discriminate Hx.
      - intros cmd result after Hc. discriminate Hc.
      - discriminate.
      - intros e He. injection He as <-. left. auto. }
    destruct (run env GenerateKeypair _) as [[er|result] after] eqn:E.
    { seven.
      - cbn; lia.
      - intros [? Hx]; discriminate Hx.
      - intros [? Hx]; discriminate Hx.
      - intros [? Hx]; discriminate Hx.
      - intros cmd result after' Hc. injection Hc as <-. rewrite E. discriminate.
      - discriminate.
      - intros e He. injection He as <-. right. exists GenerateKeypair. split; [reflexivity|].
        left. now rewrite E. }
    destruct (Z.eqb_spec (returncode result) 0) as [Hz|Hnz]; cbn [negb].
    + { seven.
        - cbn; lia.
        - intros [? Hx]; discriminate Hx.
        - intros [? Hx]; discriminate Hx.
        - intros [? Hx]; discriminate Hx.
        - intros cmd result' after' Hc. injection Hc as <-. rewrite E.
          intros Hr. injection Hr as <- <-. contradiction.
        - intros _. right. exists GenerateKeypair, result, after. auto.
        - discriminate. }
    + { seven.
        - cbn; lia.
        - intros [? Hx]; discriminate Hx.
        - intros [? Hx]; discriminate Hx.
        - intros [? Hx]; discriminate Hx.
        - intros cmd result' after' Hc. injection Hc as <-. rewrite E.
          intros Hr. now injection Hr as <- <-.
        - discriminate.
        - intros e He. injection He as <-. right. exists GenerateKeypair. split; [reflexivity|].
          right. left. exists result. rewrite E. auto. }
  - destruct (mkdir_failure env) as [em|] eqn:Em.
    { seven.
      - cbn; lia.
      - intros [? Hx]; discriminate Hx.
      - intros _. auto.
      - intros [? Hx]; discriminate Hx.
      - intros cmd result after Hc. discriminate Hc.
      - discriminate.
      - intros e He. injection He as <-. left. auto. }
    destruct (run env GenerateKeypair _) as [[er|result] after] eqn:E.
    { seven.
      - cbn; lia.
      - intros [? Hx]; discriminate Hx.
      - intros [? Hx]; discriminate Hx.
      - intros [? Hx]; discriminate Hx.
      - intros cmd result after' Hc. injection Hc as <-. rewrite E. discriminate.
      - discriminate.
      - intros e He. injection He as <-. right. exists GenerateKeypair. split; [reflexivity|].
        left. now rewrite E. }
    destruct (Z.eqb_spec (returncode result) 0) as [Hz|Hnz]; cbn [negb].
    + { seven.
        - cbn; lia.
        - intros [? Hx]; discriminate Hx.
        - intros [? Hx]; discriminate Hx.
        - intros [? Hx]; discriminate Hx.
        - intros cmd result' after' Hc. injection Hc as <-. rewrite E.
          intros Hr. injection Hr as <- <-. contradiction.
        - intros _. right. exists GenerateKeypair, result, after. auto.
        - discriminate. }
    + { seven.
        - cbn; lia.
        - intros [? Hx]; discriminate Hx.
        - intros [? Hx]; discriminate Hx.
        - intros [? Hx]; discriminate Hx.
        - intros cmd result' after' Hc. injection Hc as <-. rewrite E.
          intros Hr. now injection Hr as <- <-.
        - discriminate.
        - intros e He. injection He as <-. right. exists GenerateKeypair. split; [reflexivity|].
          right. left. exists result. rewrite E. auto. }
Qed.
End WatcherKeyFacts.

(** ** The further properties at sample inputs *)

Section MoreWitnesses.
Import Servers Models Hub HubOps Ssh Pool PoolOps SshOps Services Format.


Lemma subscribe_server_spec_witness :
  subscription (fst (_subscribe_server sample_hub 2%nat (py "srv-1") 5 Full)) (py "srv-1") 1%nat
  = subscription sample_hub (py "srv-1") 1%nat.
Proof.
  destruct (subscribe_server_spec sample_hub 2%nat (py "srv-1") 5 Full) as (_ & H & _).
  apply H. right. lia.
Defined.

Lemma unsubscribe_server_spec_witness :
  subscription (_unsubscribe_server sample_hub 2%nat (py "srv-1")) (py "srv-1") 1%nat
  = subscription sample_hub (py "srv-1") 1%nat.
Proof.
  destruct (unsubscribe_server_spec sample_hub 2%nat (py "srv-1")) as (_ & H & _).
  apply H. right. lia.
Defined.

Lemma sample_hub_no_empty : no_empty_subs sample_hub.
Proof.
  intros sid subs H. unfold sample_hub in H. cbn [_server_subs] in H.
  apply lookup_singleton_Some in H as [_ <-]. apply insert_non_empty.
Defined.

Lemma subscribe_unsubscribe_witness :
  _unsubscribe_server (fst (_subscribe_server sample_hub 2%nat (py "srv-1") 5 Full)) 2%nat (py "srv-1")
  = sample_hub.
Proof.
  apply (subscribe_unsubscribe sample_hub 2%nat (py "srv-1") 5 Full).
  - exact sample_hub_no_empty.
  - vm_compute. reflexivity.
Defined.

Lemma disconnect_spec_witness :
  subscription (core (disconnect sample_state 2%nat)) (py "srv-1") 1%nat
  = subscription (core sample_state) (py "srv-1") 1%nat.
Proof.
  destruct (disconnect_spec sample_state 2%nat) as (_ & _ & _ & H & _).
  apply H. lia.
Defined.

Lemma broadcast_spec_witness :
  subscription (core (fst (_broadcast (fun _ => false) sample_state (py "srv-1"))))
    (py "srv-1") 1%nat = None.
Proof.
  destruct (broadcast_spec (fun _ => false) sample_state (py "srv-1")) as (_ & Hin & H & _).
  apply (H 1%nat (py "srv-1")); [|reflexivity].
  apply Hin. exists sample_sub. vm_compute. reflexivity.
Defined.

Lemma tick_in_flight_witness : py "srv-1" ∉ _in_flight sample_hub.
Proof.
  destruct (tick_in_flight 1 sample_hub) as (_ & _ & _ & _ & H).
  apply H. vm_compute. left. reflexivity.
Defined.

Lemma tick_dispatched_witness : In (py "srv-1", Summary) (snd (_tick 1 sample_hub)).
Proof.
  apply (tick_dispatched 1 sample_hub (py "srv-1") Summary).
  exists [sample_sub]. split; [vm_compute; left; reflexivity|].
  split; [vm_compute; reflexivity|]. split; [|reflexivity].
  apply not_elem_of_empty.
Defined.

Lemma pool_clients_in_order_witness :
  pool_ok (snd (ensure_connected healthy_world sample_server empty_pool)).
Proof.
  destruct (pool_clients_in_order healthy_world (fun _ _ => Raise (OtherError []))
              sample_server [] empty_pool) as [Hempty H].
  apply H. exact Hempty.
Defined.

Lemma ensure_connected_success_witness :
  cached_client (snd (ensure_connected healthy_world sample_server empty_pool))
    (id sample_server) = Some 0%nat.
Proof.
  apply (ensure_connected_success healthy_world sample_server empty_pool 0%nat).
  vm_compute. reflexivity.
Defined.

Lemma ensure_connected_failure_witness :
  cached_client (snd (ensure_connected unreachable_world sample_server empty_pool))
    (id sample_server) = None.
Proof.
  apply (ensure_connected_failure unreachable_world sample_server empty_pool
           (OtherError (py "connection refused"))).
  vm_compute. reflexivity.
Defined.

Lemma other_entries_untouched_witness :
  entry_of (snd (ensure_connected healthy_world sample_server empty_pool)) (py "srv-2")
  = entry_of empty_pool (py "srv-2").
Proof.
  apply (other_entries_untouched healthy_world (fun _ _ => Raise (OtherError []))
           sample_server empty_pool (py "srv-2")).
  intros H. vm_compute in H. discriminate H.
Defined.

Lemma register_servers_spec_witness :
  _servers (register_servers [sample_server; sample_server_b] empty_pool)
    !! id sample_server_b = Some sample_server_b.
Proof.
  destruct (register_servers_spec [sample_server; sample_server_b] empty_pool) as [H _].
  apply (H [sample_server] sample_server_b []); [reflexivity|].
  intros s' [].
Defined.

Lemma servers_keyed_empty : servers_keyed empty_pool.
Proof. intros k s H. cbn in H. rewrite lookup_empty in H. discriminate H. Qed.

Lemma monitor_sweep_spec_witness :
  exists c, cached_client
              (monitor_sweep healthy_world (register_servers [sample_server] empty_pool))
              (py "srv-1") = Some c.
Proof.
  destruct (monitor_sweep_spec healthy_world (register_servers [sample_server] empty_pool))
    as (_ & _ & H).
  apply (H (register_keyed [sample_server] empty_pool servers_keyed_empty)
           (fun _ _ => eq_refl) (py "srv-1") sample_server).
  vm_compute. reflexivity.
Defined.
End MoreWitnesses.

Section MoreWitnessesSsh.
Import Servers Models Hub HubOps Ssh Pool PoolOps SshOps Services Format.

Lemma probes_never_raise_witness :
  exists v e, fetch_uptime sample_lib denied_session [] = (Return v, [] ++ [e]) /\ v = None.
Proof.
  destruct (probes_never_raise sample_lib denied_session []) as ((v & e & H1 & H2) & _).
  exists v, e. split; [exact H1|]. apply H2. vm_compute. discriminate.
Defined.

Lemma fetch_memory_spec_witness :
  fst (fetch_memory sample_lib denied_session []) = Return (None, None).
Proof.
  apply (proj2 (fetch_memory_spec sample_lib denied_session [])).
  vm_compute. discriminate.
Defined.

Lemma parse_supervisor_spec_witness :
  let info := {| total := Some 1; running := Some 0;
                 sup_details := Some [{| sup_name := None; sup_state := None;
                                         sup_pid := None; sup_uptime := None;
                                         sup_message := None;
                                         raw := Some (py "web RUNNING") |}] |} in
  ([py "web RUNNING"] = [] /\ info = SupervisorInfo_default) \/
  ([py "web RUNNING"] <> [] /\
   exists details,
     sup_details info = Some details /\
     List.map raw details = List.map Some [py "web RUNNING"] /\
     total info = Some (Z.of_nat (length [py "web RUNNING"])) /\
     running info = Some (Z.of_nat (length (List.filter is_running details))) /\
     (length (List.filter is_running details) <= length [py "web RUNNING"])%nat).
Proof.
  cbv zeta. apply (parse_supervisor_spec sample_lib). vm_compute. reflexivity.
Defined.

Lemma fetch_pm2_details_spec_witness :
  let info := {| total_memory_bytes := None; processes := None; pm2_details := None;
                 pm2_error := Some (py "Permission denied") |} in
  (exists m, m <> [] /\ Some (py "Permission denied") = Some m /\ pm2_error info = Some m /\
             pm2_details info = None /\ processes info = None /\
             total_memory_bytes info = None) \/
  (exists details, Some (py "Permission denied") = None /\ pm2_error info = None /\
                   pm2_details info = Some details /\
                   processes info = Some (Z.of_nat (length details)) /\
                   total_memory_bytes info = Some (memory_sum details)).
Proof.
  cbv zeta. apply (fetch_pm2_details_spec sample_lib denied_session None None None []).
  vm_compute. reflexivity.
Defined.

Lemma extract_json_array_spec_witness :
  exists before rest,
    py "[PM2] [1]" = before ++ 91%N :: rest /\
    raw_decode sample_lib (91%N :: rest) = Return (JArr [JInt 1]) /\
    forall b r, py "[PM2] [1]" = b ++ 91%N :: r -> (length b < length before)%nat ->
                passed_over sample_lib (91%N :: r).
Proof.
  exact (extract_json_array_spec sample_lib (py "[PM2] [1]")).
Defined.

Lemma format_bytes_spec_witness :
  format_bytes sample_lib (Some 2048)
  = Return (format_2f sample_lib (Fin (scaled 2048 1)) ++ py " " ++ py "KB").
Proof.
  destruct (format_bytes_spec sample_lib 2048) as (_ & _ & H & _).
  apply (H 0%nat (py "KB")); [reflexivity | vm_compute; discriminate | | reflexivity].
  left. reflexivity.
Defined.

Lemma gather_stats_spec_witness :
  gather_stats sample_lib denied_session (Some (OtherError (py "connection refused")))
    sample_server
  = Return (build_error_stats sample_server (py "connection refused")).
Proof.
  destruct (gather_stats_spec sample_lib denied_session
              (Some (OtherError (py "connection refused"))) sample_server)
    as (stats & H1 & _ & _ & _ & _ & _ & _ & _ & H).
  rewrite H1. f_equal. apply (H (OtherError (py "connection refused"))). left. reflexivity.
Defined.

Lemma install_root_key_spec_witness :
  let outcome := install_root_key sample_lib quiet_session (fun s => s)
                   (py "ssh-ed25519 AAAA") (py "deploy") (Some (py "hunter2")) [] in
  snd outcome
  = [{| command :=
          py "stty -echo >/dev/null 2>&1 || true; "
          ++ py "sudo -S -p '' -u 'root' /bin/sh -c 'bash -lc '"
          ++ py "umask 077; mkdir -p /root/.ssh; touch /root/.ssh/authorized_keys; "
          ++ py "key=$(printf '%s' 'ssh-ed25519 AAAA' | base64 -d); "
          ++ py "grep -qxF " ++ dq (py "$key") ++ py " /root/.ssh/authorized_keys || "
          ++ py "printf '%s\n' " ++ dq (py "$key") ++ py " >> /root/.ssh/authorized_keys; "
          ++ py "grep -qxF " ++ dq (py "$key") ++ py " /root/.ssh/authorized_keys"
          ++ py "''; status=$?; stty echo >/dev/null 2>&1 || true; exit $status";
        get_pty := true;
        stdin := Some (py "hunter2" ++ [LF]) |}] /\
  fst outcome = Return tt.
Proof.
  cbv zeta.
  destruct (install_root_key_spec sample_lib quiet_session (fun s => s)
              (py "ssh-ed25519 AAAA") (py "deploy") (Some (py "hunter2")) [])
    as (_ & _ & H).
  destruct (H (py "hunter2")) as [Hlog Hret].
  - intros E. vm_compute in E. discriminate E.
  - reflexivity.
  - discriminate.
  - split.
    + rewrite Hlog. vm_compute. reflexivity.
    + apply Hret. reflexivity.
Defined.

Lemma add_keeps_endpoints_distinct_witness :
  exists servers',
    _load (snd (add (ServerList [sample_server]) sample_server_b)) = Return servers' /\
    List.NoDup (List.map endpoint servers').
Proof.
  apply (add_keeps_endpoints_distinct (ServerList [sample_server]) [sample_server]
           sample_server_b eq_refl).
  constructor; [intros [] | constructor].
Defined.

Lemma add_then_get_by_id_witness :
  get_by_id (snd (add (ServerList [sample_server]) sample_server_b)) (id sample_server_b)
  = Return (Some sample_server_b).
Proof.
  apply (add_then_get_by_id (ServerList [sample_server]) [sample_server] sample_server_b
           eq_refl eq_refl).
  intros s [<- | []] E. vm_compute in E. discriminate E.
Defined.

Lemma stats_collect_spec_witness :
  exists snapshots,
    fst (stats_collect healthy_world 8 false (ServerList [sample_server; sample_server_b])
           empty_pool) = Return snapshots /\
    List.map server_id snapshots = [py "srv-1"; py "srv-2"].
Proof.
  apply (stats_collect_spec healthy_world 8 false (ServerList [sample_server; sample_server_b])
           [sample_server; sample_server_b] empty_pool); [lia | reflexivity].
Defined.

Lemma parse_tags_spec_witness :
  parse_tags (Some (py " web , ,db")) = [py "web"; py "db"].
Proof.
  destruct (parse_tags_spec None [] [py " web "; py " "; py "db"]) as (_ & _ & H & _).
  eapply eq_trans; [apply H | vm_compute; reflexivity].
  repeat constructor; vm_compute; intuition discriminate.
Defined.

Lemma ensure_watcher_keypair_spec_witness :
  ~ In GenerateKeypair (snd (ensure_watcher_keypair sample_keygen private_only)).
Proof.
  pose proof (ensure_watcher_keypair_spec sample_keygen private_only) as H.
  destruct (ensure_watcher_keypair sample_keygen private_only) as [[outcome files'] cmds].
  destruct H as (_ & _ & _ & H & _). apply H. eexists. reflexivity.
Defined.
End MoreWitnessesSsh.
